(** * ChromeLogs: the capture / buffer / flush / save pipeline of chrome.js

    A shallow embedding of the parts of [chrome.js] that hold network
    events and console records in memory and write them to disk, with the
    properties of its specification stated and settled against it.

    Conventions of the embedding.
    - JavaScript numbers that count things are [nat]; clock readings and
      HAR numbers are [Z].
    - A [Map] that the code iterates ([networkEvents], [pages]) and the
      object [consoleLogs] (iterated with [Object.keys]) are insertion
      ordered association lists; maps that are only looked up
      ([requestUrlMaps], the per-tab counters of [flushStats]) are [gmap]s.
    - Request entries are JavaScript objects shared between a tab's buffer
      and the pending-match index; they live in a store [objects] and the
      buffer and the index hold references into it.
    - The file system and the clock are the outside world: an oracle
      answers every write or mkdir attempt, and the n-th reading of the
      clock is [clock n].
    - A handler that awaits is a sequence of steps: what it does up to its
      first [await], and what it does when it is resumed; other handlers
      run in between. The console messages whose handler is suspended are
      part of the state ([pendingConsole]).
    - Terminal output (status line, messages) is not modelled, except that
      every exception a handler catches is recorded in [errors]. *)

From Stdlib Require Import ZArith Lia Ascii String.
From stdpp Require Import gmap strings list fin_maps pretty.

Local Open Scope nat_scope.

(* ===================================================================== *)
(** * Part I. The embedding                                               *)
(* ===================================================================== *)

(** ** BoundedArray ([class BoundedArray]) *)

Module BoundedArray.
Section Buffer.
Context {T : Type}.

(** [constructor(maxSize)]: the fields [maxSize], [array], [overflowed]. *)
Record t : Type := mk {
  maxSize : nat;
  array : list T;
  overflowed : bool
}.

Definition new (maxSize : nat) : t := mk maxSize [] false.

(** [Array.prototype.shift]: drops the first element; nothing happens on
    an empty array. *)
Definition shift (l : list T) : list T := drop 1 l.

(** [push(item)]: when the array is at (or above) [maxSize] the oldest
    element is shifted out and [overflowed] is set; the item is then
    appended and the new length returned. *)
Definition push (b : t) (item : T) : t * nat :=
  let b1 :=
    if bool_decide (maxSize b ≤ List.length (array b))
    then mk (maxSize b) (shift (array b)) true
    else b in
  let arr := array b1 ++ [item] in
  (mk (maxSize b1) arr (overflowed b1), List.length arr).

(** [get length()]. *)
Definition length (b : t) : nat := List.length (array b).

(** [getItems()]. *)
Definition getItems (b : t) : list T := array b.

(** [clear()]. *)
Definition clear (b : t) : t := mk (maxSize b) [] false.

(** A sequence of pushes, oldest first; the second component collects
    what each [push] returned. *)
Fixpoint pushAll (b : t) (items : list T) : t * list nat :=
  match items with
  | [] => (b, [])
  | x :: rest =>
      let '(b1, n) := push b x in
      let '(b2, ns) := pushAll b1 rest in
      (b2, n :: ns)
  end.

End Buffer.
Arguments t : clear implicits.
End BoundedArray.

(** ** Values written to disk *)

(** Documents are JSON values. [JNum] is an integer number, [JTenths z]
    the number [z / 10] (the only fractional numbers the program
    produces are 0.8 and 0.2 of a whole number of milliseconds). A [Date]
    that is written whole or through [toISOString] is kept as its clock
    reading, in milliseconds: that rendering loses nothing. A time written
    through [toLocaleTimeString] is the string of that function. *)
#[warnings="-register-all"]
Inductive Json : Type :=
| JNull
| JBool (b : bool)
| JNum (z : Z)
| JTenths (z : Z)
| JStr (s : string)
| JArr (items : list Json)
| JObj (fields : list (string * Json)).

(** [typeof data === "object"]. *)
Definition typeof_object (data : Json) : bool :=
  match data with
  | JNull | JArr _ | JObj _ => true
  | _ => false
  end.

(** [Object.keys(data).length] for an object or an array. *)
Definition Object_keys_length (data : Json) : nat :=
  match data with
  | JObj fields => List.length fields
  | JArr items => List.length items
  | _ => 0
  end.

(** Field access [data.k]. *)
Fixpoint field (k : string) (fields : list (string * Json)) : option Json :=
  match fields with
  | [] => None
  | (k', v) :: rest => if String.eqb k k' then Some v else field k rest
  end.

Definition get_field (k : string) (data : Json) : option Json :=
  match data with
  | JObj fields => field k fields
  | _ => None
  end.

Definition JNat (n : nat) : Json := JNum (Z.of_nat n).

(** ** Strings and paths *)

Abbreviation TabId := string (only parsing).
Abbreviation Url := string (only parsing).
Abbreviation Path := string (only parsing).

Fixpoint string_map (f : ascii → ascii) (s : string) : string :=
  match s with
  | EmptyString => EmptyString
  | String c rest => String (f c) (string_map f rest)
  end.

(** [s.substring(0, n)]. *)
Definition substring0 (n : nat) (s : string) : string := String.substring 0 n s.

(** [a || b] on strings: the empty string is falsy. *)
Definition str_or (a b : string) : string :=
  if String.eqb a "" then b else a.

(** [path.join(dir, name)]. *)
Definition path_join (dir name : Path) : Path := dir +:+ "/" +:+ name.

Definition underscore : ascii := "_"%char.

(** The nine characters the file-name pattern of
    [getCleanFilenameFromUrl] replaces: backslash, slash, colon, star,
    question mark, double quote, less-than, greater-than and bar. *)
Definition is_reserved_char (c : ascii) : bool :=
  let n := Ascii.nat_of_ascii c in
  bool_decide (n ∈ [92; 47; 58; 42; 63; 34; 60; 62; 124]).

(** The characters of the class [[a-z0-9]] with the [i] flag. *)
Definition is_alnum (c : ascii) : bool :=
  let n := Ascii.nat_of_ascii c in
  (bool_decide (97 ≤ n) && bool_decide (n ≤ 122))
  || (bool_decide (65 ≤ n) && bool_decide (n ≤ 90))
  || (bool_decide (48 ≤ n) && bool_decide (n ≤ 57)).

(** [getCleanFilenameFromUrl(baseUrl, tabId)]. *)
Definition getCleanFilenameFromUrl (baseUrl : string) (tabId : TabId) : string :=
  substring0 50
    (string_map (fun c => if is_reserved_char c then underscore else c) baseUrl)
  +:+ "_" +:+ substring0 6 tabId.

(** [title.replace(/[^a-z0-9]/gi, "_").substring(0, 30)]. *)
Definition safeTitleOf (title : string) : string :=
  substring0 30 (string_map (fun c => if is_alnum c then c else underscore) title).

(** ** Times of day

    [date.toLocaleTimeString()]: the time of day of a clock reading, to the
    second, on a twelve-hour dial (the rendering of the [en-US] locale, in
    a zone whose local time is the time of the clock). The string does not
    tell the day, nor the milliseconds. *)
Definition twoDigits (n : Z) : string :=
  if (n <? 10)%Z then "0" +:+ pretty n else pretty n.

Definition toLocaleTimeString (t : Z) : string :=
  let second := ((t / 1000) mod 86400)%Z in
  let hour := (second / 3600)%Z in
  pretty (if (hour mod 12 =? 0)%Z then 12%Z else (hour mod 12)%Z)
  +:+ ":" +:+ twoDigits (second mod 3600 / 60)
  +:+ ":" +:+ twoDigits (second mod 60)
  +:+ (if (hour <? 12)%Z then " AM" else " PM").

Arguments toLocaleTimeString : simpl never.

(** [`${Math.round(ms / 1000 / 60)} minutes`], for a whole number of
    milliseconds: [Math.round] takes a half upwards. *)
Definition minutesText (ms : Z) : string :=
  pretty ((ms + 30000) / 60000)%Z +:+ " minutes".

Arguments minutesText : simpl never.

(** [s.replace(/[:.]/g, "-")]. *)
Definition dashed (s : string) : string :=
  string_map (fun c => if bool_decide (c = ":"%char ∨ c = "."%char) then "-"%char else c) s.

(** ** Insertion-ordered maps

    [Map] objects and the plain object [consoleLogs] are iterated in the
    order in which their keys were first set. *)

Section OrderedMap.
Context {V : Type}.

Fixpoint aget (k : string) (m : list (string * V)) : option V :=
  match m with
  | [] => None
  | (k', v) :: rest => if String.eqb k k' then Some v else aget k rest
  end.

Definition ahas (k : string) (m : list (string * V)) : bool :=
  match aget k m with Some _ => true | None => false end.

(** [m.set(k, v)]: an existing key keeps its position. *)
Fixpoint aset (k : string) (v : V) (m : list (string * V)) : list (string * V) :=
  match m with
  | [] => [(k, v)]
  | (k', v') :: rest =>
      if String.eqb k k' then (k, v) :: rest else (k', v') :: aset k v rest
  end.

End OrderedMap.

(** ** Configuration ([MEMORY_CONFIG]) *)

Definition maxEventsBeforeFlush : nat := 5000.
Definition maxLogsPerTabBeforeFlush : nat := 500.
Definition autoFlushIntervalMs : Z := 60000.
Definition useCompression : bool := true.
Definition batchSize : nat := 100.
Definition useBufferedWrites : bool := true.

(** [MEMORY_CONFIG.maxEventsBeforeFlush * 1.2], the capacity given to every
    [BoundedArray]: the product is exactly 6000 in double precision. *)
Definition bufferCapacity : nat := maxEventsBeforeFlush * 12 / 10.

(** [MEMORY_CONFIG.maxEventsBeforeFlush * 0.9] (exactly 4500). *)
Definition partialFlushThreshold : nat := maxEventsBeforeFlush * 9 / 10.

(** ** The data the pipeline holds *)

(** The [response] object of an entry; the constant fields
    ([httpVersion], [cookies], [redirectURL], sizes) are left out. *)
Record ResponseData : Type := mkResponse {
  status : Z;
  statusText : string;
  resp_headers : list (string * string);
  content_size : Z;
  mimeType : string
}.

(** The zero-valued response every request starts with. *)
Definition emptyResponse : ResponseData := mkResponse 0 "" [] 0 "".

(** A request entry, as pushed by the ["request"] handler. [time] is in
    milliseconds, [wait] and [receive] in tenths of a millisecond; the
    timing fields the program never changes are left out. *)
Record Entry : Type := mkEntry {
  _requestId : string;
  _resourceType : string;
  pageref : TabId;
  startedDateTime : Z;
  time : Z;
  req_method : string;
  req_url : Url;
  req_headers : list (string * string);
  req_queryString : list (string * string);
  response : ResponseData;
  wait : Z;
  receive : Z;
  serverIPAddress : string;
  _timestamp : Z
}.

(** A console record: [timestamp], [type], [text] and what else the
    handler that pushed it stores. The ["console"] handler stores [args]
    and [stackTrace]; its [catch] block stores [error], a string; the
    ["pageerror"] handler stores [error], an object with [message] and
    [stack]; the ["warning"] handler stores [warning], the value it was
    given. *)
Inductive RecordDetail : Type :=
| MessageDetail (args : list string) (stackTrace : list (string * Z * Z * string))
| FailureDetail (error : string)
| PageErrorDetail (message stack : string)
| WarningDetail (warning : Json).

Record ConsoleRecord : Type := mkConsoleRecord {
  c_timestamp : string;
  type : string;
  text : string;
  detail : RecordDetail
}.

(** An element of [pages]. *)
Record PageInfo : Type := mkPageInfo {
  p_id : TabId;
  p_title : string;
  p_startedDateTime : Z;
  p_url : Url;
  closed : bool;
  closedAt : option Z
}.

(** An element of [consoleLogs]; [flushFiles] is absent until the first
    flush. *)
Record TabLogs : Type := mkTabLogs {
  pageTitle : string;
  pageUrl : string;
  logs : list ConsoleRecord;
  lastActivity : Z;
  flushFiles : option (list Path)
}.

(** A console message as the ["console"] handler reads it: [message.type()]
    and [message.text()], and what its awaited calls give: the evaluated
    arguments, the frames of [message.stackTrace()], and [ce_page], the
    pair of [page.url()] and [page.title()], absent when they throw. *)
Record ConsoleEvent : Type := mkConsoleEvent {
  ce_pageId : TabId;
  ce_type : string;
  ce_text : string;
  ce_args : list string;
  ce_stackTrace : list (string * Z * Z * string);
  ce_page : option (Url * string)
}.

(** A console message whose handler is suspended at an [await]: the
    message and the [timestamp] the handler took before it was suspended. *)
Record PendingConsole : Type := mkPendingConsole {
  pc_timestamp : string;
  pc_event : ConsoleEvent
}.

(** An element of [tabUrlStats]. *)
Record UrlStat : Type := mkUrlStat {
  urlCounts : gmap string nat;
  primaryBaseUrl : option string;
  maxCount : nat;
  lastUrl : Url;
  lastBaseUrl : string
}.

(** [progressStats]. *)
Record ProgressStats : Type := mkProgressStats {
  ps_networkEvents : nat;
  ps_consoleLogs : nat;
  ps_errorLogs : nat;
  ps_warningLogs : nat;
  ps_activeTabs : nat
}.

(** [flushStats]. *)
Record FlushStats : Type := mkFlushStats {
  networkEventFlushes : nat;
  totalNetworkEventsFlushed : nat;
  perTabNetworkEventsFlushed : gmap TabId nat;
  consoleLogFlushes : nat;
  totalConsoleLogsFlushed : gmap TabId nat;
  lastFlushTime : Z
}.

(** References to entry objects. *)
Abbreviation Ref := nat (only parsing).

(** A value of [networkEvents]: the program stores a [BoundedArray] in
    [initTabNetworkEvents] and has code for plain arrays as well. *)
Inductive TabEvents : Type :=
| Bounded (b : BoundedArray.t Ref)
| Plain (items : list Ref).

(** [tabEvents.length], defined for both shapes. *)
Definition events_length (te : TabEvents) : nat :=
  match te with
  | Bounded b => BoundedArray.length b
  | Plain items => List.length items
  end.

(** ** The outside world *)

Inductive Exn : Type :=
| ReferenceError (name : string)
| TypeError (what : string)
| IOError (p : Path).

Inductive FsOp : Type :=
| Mkdir (p : Path)
| WriteFile (p : Path) (data : Json)
| WriteStream (p : Path) (data : Json).

Definition op_path (op : FsOp) : Path :=
  match op with
  | Mkdir p | WriteFile p _ | WriteStream p _ => p
  end.

(** One attempt on the file system and whether it succeeded. *)
Record Attempt : Type := mkAttempt { at_op : FsOp; at_ok : bool }.

(** The directories that exist and every attempt made so far, oldest
    first. *)
Record Disk : Type := mkDisk { dirs : gset Path; history : list Attempt }.

(** The environment of a run: [io n p] tells whether the attempt number
    [n] (counting from 0), on path [p], succeeds; [clock n] is the n-th
    reading of the clock, in milliseconds; [hostname] is
    [new URL(url).hostname], [None] when the constructor throws; [appDir]
    is [getAppDir()]. *)
Record Env : Type := mkEnv {
  io : nat → Path → bool;
  clock : nat → Z;
  hostname : Url → option string;
  appDir : Path
}.

(** ** The state of the program

    [uniqueRequestId], [sessionDir], [networkEvents], [pages],
    [requestUrlMaps], [progressStats] and [tabUrlStats] are declared at
    module level; [flushStats] and [consoleLogs] are constants of the main
    asynchronous function and are visible only to the functions declared
    inside it. [objects] is the store of entry objects, [tick] counts the
    clock readings and [errors] collects the exceptions that [catch]
    blocks have handled, oldest first. [pendingConsole] holds the console
    messages whose handler has counted them and is suspended, oldest
    first. *)
Record State : Type := mkState {
  uniqueRequestId : nat;
  sessionDir : option Path;
  networkEvents : list (TabId * TabEvents);
  pages : list (TabId * PageInfo);
  requestUrlMaps : gmap TabId (gmap Url (option Ref));
  progressStats : ProgressStats;
  tabUrlStats : gmap TabId UrlStat;
  flushStats : FlushStats;
  consoleLogs : list (TabId * TabLogs);
  objects : gmap Ref Entry;
  disk : Disk;
  tick : nat;
  errors : list Exn;
  pendingConsole : list PendingConsole
}.

Definition set_uniqueRequestId (v : nat) (s : State) : State :=
  mkState v (sessionDir s) (networkEvents s) (pages s) (requestUrlMaps s)
    (progressStats s) (tabUrlStats s) (flushStats s) (consoleLogs s)
    (objects s) (disk s) (tick s) (errors s) (pendingConsole s).
Definition set_sessionDir (v : option Path) (s : State) : State :=
  mkState (uniqueRequestId s) v (networkEvents s) (pages s) (requestUrlMaps s)
    (progressStats s) (tabUrlStats s) (flushStats s) (consoleLogs s)
    (objects s) (disk s) (tick s) (errors s) (pendingConsole s).
Definition set_networkEvents (v : list (TabId * TabEvents)) (s : State) : State :=
  mkState (uniqueRequestId s) (sessionDir s) v (pages s) (requestUrlMaps s)
    (progressStats s) (tabUrlStats s) (flushStats s) (consoleLogs s)
    (objects s) (disk s) (tick s) (errors s) (pendingConsole s).
Definition set_pages (v : list (TabId * PageInfo)) (s : State) : State :=
  mkState (uniqueRequestId s) (sessionDir s) (networkEvents s) v (requestUrlMaps s)
    (progressStats s) (tabUrlStats s) (flushStats s) (consoleLogs s)
    (objects s) (disk s) (tick s) (errors s) (pendingConsole s).
Definition set_requestUrlMaps (v : gmap TabId (gmap Url (option Ref))) (s : State) : State :=
  mkState (uniqueRequestId s) (sessionDir s) (networkEvents s) (pages s) v
    (progressStats s) (tabUrlStats s) (flushStats s) (consoleLogs s)
    (objects s) (disk s) (tick s) (errors s) (pendingConsole s).
Definition set_progressStats (v : ProgressStats) (s : State) : State :=
  mkState (uniqueRequestId s) (sessionDir s) (networkEvents s) (pages s) (requestUrlMaps s)
    v (tabUrlStats s) (flushStats s) (consoleLogs s)
    (objects s) (disk s) (tick s) (errors s) (pendingConsole s).
Definition set_tabUrlStats (v : gmap TabId UrlStat) (s : State) : State :=
  mkState (uniqueRequestId s) (sessionDir s) (networkEvents s) (pages s) (requestUrlMaps s)
    (progressStats s) v (flushStats s) (consoleLogs s)
    (objects s) (disk s) (tick s) (errors s) (pendingConsole s).
Definition set_flushStats (v : FlushStats) (s : State) : State :=
  mkState (uniqueRequestId s) (sessionDir s) (networkEvents s) (pages s) (requestUrlMaps s)
    (progressStats s) (tabUrlStats s) v (consoleLogs s)
    (objects s) (disk s) (tick s) (errors s) (pendingConsole s).
Definition set_consoleLogs (v : list (TabId * TabLogs)) (s : State) : State :=
  mkState (uniqueRequestId s) (sessionDir s) (networkEvents s) (pages s) (requestUrlMaps s)
    (progressStats s) (tabUrlStats s) (flushStats s) v
    (objects s) (disk s) (tick s) (errors s) (pendingConsole s).
Definition set_objects (v : gmap Ref Entry) (s : State) : State :=
  mkState (uniqueRequestId s) (sessionDir s) (networkEvents s) (pages s) (requestUrlMaps s)
    (progressStats s) (tabUrlStats s) (flushStats s) (consoleLogs s)
    v (disk s) (tick s) (errors s) (pendingConsole s).
Definition set_disk (v : Disk) (s : State) : State :=
  mkState (uniqueRequestId s) (sessionDir s) (networkEvents s) (pages s) (requestUrlMaps s)
    (progressStats s) (tabUrlStats s) (flushStats s) (consoleLogs s)
    (objects s) v (tick s) (errors s) (pendingConsole s).
Definition set_tick (v : nat) (s : State) : State :=
  mkState (uniqueRequestId s) (sessionDir s) (networkEvents s) (pages s) (requestUrlMaps s)
    (progressStats s) (tabUrlStats s) (flushStats s) (consoleLogs s)
    (objects s) (disk s) v (errors s) (pendingConsole s).
Definition set_errors (v : list Exn) (s : State) : State :=
  mkState (uniqueRequestId s) (sessionDir s) (networkEvents s) (pages s) (requestUrlMaps s)
    (progressStats s) (tabUrlStats s) (flushStats s) (consoleLogs s)
    (objects s) (disk s) (tick s) v (pendingConsole s).

Definition set_pendingConsole (v : list PendingConsole) (s : State) : State :=
  mkState (uniqueRequestId s) (sessionDir s) (networkEvents s) (pages s) (requestUrlMaps s)
    (progressStats s) (tabUrlStats s) (flushStats s) (consoleLogs s)
    (objects s) (disk s) (tick s) (errors s) v.

(** The state when the main function starts listening: nothing captured,
    the session directory chosen. *)
Definition initialState (dir : Path) (d : Disk) (t0 : Z) : State :=
  mkState 0 (Some dir) [] [] ∅ (mkProgressStats 0 0 0 0 0) ∅
    (mkFlushStats 0 0 ∅ 0 ∅ t0) [] ∅ d 0 [] [].

(** ** File system and clock primitives *)

(** One attempt: the oracle decides, the attempt is appended to the
    history, and a successful [Mkdir] adds the directory. *)
Definition attempt (env : Env) (op : FsOp) (d : Disk) : bool * Disk :=
  let ok := io env (length (history d)) (op_path op) in
  let dirs' :=
    match op with
    | Mkdir p => if ok then {[p]} ∪ dirs d else dirs d
    | _ => dirs d
    end in
  (ok, mkDisk dirs' (history d ++ [mkAttempt op ok])).

(** [fs.existsSync(p)], asked of directories only. *)
Definition existsSync (p : Path) (d : Disk) : bool := bool_decide (p ∈ dirs d).

(** [if (!fs.existsSync(p)) fs.mkdirSync(p, { recursive: true })]: [false]
    when [mkdirSync] throws. *)
Definition ensureDir (env : Env) (p : Path) (d : Disk) : bool * Disk :=
  if existsSync p d then (true, d) else attempt env (Mkdir p) d.

(** A [catch] block that reports the exception and goes on. *)
Definition caught (e : Exn) (s : State) : State :=
  set_errors (errors s ++ [e]) s.

(** [new Date()] / [Date.now()]: the next reading of the clock. *)
Definition readClock (env : Env) (s : State) : Z * State :=
  (clock env (tick s), set_tick (S (tick s)) s).

(** ** StorageWriter: [writeCompressedFile(filePath, data)]

    The promise either resolves with the path written or rejects.
    [JSON.stringify] is taken to succeed on the plain data the program
    writes; the pretty and the compact renderings of [data] are not
    told apart.
    - Compressed branch (compression on, [data] an object with more than
      ten keys): a gzip stream to [filePath.gz]; when the stream reports an
      error, a synchronous write of [filePath]; when that throws, the
      promise rejects.
    - Otherwise: a synchronous write of [filePath]; when it throws, the
      outer [catch] block makes a synchronous write of [filePath.backup];
      when that throws, the promise rejects.
    - For [null] the test of the first branch itself throws (compression
      is on and [typeof null] is ["object"], so [Object.keys(null)] is
      evaluated), and the outer [catch] block goes straight to the write
      of [filePath.backup]. *)
Inductive WriteResult : Type :=
| Resolved (p : Path)
| Rejected.

Definition writeCompressedFile (env : Env) (filePath : Path) (data : Json)
    (d : Disk) : WriteResult * Disk :=
  match data with
  | JNull =>
      match attempt env (WriteFile (filePath +:+ ".backup") data) d with
      | (true, d1) => (Resolved (filePath +:+ ".backup"), d1)
      | (false, d1) => (Rejected, d1)
      end
  | _ =>
      if useCompression && typeof_object data
         && bool_decide (10 < Object_keys_length data)
      then
        let compressedPath := filePath +:+ ".gz" in
        match attempt env (WriteStream compressedPath data) d with
        | (true, d1) => (Resolved compressedPath, d1)
        | (false, d1) =>
            match attempt env (WriteFile filePath data) d1 with
            | (true, d2) => (Resolved filePath, d2)
            | (false, d2) => (Rejected, d2)
            end
        end
      else
        match attempt env (WriteFile filePath data) d with
        | (true, d1) => (Resolved filePath, d1)
        | (false, d1) =>
            match attempt env (WriteFile (filePath +:+ ".backup") data) d1 with
            | (true, d2) => (Resolved (filePath +:+ ".backup"), d2)
            | (false, d2) => (Rejected, d2)
            end
        end
  end.

(** A call whose rejection is reported by a [.catch] handler. *)
Definition writeAndReport (env : Env) (filePath : Path) (data : Json)
    (s : State) : State :=
  match writeCompressedFile env filePath data (disk s) with
  | (Resolved _, d) => set_disk d s
  | (Rejected, d) => caught (IOError filePath) (set_disk d s)
  end.

(** ** URL statistics: [extractBaseUrl], [trackTabBaseUrl] *)

Definition extractBaseUrl (env : Env) (url : Url) : string :=
  match hostname env url with
  | Some h => h
  | None => "unknown-domain"
  end.

Definition trackTabBaseUrl (env : Env) (tabId : TabId) (url : Url)
    (s : State) : State :=
  if String.eqb url "" || String.eqb url "about:blank" then s
  else
    let baseUrl := extractBaseUrl env url in
    let stats :=
      match tabUrlStats s !! tabId with
      | Some st => st
      | None => mkUrlStat ∅ None 0 url baseUrl
      end in
    let count := S (default 0 (urlCounts stats !! baseUrl)) in
    let counts := <[baseUrl := count]> (urlCounts stats) in
    let stats' :=
      if bool_decide (maxCount stats < count)
      then mkUrlStat counts (Some baseUrl) count url baseUrl
      else mkUrlStat counts (primaryBaseUrl stats) (maxCount stats) url baseUrl in
    set_tabUrlStats (<[tabId := stats']> (tabUrlStats s)) s.

(** [tabUrlStat.primaryBaseUrl || tabUrlStat.lastBaseUrl || "unknown-domain"],
    or ["unknown-domain"] for a tab without statistics. *)
Definition baseUrlOf (tabId : TabId) (s : State) : string :=
  match tabUrlStats s !! tabId with
  | Some st =>
      str_or (str_or (default "" (primaryBaseUrl st)) (lastBaseUrl st))
        "unknown-domain"
  | None => "unknown-domain"
  end.

(** ** SourceRegistry: [initTabNetworkEvents] *)

Definition initTabNetworkEvents (tabId : TabId) (s : State) : State * TabEvents :=
  match aget tabId (networkEvents s) with
  | Some te => (s, te)
  | None =>
      let te := Bounded (BoundedArray.new bufferCapacity) in
      (set_networkEvents (aset tabId te (networkEvents s)) s, te)
  end.

(** ** FlushScheduler: [flushNetworkEventsForTab(tabId, forceSave)]

    The function is declared at module level, outside the main
    asynchronous function in which [flushStats] is declared with [const].
    When control reaches the first use of that name (the computation of
    [tabFlushCount], right after the flush directory has been created) the
    identifier does not resolve and a [ReferenceError] is raised; the
    function's [catch] block reports it. The statements after that point
    (building the HAR document, [writeCompressedFile], the update of the
    counters, [networkEvents.set(tabId, [])]) are therefore never executed.
    [tabInfo], [baseUrl] and [cleanBaseUrl], computed before, have no
    effect. *)
Definition flushNetworkEventsForTab (env : Env) (tabId : TabId)
    (forceSave : bool) (s : State) : State :=
  match sessionDir s, aget tabId (networkEvents s) with
  | Some dir, Some tabEvents =>
      if bool_decide (events_length tabEvents < maxEventsBeforeFlush)
         && negb forceSave
      then s
      else
        let flushDir := path_join dir "network_flushes" in
        match ensureDir env flushDir (disk s) with
        | (false, d) => caught (IOError flushDir) (set_disk d s)
        | (true, d) => caught (ReferenceError "flushStats") (set_disk d s)
        end
  | _, _ => s
  end.

(** ** Serializer for console batches *)

(** The object literal [{ log: 0, info: 0, warning: 0, error: 0, debug: 0,
    other: 0 }]. *)
Definition entriesByType0 : list (string * nat) :=
  [("log", 0); ("info", 0); ("warning", 0); ("error", 0); ("debug", 0);
   ("other", 0)].

(** [o.hasOwnProperty(k)]. *)
Fixpoint hasOwnProperty (k : string) (o : list (string * nat)) : bool :=
  match o with
  | [] => false
  | (k', _) :: rest => String.eqb k k' || hasOwnProperty k rest
  end.

(** [o[k]++] for a key the object has. *)
Fixpoint increment (k : string) (o : list (string * nat)) : list (string * nat) :=
  match o with
  | [] => []
  | (k', n) :: rest =>
      if String.eqb k k' then (k', S n) :: rest else (k', n) :: increment k rest
  end.

(** The body of the [forEach] over the records. *)
Definition countOne (o : list (string * nat)) (r : ConsoleRecord) : list (string * nat) :=
  if hasOwnProperty (type r) o then increment (type r) o else increment "other" o.

(** The single pass over the records, as in [flushConsoleLogsForTab] and
    [saveAllConsoleLogs]. *)
Definition countEntryTypes (records : list ConsoleRecord) : list (string * nat) :=
  fold_left countOne records entriesByType0.

Definition jsonOfCounts (o : list (string * nat)) : Json :=
  JObj (map (fun '(k, n) => (k, JNat n)) o).

Definition jsonOfFrame (f : string * Z * Z * string) : Json :=
  let '(url, line, col, fn) := f in
  JObj [("url", JStr url); ("lineNumber", JNum line); ("columnNumber", JNum col);
        ("functionName", JStr (str_or fn "(anonymous)"))].

Definition jsonOfDetail (d : RecordDetail) : list (string * Json) :=
  match d with
  | MessageDetail args stackTrace =>
      [("args", JArr (map JStr args)); ("stackTrace", JArr (map jsonOfFrame stackTrace))]
  | FailureDetail error => [("error", JStr error)]
  | PageErrorDetail message stack =>
      [("error", JObj [("message", JStr message); ("stack", JStr stack)])]
  | WarningDetail warning => [("warning", warning)]
  end.

Definition jsonOfRecord (r : ConsoleRecord) : Json :=
  JObj ([("timestamp", JStr (c_timestamp r)); ("type", JStr (type r));
         ("text", JStr (text r))] ++ jsonOfDetail (detail r)).

(** The document of a console flush ([formattedLogs] in
    [flushConsoleLogsForTab]); [now] is the reading of the clock its
    [timestamp] is made from. *)
Definition flushDocument (now : Z) (tabId : TabId) (tabLogs : TabLogs)
    (flushSequence : nat) : Json :=
  JObj [("timestamp", JStr (toLocaleTimeString now)); ("pageId", JStr tabId);
        ("pageTitle", JStr (pageTitle tabLogs)); ("pageUrl", JStr (pageUrl tabLogs));
        ("flushSequence", JNat flushSequence);
        ("totalEntries", JNat (length (logs tabLogs)));
        ("entriesByType", jsonOfCounts (countEntryTypes (logs tabLogs)));
        ("entries", JArr (map jsonOfRecord (logs tabLogs)))].

(** The per-tab document of [saveAllConsoleLogs] ([formattedLogs] there). *)
Definition tabDocument (now : Z) (pageId : TabId) (tabData : TabLogs) : Json :=
  JObj [("timestamp", JStr (toLocaleTimeString now)); ("pageId", JStr pageId);
        ("pageTitle", JStr (pageTitle tabData)); ("pageUrl", JStr (pageUrl tabData));
        ("totalEntries", JNat (length (logs tabData)));
        ("entriesByType", jsonOfCounts (countEntryTypes (logs tabData)));
        ("entries", JArr (map jsonOfRecord (logs tabData)))].

(** ** FlushScheduler: [flushConsoleLogsForTab(tabId, forceSave)] *)

(** The name of the flush file of a tab. The number in it is one more than
    [flushStats.totalConsoleLogsFlushed[tabId]], the running count of the
    tab's flushed records. *)
Definition consoleFlushPath (dir : Path) (tabId : TabId) (tabLogs : TabLogs)
    (tabFlushCount : nat) : Path :=
  let safeTitle :=
    safeTitleOf (str_or (pageTitle tabLogs) ("Tab_" +:+ substring0 6 tabId)) in
  path_join (path_join dir "console_flushes")
    ("console_" +:+ safeTitle +:+ "_" +:+ substring0 6 tabId +:+ "_flush_"
     +:+ pretty (tabFlushCount + 1) +:+ ".json").

(** [flushStats.totalConsoleLogsFlushed[tabId] || 0]. *)
Definition tabFlushCountOf (tabId : TabId) (s : State) : nat :=
  default 0 (totalConsoleLogsFlushed (flushStats s) !! tabId).

(** The record of a tab after a flush: [logs] emptied, the path pushed on
    [flushFiles] (created when absent). *)
Definition afterFlush (tabLogs : TabLogs) (flushFilePath : Path) : TabLogs :=
  mkTabLogs (pageTitle tabLogs) (pageUrl tabLogs) [] (lastActivity tabLogs)
    (Some (default [] (flushFiles tabLogs) ++ [flushFilePath])).

Definition flushConsoleLogsForTab (env : Env) (tabId : TabId)
    (forceSave : bool) (s : State) : State :=
  match sessionDir s, aget tabId (consoleLogs s) with
  | Some dir, Some tabLogs =>
      if bool_decide (length (logs tabLogs) < maxLogsPerTabBeforeFlush)
         && negb forceSave
      then s
      else
        let flushDir := path_join dir "console_flushes" in
        match ensureDir env flushDir (disk s) with
        | (false, d) => caught (IOError flushDir) (set_disk d s)
        | (true, d) =>
            let tabFlushCount := tabFlushCountOf tabId s in
            let flushFilePath := consoleFlushPath dir tabId tabLogs tabFlushCount in
            let '(now, s1) := readClock env (set_disk d s) in
            let formattedLogs := flushDocument now tabId tabLogs (tabFlushCount + 1) in
            match attempt env (WriteFile flushFilePath formattedLogs) (disk s1) with
            | (false, d1) => caught (IOError flushFilePath) (set_disk d1 s1)
            | (true, d1) =>
                let '(now2, s2) := readClock env (set_disk d1 s1) in
                let fs := flushStats s2 in
                let fs' :=
                  mkFlushStats (networkEventFlushes fs) (totalNetworkEventsFlushed fs)
                    (perTabNetworkEventsFlushed fs)
                    (S (consoleLogFlushes fs))
                    (<[tabId := tabFlushCount + length (logs tabLogs)]>
                       (totalConsoleLogsFlushed fs))
                    now2 in
                set_consoleLogs
                  (aset tabId (afterFlush tabLogs flushFilePath) (consoleLogs s2))
                  (set_flushStats fs' s2)
            end
        end
  | _, _ => s
  end.

(** ** [performMemoryCheck(force)]

    Every awaited flush completes before the loop goes on; the report of
    the memory usage at the end is terminal output. *)
Definition checkNetworkTab (env : Env) (force : bool) (s : State)
    (tab : TabId * TabEvents) : State :=
  if bool_decide (maxEventsBeforeFlush ≤ events_length tab.2) || force
  then flushNetworkEventsForTab env tab.1 force s
  else s.

Definition checkConsoleTab (env : Env) (force : bool) (s : State)
    (tabId : TabId) : State :=
  match aget tabId (consoleLogs s) with
  | Some tabData =>
      if bool_decide (maxLogsPerTabBeforeFlush ≤ length (logs tabData)) || force
      then flushConsoleLogsForTab env tabId force s
      else s
  | None => s
  end.

Definition performMemoryCheck (env : Env) (force : bool) (s : State) : State :=
  let s1 := fold_left (checkNetworkTab env force) (networkEvents s) s in
  fold_left (checkConsoleTab env force) (map fst (consoleLogs s1)) s1.

(** ** Serializer for network batches: [createHarFile(entries, pages)] *)

Definition jsonOfPairs (l : list (string * string)) : Json :=
  JArr (map (fun '(n, v) => JObj [("name", JStr n); ("value", JStr v)]) l).

Definition jsonOfResponse (r : ResponseData) : Json :=
  JObj [("status", JNum (status r)); ("statusText", JStr (statusText r));
        ("httpVersion", JStr "HTTP/1.1"); ("headers", jsonOfPairs (resp_headers r));
        ("cookies", JArr []);
        ("content", JObj [("size", JNum (content_size r)); ("mimeType", JStr (mimeType r))]);
        ("redirectURL", JStr ""); ("headersSize", JNum (-1)); ("bodySize", JNum (-1));
        ("_transferSize", JNum 0); ("_error", JNull)].

Definition jsonOfRequest (e : Entry) : Json :=
  JObj [("method", JStr (req_method e)); ("url", JStr (req_url e));
        ("httpVersion", JStr "HTTP/1.1"); ("headers", jsonOfPairs (req_headers e));
        ("queryString", jsonOfPairs (req_queryString e)); ("cookies", JArr []);
        ("headersSize", JNum (-1)); ("bodySize", JNum 0)].

(** One formatted entry. The constant timings of the request literal go
    through [x || 0] and [x || -1] unchanged. *)
Definition formatEntry (e : Entry) : Json :=
  JObj [("_initiator", JObj [("type", JStr "script")]);
        ("_priority", JStr "High");
        ("_resourceType", JStr (str_or (_resourceType e) "other"));
        ("cache", JObj []);
        ("connection", JStr "443");
        ("request", jsonOfRequest e);
        ("response", jsonOfResponse (response e));
        ("serverIPAddress", JStr (serverIPAddress e));
        ("startedDateTime", JNum (startedDateTime e));
        ("time", JNum (time e));
        ("timings",
          JObj [("blocked", JNum 0); ("dns", JNum (-1)); ("ssl", JNum (-1));
                ("connect", JNum (-1)); ("send", JNum 0); ("wait", JTenths (wait e));
                ("receive", JTenths (receive e)); ("_blocked_queueing", JNum 0)])].

Definition jsonOfPage (p : PageInfo) : Json :=
  JObj [("startedDateTime", JNum (p_startedDateTime p)); ("id", JStr (p_id p));
        ("title", JStr (p_title p));
        ("pageTimings", JObj [("onContentLoad", JNum (-1)); ("onLoad", JNum (-1))])].

(** The first argument as [createHarFile] sees it: an array is taken as it
    is, anything that is neither an array nor a [Map] (a [BoundedArray],
    then) counts as the empty array. *)
Definition eventsArrayOf (entries : TabEvents) : list Ref :=
  match entries with
  | Plain items => items
  | Bounded _ => []
  end.

(** The objects behind a list of references. *)
Definition deref (objs : gmap Ref Entry) (refs : list Ref) : list Entry :=
  omap (fun r => objs !! r) refs.

(** The batches of [batchSize] entries are formatted one after the other
    and concatenated, which is a map over the whole array. *)
Definition createHarFile (objs : gmap Ref Entry) (eventsArray : list Ref)
    (pgs : list PageInfo) : Json :=
  JObj [("log",
    JObj [("version", JStr "1.2");
          ("creator", JObj [("name", JStr "WebInspector"); ("version", JStr "537.36")]);
          ("pages", JArr (map jsonOfPage pgs));
          ("entries", JArr (map formatEntry (deref objs eventsArray)))])].

(** ** [saveFinalHarFiles] *)

(** The file of one tab in [final_har_files]. *)
Definition finalHarPath (harDir : Path) (tabId : TabId) (s : State) : Path :=
  path_join harDir (getCleanFilenameFromUrl (baseUrlOf tabId s) tabId +:+ ".har").

(** One iteration of the loop over [networkEvents.entries()]. An unknown
    tab gets a default page record stamped with the current time. *)
Definition saveTabHar (env : Env) (harDir : Path) (s : State)
    (tab : TabId * TabEvents) : State :=
  let '(tabId, tabEvents) := tab in
  if bool_decide (events_length tabEvents = 0) then s
  else
    let '(tabInfo, s1) :=
      match aget tabId (pages s) with
      | Some p => (p, s)
      | None =>
          let '(now, s') := readClock env s in
          (mkPageInfo tabId "Unknown Tab" now "unknown" false None, s')
      end in
    let harData := createHarFile (objects s1) (eventsArrayOf tabEvents) [tabInfo] in
    writeAndReport env (finalHarPath harDir tabId s1) harData s1.

(** What the combined file takes from one tab: the array itself, or the
    [array] property of a [BoundedArray]. *)
Definition allItemsOf (events : TabEvents) : list Ref :=
  match events with
  | Plain items => items
  | Bounded b => BoundedArray.array b
  end.

Definition combinedHarPath (dir : Path) : Path := path_join dir "network_all.har".

Definition saveFinalHarFiles (env : Env) (s : State) : State :=
  match sessionDir s with
  | None => caught (TypeError "path.join") s
  | Some dir =>
      let harDir0 := path_join dir "final_har_files" in
      let '(harDir, s0) :=
        if existsSync harDir0 (disk s) then (harDir0, s)
        else
          match attempt env (Mkdir harDir0) (disk s) with
          | (true, d) => (harDir0, set_disk d s)
          | (false, d) => (dir, caught (IOError harDir0) (set_disk d s))
          end in
      let s1 := fold_left (saveTabHar env harDir) (networkEvents s0) s0 in
      let allEvents := flat_map (fun tab => allItemsOf tab.2) (networkEvents s1) in
      let combinedHarData := createHarFile (objects s1) allEvents (map snd (pages s1)) in
      writeAndReport env (combinedHarPath dir) combinedHarData s1
  end.

(** ** [saveAllConsoleLogs(sessionDir, allTabsLogs)] *)

Definition finalConsolePath (logsDir : Path) (index : nat) (pageId : TabId)
    (tabData : TabLogs) : Path :=
  let safeTitle := safeTitleOf (str_or (pageTitle tabData) ("Tab" +:+ pretty (index + 1))) in
  path_join logsDir ("console_" +:+ safeTitle +:+ "_" +:+ substring0 6 pageId +:+ ".json").

(** One iteration of the [forEach]; the index counts every tab, skipped
    or not. *)
Definition saveTabLogs (env : Env) (logsDir : Path) (s : State)
    (it : nat * (TabId * TabLogs)) : State :=
  let '(index, (pageId, tabData)) := it in
  if bool_decide (length (logs tabData) = 0) then s
  else
    let '(now, s1) := readClock env s in
    writeAndReport env (finalConsolePath logsDir index pageId tabData)
      (tabDocument now pageId tabData) s1.

Definition jsonOfSummary (tab : TabId * TabLogs) : Json :=
  JObj [("pageId", JStr tab.1); ("pageTitle", JStr (pageTitle tab.2));
        ("pageUrl", JStr (pageUrl tab.2)); ("logCount", JNat (length (logs tab.2)))].

(** [{ ...data, logs: data.logs.slice(0, 100), logCount, truncated }]. *)
Definition jsonOfLimited (tab : TabId * TabLogs) : string * Json :=
  let data := tab.2 in
  (tab.1,
   JObj ([("pageTitle", JStr (pageTitle data)); ("pageUrl", JStr (pageUrl data));
          ("logs", JArr (map jsonOfRecord (take 100 (logs data))));
          ("lastActivity", JNum (lastActivity data))]
         ++ match flushFiles data with
            | Some fl => [("flushFiles", JArr (map JStr fl))]
            | None => []
            end
         ++ [("logCount", JNat (length (logs data)));
             ("truncated", JBool (bool_decide (100 < length (logs data))))])).

Definition nonEmptyTabs (allTabsLogs : list (TabId * TabLogs)) : list (TabId * TabLogs) :=
  filter (fun tab => length (logs tab.2) ≠ 0) allTabsLogs.

Definition combinedLogDocument (now : Z) (allTabsLogs : list (TabId * TabLogs)) : Json :=
  let tabSummaries := nonEmptyTabs allTabsLogs in
  JObj [("timestamp", JStr (toLocaleTimeString now));
        ("totalTabs", JNat (length tabSummaries));
        ("tabs", JArr (map jsonOfSummary tabSummaries));
        ("totalEntries", JNat (sum_list (map (fun tab => length (logs tab.2)) tabSummaries)));
        ("tabLogs", JObj (map jsonOfLimited allTabsLogs))].

Definition combinedLogPath (dir : Path) : Path := path_join dir "console_all.json".

(** With the data the program holds nothing in the body throws, so the
    backup summary of the [catch] block is never written. *)
Definition saveAllConsoleLogs (env : Env) (s : State) : State :=
  match sessionDir s with
  | None => caught (TypeError "path.join") s
  | Some dir =>
      let allTabsLogs := consoleLogs s in
      let consoleDir := path_join dir "console_logs" in
      let hasMultipleTabs := bool_decide (1 < length allTabsLogs) in
      let '(logsDir, s0) :=
        if hasMultipleTabs && negb (existsSync consoleDir (disk s)) then
          match attempt env (Mkdir consoleDir) (disk s) with
          | (true, d) => (consoleDir, set_disk d s)
          | (false, d) => (dir, caught (IOError consoleDir) (set_disk d s))
          end
        else (if existsSync consoleDir (disk s) then consoleDir else dir, s) in
      let s1 := fold_left (saveTabLogs env logsDir) (imap pair allTabsLogs) s0 in
      let '(now, s2) := readClock env s1 in
      writeAndReport env (combinedLogPath dir) (combinedLogDocument now allTabsLogs) s2
  end.

(** ** Ingest: the handlers installed by [setupPageMonitoring]

    What the browser library hands to a handler is the event record. The
    calls into that library are taken to succeed, except in the
    ["console"] handler, whose [catch] block is a step of its own. *)

(** [setupPageMonitoring(page)] up to the installation of the handlers. *)
Definition setupPageMonitoring (env : Env) (pageId : TabId) (pageUrl0 pageTitle0 : string)
    (s : State) : State :=
  let s1 := trackTabBaseUrl env pageId pageUrl0 s in
  let ps := progressStats s1 in
  let s2 :=
    set_progressStats
      (mkProgressStats (ps_networkEvents ps) (ps_consoleLogs ps) (ps_errorLogs ps)
         (ps_warningLogs ps) (S (ps_activeTabs ps))) s1 in
  let '(now, s3) := readClock env s2 in
  let s4 :=
    set_consoleLogs
      (aset pageId (mkTabLogs pageTitle0 pageUrl0 [] now None) (consoleLogs s3)) s3 in
  let s5 := (initTabNetworkEvents pageId s4).1 in
  let '(now2, s6) := readClock env s5 in
  set_pages (aset pageId (mkPageInfo pageId pageTitle0 now2 pageUrl0 false None) (pages s6)) s6.

(** A request as the ["request"] handler reads it: the tab it belongs to,
    the URL of its frame when that is the main frame, and the fields of
    the entry. *)
Record RequestEvent : Type := mkRequestEvent {
  rq_pageId : TabId;
  rq_mainFrameUrl : option Url;
  rq_resourceType : string;
  rq_method : string;
  rq_url : Url;
  rq_headers : list (string * string);
  rq_queryString : list (string * string)
}.

(** [tabEvents.push(entry)] on either shape. *)
Definition events_push (te : TabEvents) (r : Ref) : TabEvents :=
  match te with
  | Bounded b => Bounded (BoundedArray.push b r).1
  | Plain items => Plain (items ++ [r])
  end.

(** [tabEvents[tabEvents.length - 1]]: the last element of an array; a
    [BoundedArray] has no indexed properties, so the expression is
    [undefined] ([None]) for it. *)
Definition events_last (te : TabEvents) : option Ref :=
  match te with
  | Bounded _ => None
  | Plain items => last items
  end.

(** The ["request"] handler. The new entry object is stored under the
    fresh reference [uniqueRequestId]. *)
Definition onRequest (env : Env) (rq : RequestEvent) (s : State) : State :=
  let pageId := rq_pageId rq in
  let s1 :=
    match rq_mainFrameUrl rq with
    | Some url => trackTabBaseUrl env pageId url s
    | None => s
    end in
  let id := S (uniqueRequestId s1) in
  let s2 := set_uniqueRequestId id s1 in
  let '(startedDateTime, s3) := readClock env s2 in
  let '(s4, tabEvents) := initTabNetworkEvents pageId s3 in
  let '(timestamp, s5) := readClock env s4 in
  let entry :=
    mkEntry (pretty id) (rq_resourceType rq) pageId startedDateTime 0
      (rq_method rq) (rq_url rq) (rq_headers rq) (rq_queryString rq)
      emptyResponse 0 0 "" timestamp in
  let tabEvents' := events_push tabEvents id in
  let s6 :=
    set_networkEvents (aset pageId tabEvents' (networkEvents s5))
      (set_objects (<[id := entry]> (objects s5)) s5) in
  let urlMap := default ∅ (requestUrlMaps s6 !! pageId) in
  let s7 :=
    set_requestUrlMaps
      (<[pageId := <[rq_url rq := events_last tabEvents']> urlMap]> (requestUrlMaps s6)) s6 in
  let ps := progressStats s7 in
  let n := S (ps_networkEvents ps) in
  let s8 :=
    set_progressStats
      (mkProgressStats n (ps_consoleLogs ps) (ps_errorLogs ps) (ps_warningLogs ps)
         (ps_activeTabs ps)) s7 in
  if bool_decide (n mod batchSize = 0)
     && bool_decide (maxEventsBeforeFlush ≤ events_length tabEvents')
  then flushNetworkEventsForTab env pageId false s8
  else s8.

(** A response as the ["response"] handler reads it. *)
Record ResponseEvent : Type := mkResponseEvent {
  rs_pageId : TabId;
  rs_url : Url;
  rs_status : Z;
  rs_statusText : string;
  rs_headers : list (string * string);
  rs_remoteIp : option string
}.

(** [respHeaders["content-type"] || ""]. *)
Definition contentTypeOf (headers : list (string * string)) : string :=
  default "" (aget "content-type" headers).

(** The entry the pending-match index holds for the URL, when it is an
    object: [urlMap ? urlMap.get(url) : null], tested by [if (entry)]. *)
Definition pendingEntry (pageId : TabId) (url : Url) (s : State) : option Ref :=
  match requestUrlMaps s !! pageId with
  | Some urlMap =>
      match urlMap !! url with
      | Some (Some r) => Some r
      | _ => None
      end
  | None => None
  end.

(** The update of a matched entry. *)
Definition completeEntry (now : Z) (rs : ResponseEvent) (e : Entry) : Entry :=
  let duration := (now - _timestamp e)%Z in
  mkEntry (_requestId e) (_resourceType e) (pageref e) (startedDateTime e)
    duration (req_method e) (req_url e) (req_headers e) (req_queryString e)
    (mkResponse (rs_status rs) (rs_statusText rs) (rs_headers rs) (-1)
       (contentTypeOf (rs_headers rs)))
    (8 * duration) (2 * duration)
    (match rs_remoteIp rs with
     | Some ip => if String.eqb ip "" then serverIPAddress e else ip
     | None => serverIPAddress e
     end)
    (_timestamp e).

(** The ["response"] handler. *)
Definition onResponse (env : Env) (rs : ResponseEvent) (s : State) : State :=
  let pageId := rs_pageId rs in
  match aget pageId (networkEvents s) with
  | None => s
  | Some _ =>
      match pendingEntry pageId (rs_url rs) s with
      | None => s
      | Some r =>
          match objects s !! r with
          | None => s
          | Some entry =>
              let '(now, s1) := readClock env s in
              let urlMap := default ∅ (requestUrlMaps s1 !! pageId) in
              set_requestUrlMaps
                (<[pageId := delete (rs_url rs) urlMap]> (requestUrlMaps s1))
                (set_objects (<[r := completeEntry now rs entry]> (objects s1)) s1)
          end
      end
  end.

(** The ["console"] handler, up to its first [await]: the handler takes
    the [timestamp], counts the message and is suspended on the evaluation
    of the arguments. *)
Definition onConsoleStart (env : Env) (ce : ConsoleEvent) (s : State) : State :=
  let '(timestamp, s1) := readClock env s in
  let ps := progressStats s1 in
  let ps' :=
    mkProgressStats (ps_networkEvents ps) (S (ps_consoleLogs ps))
      (if String.eqb (ce_type ce) "error" then S (ps_errorLogs ps) else ps_errorLogs ps)
      (if String.eqb (ce_type ce) "error" then ps_warningLogs ps
       else if String.eqb (ce_type ce) "warning" then S (ps_warningLogs ps)
       else ps_warningLogs ps)
      (ps_activeTabs ps) in
  set_pendingConsole
    (pendingConsole s1 ++ [mkPendingConsole (toLocaleTimeString timestamp) ce])
    (set_progressStats ps' s1).

(** The ["console"] handler from its last [await] on, for the suspended
    message number [i]: the record of the tab takes the current title and
    URL, the message is stored, and the tab is flushed when it has reached
    the threshold. Between the awaits of the handler only its local
    variables change. The handler compares the current title and URL with
    the variables of its closure, which hold what the tab's record holds;
    the record stands for them here, and they are empty for a tab without
    record. *)
Definition onConsoleStore (env : Env) (i : nat) (s : State) : State :=
  match pendingConsole s !! i with
  | None => s
  | Some pc =>
      let ce := pc_event pc in
      let pageId := str_or (ce_pageId ce) "unknown" in
      let s1 := set_pendingConsole (delete i (pendingConsole s)) s in
      let '(now, s3) := readClock env s1 in
      let tabLogs :=
        match aget pageId (consoleLogs s3) with
        | Some tl =>
            let '(url, title) := default (pageUrl tl, pageTitle tl) (ce_page ce) in
            mkTabLogs title url (logs tl) now (flushFiles tl)
        | None =>
            mkTabLogs "Unknown Tab" (str_or (default "" (fst <$> ce_page ce)) "unknown")
              [] now None
        end in
      let record :=
        mkConsoleRecord (pc_timestamp pc) (ce_type ce) (ce_text ce)
          (MessageDetail (ce_args ce) (ce_stackTrace ce)) in
      let tabLogs' :=
        mkTabLogs (pageTitle tabLogs) (pageUrl tabLogs) (logs tabLogs ++ [record])
          (lastActivity tabLogs) (flushFiles tabLogs) in
      let s4 := set_consoleLogs (aset pageId tabLogs' (consoleLogs s3)) s3 in
      if bool_decide (maxLogsPerTabBeforeFlush ≤ length (logs tabLogs'))
      then flushConsoleLogsForTab env pageId false s4
      else s4
  end.

(** [progressStats.consoleLogs++; progressStats.errorLogs++]. *)
Definition countError (s : State) : State :=
  let ps := progressStats s in
  set_progressStats
    (mkProgressStats (ps_networkEvents ps) (S (ps_consoleLogs ps)) (S (ps_errorLogs ps))
       (ps_warningLogs ps) (ps_activeTabs ps)) s.

(** [progressStats.consoleLogs++; progressStats.warningLogs++]. *)
Definition countWarning (s : State) : State :=
  let ps := progressStats s in
  set_progressStats
    (mkProgressStats (ps_networkEvents ps) (S (ps_consoleLogs ps)) (ps_errorLogs ps)
       (S (ps_warningLogs ps)) (ps_activeTabs ps)) s.

(** [consoleLogs[pageId].logs.push(record)]. *)
Definition pushRecord (pageId : TabId) (tabLogs : TabLogs) (record : ConsoleRecord)
    (s : State) : State :=
  set_consoleLogs
    (aset pageId
       (mkTabLogs (pageTitle tabLogs) (pageUrl tabLogs) (logs tabLogs ++ [record])
          (lastActivity tabLogs) (flushFiles tabLogs))
       (consoleLogs s)) s.

(** The [catch] block of the ["console"] handler, for a body that threw
    [err]: [errMessage] is [err.message], [errString] is [String(err)]. A
    record of type ["error"] is stored and counted. When the body threw
    after it had counted the message, the message stays among the
    suspended ones and is counted twice. *)
Definition onConsoleCatch (env : Env) (pageId : TabId) (errMessage errString : string)
    (s : State) : State :=
  let '(tabLogs, s1) :=
    match aget pageId (consoleLogs s) with
    | Some tl => (tl, s)
    | None =>
        let '(now, s') := readClock env s in
        (mkTabLogs "Error Tab" "unknown" [] now None, s')
    end in
  let '(timestamp, s2) := readClock env s1 in
  let record :=
    mkConsoleRecord (toLocaleTimeString timestamp) "error"
      ("[Failed to capture console message: " +:+ errMessage +:+ "]")
      (FailureDetail errString) in
  countError (pushRecord pageId tabLogs record s2).

(** The record of a tab as the ["pageerror"] and ["warning"] handlers find
    or create it, with its [lastActivity] set to the current time. *)
Definition touchedLogs (pageId : TabId) (now : Z) (s : State) : TabLogs :=
  match aget pageId (consoleLogs s) with
  | Some tl => mkTabLogs (pageTitle tl) (pageUrl tl) (logs tl) now (flushFiles tl)
  | None => mkTabLogs "Unknown" "unknown" [] now None
  end.

(** The ["pageerror"] handler: [text] is [String(error)]. *)
Definition onPageError (env : Env) (pageId : TabId) (text message stack : string)
    (s : State) : State :=
  let '(now, s1) := readClock env s in
  let tabLogs := touchedLogs pageId now s1 in
  let '(timestamp, s2) := readClock env s1 in
  let record :=
    mkConsoleRecord (toLocaleTimeString timestamp) "pageerror" text
      (PageErrorDetail message stack) in
  countError (pushRecord pageId tabLogs record s2).

(** The ["warning"] handler: [text] is [String(warning)]. *)
Definition onWarning (env : Env) (pageId : TabId) (text : string) (warning : Json)
    (s : State) : State :=
  let '(now, s1) := readClock env s in
  let tabLogs := touchedLogs pageId now s1 in
  let '(timestamp, s2) := readClock env s1 in
  let record :=
    mkConsoleRecord (toLocaleTimeString timestamp) "warning" text (WarningDetail warning) in
  countWarning (pushRecord pageId tabLogs record s2).

(** ** Aggregator: the sample of the periodic partial file

    The body of the [setInterval] callback from the loop of partial
    flushes on. The call of [performMemoryCheck] at its start is not
    awaited: it is a separate step of a run. *)

(** [const sampleSize = 1000]. *)
Definition sampleSize : nat := 1000.

(** [Math.min(tabEvents.length, Math.floor(sampleSize * (tabEvents.length /
    progressStats.networkEvents)))]. The quotient is taken first, in
    double precision; for a zero count of ingested events it is infinite
    and the minimum is the length. The product and the quotient are
    evaluated on binary numbers. *)
Definition tabSampleSize (len total : nat) : nat :=
  if bool_decide (total = 0) then len
  else len `min` N.to_nat (N.of_nat sampleSize * N.of_nat len / N.of_nat total).

(** [tabEvents.slice(startIndex)] with [startIndex = Math.max(0,
    tabEvents.length - tabSampleSize)]: defined for arrays; a
    [BoundedArray] has no [slice] method and the call raises a
    [TypeError]. *)
Definition events_slice_last (te : TabEvents) (n : nat) : Exn + list Ref :=
  match te with
  | Plain items => inr (drop (length items - n) items)
  | Bounded _ => inl (TypeError "tabEvents.slice is not a function")
  end.

(** The loop over [networkEvents.entries()] that fills [allEventsSample]. *)
Fixpoint sampleLoop (total : nat) (tabs : list (TabId * TabEvents))
    (allEventsSample : list Ref) : Exn + list Ref :=
  match tabs with
  | [] => inr allEventsSample
  | (_, tabEvents) :: rest =>
      if bool_decide (0 < events_length tabEvents) then
        let n := tabSampleSize (events_length tabEvents) total in
        if bool_decide (0 < n) then
          match events_slice_last tabEvents n with
          | inr part => sampleLoop total rest (allEventsSample ++ part)
          | inl e => inl e
          end
        else sampleLoop total rest allEventsSample
      else sampleLoop total rest allEventsSample
  end.

(** [if (allEventsSample.length > sampleSize) allEventsSample =
    allEventsSample.slice(-sampleSize)]. *)
Definition limitSample (l : list Ref) : list Ref :=
  if bool_decide (sampleSize < length l) then drop (length l - sampleSize) l else l.

(** The sample of a state. *)
Definition autoSaveSample (s : State) : Exn + list Ref :=
  match sampleLoop (ps_networkEvents (progressStats s)) (networkEvents s) [] with
  | inr l => inr (limitSample l)
  | inl e => inl e
  end.

(** [statusData]: [now] and [now2] are the two readings of the clock
    behind [timestamp] and [runningFor]. *)
Definition statusDocument (now now2 : Z) (startTime : Z) (s : State) : Json :=
  let ps := progressStats s in
  JObj [("timestamp", JStr (toLocaleTimeString now));
        ("runningFor", JStr (minutesText (now2 - startTime)));
        ("activeTabs", JNat (ps_activeTabs ps));
        ("currentNetworkEvents", JNat (length (networkEvents s)));
        ("totalNetworkEvents", JNat (ps_networkEvents ps));
        ("totalNetworkEventsFlushed", JNat (totalNetworkEventsFlushed (flushStats s)));
        ("currentConsoleLogs",
           JNat (sum_list (map (fun tab => length (logs tab.2)) (consoleLogs s))));
        ("totalConsoleLogs", JNat (ps_consoleLogs ps));
        ("totalConsoleLogsFlushed",
           JNat (map_fold (fun _ n acc => n + acc) 0 (totalConsoleLogsFlushed (flushStats s))));
        ("totalErrorLogs", JNat (ps_errorLogs ps));
        ("totalWarningLogs", JNat (ps_warningLogs ps));
        ("lastFlushTime", JStr (toLocaleTimeString (lastFlushTime (flushStats s))))].

Definition partialFlushTab (env : Env) (s : State) (tab : TabId * TabEvents) : State :=
  if bool_decide (partialFlushThreshold ≤ events_length tab.2)
  then flushNetworkEventsForTab env tab.1 false s
  else s.

(** The callback; [startTime] is the constant of the main function. The
    promise of the partial write is dropped, so a rejection is not
    reported. *)
Definition autoSaveTick (env : Env) (startTime : Z) (s : State) : State :=
  match sessionDir s with
  | None => s
  | Some dir =>
      let '(_, s0) := readClock env s in
      let s1 := fold_left (partialFlushTab env) (networkEvents s0) s0 in
      match autoSaveSample s1 with
      | inl e => caught e s1
      | inr allEventsSample =>
          let harData := createHarFile (objects s1) allEventsSample (map snd (pages s1)) in
          let partialHarFilePath := path_join dir "network_final.har" +:+ ".part" in
          let s2 := set_disk (writeCompressedFile env partialHarFilePath harData (disk s1)).2 s1 in
          let statusFilePath := path_join dir "recording_status.json" in
          let '(now, s3) := readClock env s2 in
          let '(now2, s4) := readClock env s3 in
          match attempt env (WriteFile statusFilePath (statusDocument now now2 startTime s4)) (disk s4) with
          | (true, d) => set_disk d s4
          | (false, d) => caught (IOError statusFilePath) (set_disk d s4)
          end
      end
  end.

(** ** RecoveryManager: the ["disconnected"] handler *)

Definition summaryPath (dir : Path) : Path := path_join dir "recording_summary.json".

(** [summaryData]: [endTime] and [now] are the two readings of the clock
    behind [sessionEndTime] and [sessionDuration]. *)
Definition summaryDocument (startTime endTime now : Z) (s : State) : Json :=
  let ps := progressStats s in
  JObj [("sessionStartTime", JStr (toLocaleTimeString startTime));
        ("sessionEndTime", JStr (toLocaleTimeString endTime));
        ("sessionDuration", JStr (minutesText (now - startTime)));
        ("totalTabs", JNat (length (consoleLogs s)));
        ("totalNetworkEvents", JNat (ps_networkEvents ps));
        ("totalConsoleLogs", JNat (ps_consoleLogs ps));
        ("totalErrorLogs", JNat (ps_errorLogs ps));
        ("totalWarningLogs", JNat (ps_warningLogs ps));
        ("flushStats",
           JObj [("networkFlushes", JNat (networkEventFlushes (flushStats s)));
                 ("consoleFlushes", JNat (consoleLogFlushes (flushStats s)))])].

(** The check of the session directory: when it does not exist an
    emergency directory named after the time is created and takes its
    place, or the application directory when that fails. *)
Definition ensureSessionDir (env : Env) (s : State) : State :=
  if match sessionDir s with
     | Some dir => existsSync dir (disk s)
     | None => false
     end
  then s
  else
    let '(now, s1) := readClock env s in
    let emergencyDir :=
      path_join (appDir env) ("emergency_" +:+ dashed (toLocaleTimeString now)) in
    match attempt env (Mkdir emergencyDir) (disk s1) with
    | (true, d) => set_sessionDir (Some emergencyDir) (set_disk d s1)
    | (false, d) =>
        set_sessionDir (Some (appDir env)) (caught (IOError emergencyDir) (set_disk d s1))
    end.

(** The last step: the session summary. *)
Definition writeSummary (env : Env) (startTime : Z) (s : State) : State :=
  match sessionDir s with
  | None => caught (TypeError "path.join") s
  | Some dir =>
      let '(endTime, s1) := readClock env s in
      let '(now, s2) := readClock env s1 in
      let summaryData := summaryDocument startTime endTime now s2 in
      match attempt env (WriteFile (summaryPath dir) summaryData) (disk s2) with
      | (true, d) => set_disk d s2
      | (false, d) => caught (IOError (summaryPath dir)) (set_disk d s2)
      end
  end.

(** The handler: forced flush of everything, final HAR files, final
    console logs, summary; each step in its own [try]. The call of
    [saveAllConsoleLogs] is not awaited, but every write it makes is
    synchronous and is done when the call returns. *)
Definition onDisconnected (env : Env) (startTime : Z) (s : State) : State :=
  let s0 := ensureSessionDir env s in
  let s1 := performMemoryCheck env true s0 in
  let s2 := saveFinalHarFiles env s1 in
  let s3 := saveAllConsoleLogs env s2 in
  writeSummary env startTime s3.

(** ** Runs of the pipeline

    The steps a session is made of. The flushes that [performMemoryCheck]
    awaits one after the other may be interleaved with other handlers, so
    the single flushes are steps as well. A console message takes two
    steps, its arrival ([EvConsole]) and the resumption of its handler
    ([EvConsoleStored], for the suspended message of that number); any
    other step may come in between. *)
Inductive Event : Type :=
| EvSetupPage (pageId : TabId) (url title : string)
| EvRequest (rq : RequestEvent)
| EvResponse (rs : ResponseEvent)
| EvConsole (ce : ConsoleEvent)
| EvConsoleStored (i : nat)
| EvConsoleCatch (pageId : TabId) (errMessage errString : string)
| EvPageError (pageId : TabId) (text message stack : string)
| EvWarning (pageId : TabId) (text : string) (warning : Json)
| EvFlushNetwork (tabId : TabId) (force : bool)
| EvFlushConsole (tabId : TabId) (force : bool)
| EvMemoryCheck (force : bool)
| EvAutoSave
| EvSaveFinalHarFiles
| EvSaveAllConsoleLogs
| EvDisconnected.

Definition step (env : Env) (startTime : Z) (s : State) (ev : Event) : State :=
  match ev with
  | EvSetupPage pageId url title => setupPageMonitoring env pageId url title s
  | EvRequest rq => onRequest env rq s
  | EvResponse rs => onResponse env rs s
  | EvConsole ce => onConsoleStart env ce s
  | EvConsoleStored i => onConsoleStore env i s
  | EvConsoleCatch pageId errMessage errString =>
      onConsoleCatch env pageId errMessage errString s
  | EvPageError pageId text message stack => onPageError env pageId text message stack s
  | EvWarning pageId text warning => onWarning env pageId text warning s
  | EvFlushNetwork tabId force => flushNetworkEventsForTab env tabId force s
  | EvFlushConsole tabId force => flushConsoleLogsForTab env tabId force s
  | EvMemoryCheck force => performMemoryCheck env force s
  | EvAutoSave => autoSaveTick env startTime s
  | EvSaveFinalHarFiles => saveFinalHarFiles env s
  | EvSaveAllConsoleLogs => saveAllConsoleLogs env s
  | EvDisconnected => onDisconnected env startTime s
  end.

Definition run (env : Env) (startTime : Z) (s : State) (evs : list Event) : State :=
  fold_left (step env startTime) evs s.

(** ** Vocabulary of the properties *)

(** The types that have a key of their own in [entriesByType], besides
    [other]. *)
Definition knownTypes : list string := ["log"; "info"; "warning"; "error"; "debug"].

(** The number of records of a given type, and of records of none of the
    known types. *)
Definition countOfType (k : string) (records : list ConsoleRecord) : nat :=
  length (filter (fun r => type r = k) records).

Definition countOfOther (records : list ConsoleRecord) : nat :=
  length (filter (fun r => type r ∉ knownTypes) records).

(** The breakdown a batch of records should produce. *)
Definition expectedBreakdown (records : list ConsoleRecord) : Json :=
  JObj [("log", JNat (countOfType "log" records));
        ("info", JNat (countOfType "info" records));
        ("warning", JNat (countOfType "warning" records));
        ("error", JNat (countOfType "error" records));
        ("debug", JNat (countOfType "debug" records));
        ("other", JNat (countOfOther records))].

(** The attempts on the file system made between two states. *)
Definition newAttempts (s s' : State) : list Attempt :=
  drop (length (history (disk s))) (history (disk s')).

(** A file was created (or overwritten) at [p] between two states. *)
Definition fileWritten (s s' : State) (p : Path) : Prop :=
  ∃ data, mkAttempt (WriteFile p data) true ∈ newAttempts s s'.

(** No write of any kind was attempted between two states. *)
Definition isWrite (a : Attempt) : bool :=
  match at_op a with
  | Mkdir _ => false
  | WriteFile _ _ | WriteStream _ _ => true
  end.

Definition noWriteAttempted (s s' : State) : Prop :=
  Forall (fun a => isWrite a = false) (newAttempts s s').

(** ** Sample environments and states, used by the examples *)

(** A file system on which every attempt succeeds, a clock that advances
    by one millisecond per reading, no URL parsing. *)
Definition okEnv : Env :=
  mkEnv (fun _ _ => true) (fun n => Z.of_nat n) (fun _ => None) "/app".


(** A disk that holds the session directory [/s] and nothing else. *)
Definition sessionDisk : Disk := mkDisk {["/s"]} [].

Definition startState : State := initialState "/s" sessionDisk 0.

Definition sampleRecord (ty : string) : ConsoleRecord :=
  mkConsoleRecord "12:00:00 AM" ty "message" (MessageDetail [] []).

Definition sampleRequest (pageId : TabId) (url : Url) : RequestEvent :=
  mkRequestEvent pageId None "xhr" "GET" url [] [].

Definition sampleResponse (pageId : TabId) (url : Url) : ResponseEvent :=
  mkResponseEvent pageId url 200 "OK" [] None.

(** Whether the compressed branch of [writeCompressedFile] is taken. *)
Definition compressionApplies (data : Json) : bool :=
  useCompression && typeof_object data && bool_decide (10 < Object_keys_length data).

(** The persistence strategies open to a write request, in the order in
    which they are tried: a gzip stream and then an uncompressed write of
    the path when compression applies; an uncompressed write of the path
    and then a raw write of the [.backup] path otherwise; the [.backup]
    path alone for [null]. *)
Definition strategies (filePath : Path) (data : Json) : list FsOp :=
  match data with
  | JNull => [WriteFile (filePath +:+ ".backup") data]
  | _ =>
      if compressionApplies data
      then [WriteStream (filePath +:+ ".gz") data; WriteFile filePath data]
      else [WriteFile filePath data; WriteFile (filePath +:+ ".backup") data]
  end.

(** An object with eleven keys, to which compression applies. *)
Definition elevenKeys : Json :=
  JObj (map (fun n => (pretty n, JNat n)) (seq 1 11)).

(** A file system on which only [.backup] files can be written. *)
Definition backupOnlyEnv : Env :=
  mkEnv (fun _ p => String.eqb p "/s/doc.json.backup") (fun n => Z.of_nat n)
    (fun _ => None) "/app".

(** The number of entries buffered over all tabs. *)
Definition totalBuffered (tabs : list (TabId * TabEvents)) : nat :=
  sum_list (map (fun tab => events_length tab.2) tabs).

(** Two tabs, and 1000 requests of tab A followed by 3000 of tab B. *)
Definition twoTabsSession : list Event :=
  [EvSetupPage "A" "http://a.example/" "A"; EvSetupPage "B" "http://b.example/" "B"]
  ++ replicate 1000 (EvRequest (sampleRequest "A" "http://a.example/x"))
  ++ replicate 3000 (EvRequest (sampleRequest "B" "http://b.example/y")).

Definition twoTabsState : State := run okEnv 0 startState twoTabsSession.

(** A buffer of [networkEvents] that is a [BoundedArray] of the capacity
    given by [initTabNetworkEvents] and holds no more than that. *)
Definition withinCapacity (te : TabEvents) : Prop :=
  match te with
  | Bounded b =>
      BoundedArray.maxSize b = bufferCapacity
      ∧ BoundedArray.length b ≤ BoundedArray.maxSize b
  | Plain _ => False
  end.

Definition buffersBounded (s : State) : Prop :=
  Forall (fun tab => withinCapacity tab.2) (networkEvents s).

(** The captured network data is the same in two states. *)
Definition sameCapture (s s' : State) : Prop :=
  uniqueRequestId s' = uniqueRequestId s
  ∧ networkEvents s' = networkEvents s
  ∧ pages s' = pages s
  ∧ requestUrlMaps s' = requestUrlMaps s
  ∧ progressStats s' = progressStats s
  ∧ tabUrlStats s' = tabUrlStats s
  ∧ objects s' = objects s.

(** The time a document carries: its [timestamp], or its
    [sessionEndTime] for the session summary; a time of day, as written by
    [toLocaleTimeString]. *)
Definition docTime (data : Json) : option string :=
  match get_field "timestamp" data with
  | Some (JStr t) => Some t
  | _ =>
      match get_field "sessionEndTime" data with
      | Some (JStr t) => Some t
      | _ => None
      end
  end.

Definition timeOf (a : Attempt) : option string :=
  match at_op a with
  | Mkdir _ => None
  | WriteFile _ data | WriteStream _ data => docTime data
  end.

(** The time a document carries is the time of day of a reading of the
    clock made before the [n]-th reading. *)
Definition docStampedBefore (env : Env) (n : nat) (data : Json) : Prop :=
  ∀ t, docTime data = Some t → ∃ k, k < n ∧ t = toLocaleTimeString (clock env k).

Definition stampedBefore (env : Env) (n : nat) (a : Attempt) : Prop :=
  ∀ t, timeOf a = Some t → ∃ k, k < n ∧ t = toLocaleTimeString (clock env k).

(** From [s] to [s'] the history of attempts was only extended, the clock
    was only read, and every document of a new attempt carries the time
    of day of a reading made before [s'] was reached. *)
Definition trail (env : Env) (s s' : State) : Prop :=
  history (disk s') = history (disk s) ++ newAttempts s s'
  ∧ tick s ≤ tick s'
  ∧ Forall (stampedBefore env (tick s')) (newAttempts s s').

(** A step that touches neither the captured network data nor the
    session directory. *)
Definition quiet (env : Env) (s s' : State) : Prop :=
  sameCapture s s' ∧ sessionDir s' = sessionDir s ∧ trail env s s'.










(* ===================================================================== *)
(** * Part I, continued. More of chrome.js                                *)
(* ===================================================================== *)

(** ** Vocabulary of the further properties *)

(** What a buffer of capacity [C] really retains: a push onto a full
    buffer shifts one element out and appends one, so a buffer of capacity
    0 still holds the last item. *)
Definition retained (C : nat) : nat := C `max` 1.

(** The characters of a string, first to last. *)
Fixpoint chars (s : string) : list ascii :=
  match s with
  | EmptyString => []
  | String c rest => c :: chars rest
  end.

(** A character that may stand in the base part of a file name made by
    [getCleanFilenameFromUrl]. *)
Definition allowedInName (c : ascii) : Prop := is_reserved_char c = false.

(** A character of a sanitized tab title: a letter, a digit or the
    underscore. *)
Definition titleChar (c : ascii) : Prop := is_alnum c = true ∨ c = underscore.

(** The names a host name (always in lower case) shares with the
    properties every object literal inherits. For these [urlCounts[baseUrl]]
    reads the inherited property instead of a count, and the counting of
    [trackTabBaseUrl] is not the one described by [urlCounts]. *)
Definition inheritedKeys : list string := ["constructor"; "__proto__"].

(** The statistics of a tab are consistent: every host counted was seen
    at least once and at most [maxCount] times, and the primary host is one
    that was seen [maxCount] times. *)
Definition urlStatOk (st : UrlStat) : Prop :=
  (∀ h n, urlCounts st !! h = Some n → 0 < n ∧ n ≤ maxCount st)
  ∧ ∃ h, primaryBaseUrl st = Some h ∧ urlCounts st !! h = Some (maxCount st).

Definition urlStatsOk (s : State) : Prop :=
  ∀ tabId st, tabUrlStats s !! tabId = Some st → urlStatOk st.

(** How often a host was seen in a tab. *)
Definition seenCount (tabId : TabId) (h : string) (s : State) : nat :=
  match tabUrlStats s !! tabId with
  | Some st => default 0 (urlCounts st !! h)
  | None => 0
  end.

(** ** More handlers of [setupPageMonitoring] and of the browser *)

(** The ["framenavigated"] handler of a page. For a navigation of the main
    frame to a URL that is neither empty nor [about:blank]: the title is
    read, the host of the URL is tracked, and the page record, when there
    is one, takes the new URL and title. *)
Definition onFrameNavigated (env : Env) (pageId : TabId) (isMainFrame : bool)
    (url title : string) (s : State) : State :=
  if isMainFrame && negb (String.eqb url "") && negb (String.eqb url "about:blank")
  then
    let s1 := trackTabBaseUrl env pageId url s in
    match aget pageId (pages s1) with
    | Some pageInfo =>
        set_pages
          (aset pageId
             (mkPageInfo (p_id pageInfo) title (p_startedDateTime pageInfo) url
                (closed pageInfo) (closedAt pageInfo))
             (pages s1)) s1
    | None => s1
    end
  else s.

(** The ["targetdestroyed"] handler of the browser. For a page target that
    has a page record: [activeTabs] goes down by one (not below zero) and
    the record is marked closed, with the time; the record stays in
    [pages]. *)
Definition onTargetDestroyed (env : Env) (isPage : bool) (targetId : TabId)
    (s : State) : State :=
  if isPage then
    match aget targetId (pages s) with
    | Some pageInfo =>
        let ps := progressStats s in
        let s1 :=
          set_progressStats
            (mkProgressStats (ps_networkEvents ps) (ps_consoleLogs ps) (ps_errorLogs ps)
               (ps_warningLogs ps) (Nat.pred (ps_activeTabs ps))) s in
        let '(now, s2) := readClock env s1 in
        set_pages
          (aset targetId
             (mkPageInfo (p_id pageInfo) (p_title pageInfo) (p_startedDateTime pageInfo)
                (p_url pageInfo) true (Some now))
             (pages s2)) s2
    | None => s
    end
  else s.

(** ** Sessions: runs with navigations and closed tabs *)

Inductive Action : Type :=
| Handled (ev : Event)
| FrameNavigated (pageId : TabId) (isMainFrame : bool) (url title : string)
| TargetDestroyed (isPage : bool) (targetId : TabId).

Definition act (env : Env) (startTime : Z) (s : State) (a : Action) : State :=
  match a with
  | Handled ev => step env startTime s ev
  | FrameNavigated pageId isMainFrame url title =>
      onFrameNavigated env pageId isMainFrame url title s
  | TargetDestroyed isPage targetId => onTargetDestroyed env isPage targetId s
  end.

Definition session (env : Env) (startTime : Z) (s : State) (acts : list Action) : State :=
  fold_left (act env startTime) acts s.

(** The requests and the console messages among the actions of a
    session. *)
Definition requestsOf (acts : list Action) : list RequestEvent :=
  omap (fun a => match a with Handled (EvRequest rq) => Some rq | _ => None end) acts.

Definition consoleEventsOf (acts : list Action) : list ConsoleEvent :=
  omap (fun a => match a with Handled (EvConsole ce) => Some ce | _ => None end) acts.

Definition setupsOf (acts : list Action) : list TabId :=
  omap (fun a => match a with Handled (EvSetupPage pageId _ _) => Some pageId | _ => None end)
    acts.


(** The network side of two states is the same: the request counter, the
    buffers, the pending-match index, the entry objects and the number of
    requests ingested. *)
Definition sameNetwork (s s' : State) : Prop :=
  uniqueRequestId s' = uniqueRequestId s
  ∧ networkEvents s' = networkEvents s
  ∧ requestUrlMaps s' = requestUrlMaps s
  ∧ objects s' = objects s
  ∧ ps_networkEvents (progressStats s') = ps_networkEvents (progressStats s).

(** The entry behind a reference buffered for a tab: it exists, was
    numbered by the request counter, belongs to the tab and still has the
    zero-valued response it started with. *)
Definition entryOk (s : State) (tabId : TabId) (r : Ref) : Prop :=
  0 < r ∧ r ≤ uniqueRequestId s
  ∧ ∃ e, objects s !! r = Some e
         ∧ pageref e = tabId ∧ _requestId e = pretty r
         ∧ response e = emptyResponse ∧ time e = 0%Z.

(** The invariant of the captured network data. *)
Definition captureOk (s : State) : Prop :=
  buffersBounded s
  ∧ ps_networkEvents (progressStats s) = uniqueRequestId s
  ∧ (∀ tabId te r, (tabId, te) ∈ networkEvents s → r ∈ allItemsOf te → entryOk s tabId r)
  ∧ (∀ pageId url, pendingEntry pageId url s = None).

(** The counters of a session: the request counter and the four counts
    of [progressStats] that the summary reports. *)
Definition countersOf (s : State) : nat * nat * nat * nat * nat :=
  (uniqueRequestId s, ps_networkEvents (progressStats s), ps_consoleLogs (progressStats s),
   ps_errorLogs (progressStats s), ps_warningLogs (progressStats s)).

(** The console messages of a given type among those of a session. *)
Definition consoleOfType (ty : string) (acts : list Action) : list ConsoleEvent :=
  filter (fun ce => ce_type ce = ty) (consoleEventsOf acts).

(** The tabs of the runs of the [catch] block of the console handler, of
    the page errors and of the warnings among the actions of a session. *)
Definition catchesOf (acts : list Action) : list TabId :=
  omap (fun a => match a with Handled (EvConsoleCatch pageId _ _) => Some pageId | _ => None end)
    acts.

Definition pageErrorsOf (acts : list Action) : list TabId :=
  omap (fun a => match a with Handled (EvPageError pageId _ _ _) => Some pageId | _ => None end)
    acts.

Definition warningsOf (acts : list Action) : list TabId :=
  omap (fun a => match a with Handled (EvWarning pageId _ _) => Some pageId | _ => None end)
    acts.

(** The [entries] of a HAR document. *)
Definition harEntries (data : Json) : option (list Json) :=
  match get_field "log" data with
  | Some log =>
      match get_field "entries" log with
      | Some (JArr l) => Some l
      | _ => None
      end
  | None => None
  end.

(** An attempt that writes a document carries a HAR document without
    entries. *)
Definition writesNoEntries (a : Attempt) : Prop :=
  match at_op a with
  | Mkdir _ => True
  | WriteFile _ data | WriteStream _ data => harEntries data = Some []
  end.

(** A session of one tab and two requests for the same URL, and the
    response to the first. *)
Definition oneTabSession : list Action :=
  [Handled (EvSetupPage "A" "http://a.example/" "A");
   Handled (EvRequest (sampleRequest "A" "http://a.example/x"));
   Handled (EvRequest (sampleRequest "A" "http://a.example/x"));
   Handled (EvConsole (mkConsoleEvent "A" "error" "message" [] [] None));
   Handled (EvConsoleStored 0);
   Handled (EvResponse (sampleResponse "A" "http://a.example/x"))].

(** The combined document [saveFinalHarFiles] builds in a state. *)
Definition combinedHarDocument (s : State) : Json :=
  createHarFile (objects s) (flat_map (fun tab => allItemsOf tab.2) (networkEvents s))
    (map snd (pages s)).

(** An entry of a HAR document that shows no response: status 0 and the
    other fields of the zero-valued response. *)
Definition showsNoResponse (entry : Json) : Prop :=
  get_field "response" entry = Some (jsonOfResponse emptyResponse).

(** A tab that the sampling loop of the periodic save takes entries
    from: it has buffered entries and its share of the sample is not
    zero. *)
Definition hasShare (total : nat) (tab : TabId * TabEvents) : bool :=
  bool_decide (0 < events_length tab.2)
  && bool_decide (0 < tabSampleSize (events_length tab.2) total).

(** The exception raised by [tabEvents.slice] on a [BoundedArray]. *)
Definition sliceError : Exn := TypeError "tabEvents.slice is not a function".

(** No file was written between two states: every attempt to write one
    failed. *)
Definition wroteNothing (s s' : State) : Prop :=
  Forall (fun a => isWrite a = true → at_ok a = false) (newAttempts s s').

(** The console records held in memory, over all tabs
    ([currentConsoleLogs] of the status file). *)
Definition bufferedConsole (s : State) : nat :=
  sum_list (map (fun tab => length (logs tab.2)) (consoleLogs s)).

(** The console records written to flush files, over all tabs
    ([totalConsoleLogsFlushed] of the status file). *)
Definition flushedConsole (s : State) : nat :=
  map_fold (fun _ n acc => n + acc) 0 (totalConsoleLogsFlushed (flushStats s)).

(** Every console message counted is in memory, in a flush file, or
    with a handler that has not stored it. *)
Definition consoleAccounted (s : State) : Prop :=
  ps_consoleLogs (progressStats s)
  = bufferedConsole s + flushedConsole s + length (pendingConsole s).

(** The tab a console message is stored under: [pageId || "unknown"]. *)
Definition consoleTab (ce : ConsoleEvent) : TabId := str_or (ce_pageId ce) "unknown".

(** Every page set-up of the session comes before the first console
    message, page error or warning of its tab; [seen] holds the tabs that
    have had one. *)
Fixpoint setupsComeFirst (seen : list TabId) (acts : list Action) : bool :=
  match acts with
  | [] => true
  | Handled (EvSetupPage pageId _ _) :: rest =>
      bool_decide (pageId ∉ seen) && setupsComeFirst seen rest
  | Handled (EvConsole ce) :: rest => setupsComeFirst (consoleTab ce :: seen) rest
  | Handled (EvConsoleCatch pageId _ _) :: rest
  | Handled (EvPageError pageId _ _ _) :: rest
  | Handled (EvWarning pageId _ _) :: rest => setupsComeFirst (pageId :: seen) rest
  | _ :: rest => setupsComeFirst seen rest
  end.

(** A file system that accepts everything. *)
Definition reliable (env : Env) : Prop := ∀ n p, io env n p = true.

(** The sum that the accounting of console records is about. *)
Definition consoleTotal (s : State) : nat := bufferedConsole s + flushedConsole s.

(** A step that handles no console message: the count of messages, the
    sum of buffered and flushed records and the suspended handlers are
    what they were, and a tab that holds records afterwards held records
    before. *)
Definition consoleKept (s s' : State) : Prop :=
  ps_consoleLogs (progressStats s') = ps_consoleLogs (progressStats s)
  ∧ consoleTotal s' = consoleTotal s
  ∧ pendingConsole s' = pendingConsole s
  ∧ ∀ tabId tl', aget tabId (consoleLogs s') = Some tl' → logs tl' ≠ [] →
      ∃ tl, aget tabId (consoleLogs s) = Some tl ∧ logs tl ≠ [].

(** A step that leaves the console side of the state alone. *)
Definition sameConsole (s s' : State) : Prop :=
  consoleLogs s' = consoleLogs s
  ∧ flushStats s' = flushStats s
  ∧ ps_consoleLogs (progressStats s') = ps_consoleLogs (progressStats s)
  ∧ pendingConsole s' = pendingConsole s.

(** Only the tabs of [seen] hold console records or have a suspended
    handler. *)
Definition recordsOnlyIn (seen : list TabId) (s : State) : Prop :=
  (∀ tabId tl, aget tabId (consoleLogs s) = Some tl → logs tl ≠ [] → tabId ∈ seen)
  ∧ Forall (fun pc => consoleTab (pc_event pc) ∈ seen) (pendingConsole s).

(** An attempt to write through the gzip stream. *)
Definition isStream (a : Attempt) : bool :=
  match at_op a with
  | WriteStream _ _ => true
  | _ => false
  end.

(** From [s] to [s'] the history of attempts was only extended, and by
    no gzip stream. *)
Definition extendsPlain (s s' : State) : Prop :=
  ∃ l, history (disk s') = history (disk s) ++ l ∧ Forall (fun a => isStream a = false) l.

(** The buffer a request of a tab is pushed on: the tab's buffer, or the
    new [BoundedArray] that [initTabNetworkEvents] creates for a tab
    without one. *)
Definition bufferOf (tabId : TabId) (s : State) : TabEvents :=
  default (Bounded (BoundedArray.new bufferCapacity)) (aget tabId (networkEvents s)).

(** The entry the request handler creates. *)
Definition newEntry (env : Env) (rq : RequestEvent) (s : State) : Entry :=
  mkEntry (pretty (S (uniqueRequestId s))) (rq_resourceType rq) (rq_pageId rq)
    (clock env (tick s)) 0 (rq_method rq) (rq_url rq) (rq_headers rq) (rq_queryString rq)
    emptyResponse 0 0 "" (clock env (S (tick s))).

(** The record of a closed page. *)
Definition closedPage (pageInfo : PageInfo) (now : Z) : PageInfo :=
  mkPageInfo (p_id pageInfo) (p_title pageInfo) (p_startedDateTime pageInfo)
    (p_url pageInfo) true (Some now).

(** ** [saveConsoleLogs(filePath, logs)]

    The function is written for an array of records. Its only caller, the
    emergency save of the main function, passes the object [consoleLogs]
    instead: that value has no [length] and no [forEach], so the counting
    pass raises a [TypeError] and the [catch] block writes the raw value to
    the backup path. Both kinds of argument are modelled. *)
Inductive LogsArgument : Type :=
| LogsArray (records : list ConsoleRecord)
| LogsObject (tabs : list (TabId * TabLogs)).

(** The document written for an empty array. *)
Definition noLogsDocument (now : Z) : Json :=
  JObj [("timestamp", JStr (toLocaleTimeString now)); ("totalEntries", JNat 0);
        ("message", JStr "No console logs were captured during this session");
        ("entries", JArr [])].

(** The document written for an array of records. *)
Definition logsDocument (now : Z) (records : list ConsoleRecord) : Json :=
  JObj [("timestamp", JStr (toLocaleTimeString now)); ("totalEntries", JNat (length records));
        ("entriesByType", jsonOfCounts (countEntryTypes records));
        ("entries", JArr (map jsonOfRecord records))].

(** [JSON.stringify] of a tab's record in [consoleLogs]. *)
Definition jsonOfTabLogs (data : TabLogs) : Json :=
  JObj ([("pageTitle", JStr (pageTitle data)); ("pageUrl", JStr (pageUrl data));
         ("logs", JArr (map jsonOfRecord (logs data)));
         ("lastActivity", JNum (lastActivity data))]
        ++ match flushFiles data with
           | Some fl => [("flushFiles", JArr (map JStr fl))]
           | None => []
           end).

(** [JSON.stringify(logs)], the raw value of the backup. *)
Definition rawLogs (arg : LogsArgument) : Json :=
  match arg with
  | LogsArray records => JArr (map jsonOfRecord records)
  | LogsObject tabs => JObj (map (fun tab => (tab.1, jsonOfTabLogs tab.2)) tabs)
  end.

(** The [catch] block: the error is reported and the raw value written to
    the backup path; a failure of that write is reported as well. *)
Definition saveConsoleLogsBackup (env : Env) (filePath : Path) (arg : LogsArgument)
    (e : Exn) (s : State) : State :=
  let s1 := caught e s in
  match attempt env (WriteFile (filePath +:+ ".backup") (rawLogs arg)) (disk s1) with
  | (true, d) => set_disk d s1
  | (false, d) => caught (IOError (filePath +:+ ".backup")) (set_disk d s1)
  end.

Definition saveConsoleLogs (env : Env) (filePath : Path) (arg : LogsArgument)
    (s : State) : State :=
  match arg with
  | LogsArray records =>
      let '(now, s1) := readClock env s in
      let doc :=
        if bool_decide (length records = 0) then noLogsDocument now
        else logsDocument now records in
      match attempt env (WriteFile filePath doc) (disk s1) with
      | (true, d) => set_disk d s1
      | (false, d) =>
          saveConsoleLogsBackup env filePath arg (IOError filePath) (set_disk d s1)
      end
  | LogsObject _ =>
      saveConsoleLogsBackup env filePath arg (TypeError "logs.forEach is not a function") s
  end.

(** ** [streamHarFile(entries, pages, outputStream)]

    What the function writes to the stream, write by write. The formatted
    entry is the empty object literal of the source (its fields are a
    comment there), so a batch is written as one text made of an empty
    object per entry, each followed by a comma or not. *)
Inductive Chunk : Type :=
| ChunkText (text : string)
| ChunkPages (pagesJson : Json)
| ChunkBatch (items : list (Json * bool)).

(** The three literal texts of the function. *)
Definition dq : string := String (Ascii.ascii_of_nat 34) EmptyString.

Definition harHeaderText : string :=
  "{" +:+ dq +:+ "log" +:+ dq +:+ ":{"
  +:+ dq +:+ "version" +:+ dq +:+ ":" +:+ dq +:+ "1.2" +:+ dq +:+ ","
  +:+ dq +:+ "creator" +:+ dq +:+ ":{"
  +:+ dq +:+ "name" +:+ dq +:+ ":" +:+ dq +:+ "WebInspector" +:+ dq +:+ ","
  +:+ dq +:+ "version" +:+ dq +:+ ":" +:+ dq +:+ "537.36" +:+ dq +:+ "},"
  +:+ dq +:+ "pages" +:+ dq +:+ ":".

Definition entriesOpenText : string := "," +:+ dq +:+ "entries" +:+ dq +:+ ":[".

Definition harCloseText : string := "]}".

(** [batch.map((entry, i) => JSON.stringify(formatted) + (isLastEntry ? ""
    : ","))], where [isLastEntry] holds for the last entry of the batch
    once all entries are processed. The flag of an item tells whether a
    comma follows it. *)
Definition streamBatch (batch : list Ref) (allProcessed : bool) : list (Json * bool) :=
  imap (fun i _ => (JObj [], negb (allProcessed && bool_decide (i = length batch - 1)))) batch.

(** [processNextBatch], rescheduled with [setImmediate] after every batch;
    [fuel] bounds the number of rounds. *)
Fixpoint processNextBatch (fuel : nat) (entriesArray : list Ref) (processed : nat)
    : option (list Chunk) :=
  match fuel with
  | 0 => None
  | S fuel' =>
      let totalEntries := length entriesArray in
      if bool_decide (totalEntries ≤ processed) then Some [ChunkText harCloseText]
      else
        let batch :=
          take ((processed + batchSize) `min` totalEntries - processed)
            (drop processed entriesArray) in
        let processed' := processed + length batch in
        match processNextBatch fuel' entriesArray processed' with
        | Some chunks =>
            Some (ChunkBatch (streamBatch batch (bool_decide (totalEntries ≤ processed')))
                    :: chunks)
        | None => None
        end
  end.

Definition streamHarFile (fuel : nat) (entries : TabEvents) (pgs : list PageInfo)
    : option (list Chunk) :=
  match processNextBatch fuel (eventsArrayOf entries) 0 with
  | Some chunks =>
      Some (ChunkText harHeaderText :: ChunkPages (JArr (map jsonOfPage pgs))
              :: ChunkText entriesOpenText :: chunks)
  | None => None
  end.

(** The literal texts among the writes, put together, and the brackets
    and braces a text leaves open: the pages and the entries are whole
    JSON values, and the literal texts have no bracket inside a string. *)
Definition literalText (chunks : list Chunk) : string :=
  foldr (fun c rest => match c with ChunkText t => t +:+ rest | _ => rest end)
        EmptyString chunks.

Fixpoint leftOpen (text : string) : Z :=
  match text with
  | EmptyString => 0
  | String c rest =>
      ((if bool_decide (c = "{"%char ∨ c = "["%char) then 1
        else if bool_decide (c = "}"%char ∨ c = "]"%char) then -1
        else 0) + leftOpen rest)%Z
  end.

(** The items of an array of [n] empty objects: a comma after each but
    the last. *)
Definition emptyObjects (n : nat) : list (Json * bool) :=
  replicate (n - 1) (JObj [], true) ++ (if bool_decide (n = 0) then [] else [(JObj [], false)]).

(** ** The final console files *)

(** An attempt that [saveAllConsoleLogs] makes before the combined file:
    the creation of a directory, or the write of the document of a tab
    that holds records, to the tab's path or to its backup path. *)
Definition tabLogAttempt (tabs : list (TabId * TabLogs)) (a : Attempt) : Prop :=
  match at_op a with
  | Mkdir _ => True
  | WriteFile p data =>
      ∃ index pageId tabData logsDir now,
        tabs !! index = Some (pageId, tabData)
        ∧ logs tabData ≠ []
        ∧ data = tabDocument now pageId tabData
        ∧ (p = finalConsolePath logsDir index pageId tabData
           ∨ p = finalConsolePath logsDir index pageId tabData +:+ ".backup")
  | WriteStream _ _ => False
  end.

(* ===================================================================== *)
(** * Part II. Properties                                                 *)
(* ===================================================================== *)

(** ** BoundedArray *)

Section BoundedArrayFacts.
Context {T : Type}.
Implicit Types (b : BoundedArray.t T) (x : T) (xs : list T).

Import BoundedArray.

Lemma push_maxSize b x : maxSize (push b x).1 = maxSize b.
Proof. unfold push. case_bool_decide; reflexivity. Qed.

Lemma push_returns_length b x : (push b x).2 = BoundedArray.length (push b x).1.
Proof. reflexivity. Qed.

Lemma push_array b x :
  array (push b x).1 =
    if bool_decide (maxSize b ≤ List.length (array b))
    then drop 1 (array b) ++ [x] else array b ++ [x].
Proof. unfold push. case_bool_decide; reflexivity. Qed.

(** A push never leaves the buffer above a positive capacity that it
    respected before. *)
Lemma push_bounded b x :
  0 < maxSize b → List.length (array b) ≤ maxSize b →
  List.length (array (push b x).1) ≤ maxSize b.
Proof.
  intros Hpos Hle. rewrite push_array.
  case_bool_decide; rewrite length_app; [rewrite length_drop|]; simpl; lia.
Qed.

(** The array after a push is the window of the last [maxSize] elements
    of the old contents followed by the new item. *)
Lemma push_window b x :
  0 < maxSize b → List.length (array b) ≤ maxSize b →
  array (push b x).1 =
    drop (List.length (array b ++ [x]) - maxSize b) (array b ++ [x]).
Proof.
  intros Hpos Hle. rewrite push_array, length_app. simpl.
  case_bool_decide as Hfull.
  - assert (List.length (array b) = maxSize b) as Heq by lia.
    replace (List.length (array b) + 1 - maxSize b) with 1 by lia.
    destruct (array b) as [|y l]; [simpl in Heq; lia|]. reflexivity.
  - replace (List.length (array b) + 1 - maxSize b) with 0 by lia.
    reflexivity.
Qed.

Lemma pushAll_cons b x xs :
  pushAll b (x :: xs) =
    ((pushAll (push b x).1 xs).1, (push b x).2 :: (pushAll (push b x).1 xs).2).
Proof.
  cbn [pushAll]. destruct (push b x) as [b1 n]. cbn [fst snd].
  destruct (pushAll b1 xs) as [b2 ns]. reflexivity.
Qed.

Lemma pushAll_maxSize b xs : maxSize (pushAll b xs).1 = maxSize b.
Proof.
  revert b. induction xs as [|x xs IH]; intros b; [reflexivity|].
  rewrite pushAll_cons. cbn [fst]. rewrite IH. apply push_maxSize.
Qed.

(** The window invariant, for any number of pushes. *)
Lemma pushAll_window b xs :
  0 < maxSize b → List.length (array b) ≤ maxSize b →
  array (pushAll b xs).1 =
    drop (List.length (array b ++ xs) - maxSize b) (array b ++ xs).
Proof.
  revert b. induction xs as [|x xs IH]; intros b Hpos Hle.
  - cbn [pushAll fst]. rewrite app_nil_r.
    replace (List.length (array b) - maxSize b) with 0 by lia. reflexivity.
  - rewrite pushAll_cons. cbn [fst].
    pose proof (push_maxSize b x) as Hm.
    pose proof (push_bounded b x Hpos Hle) as Hle1.
    rewrite IH by (rewrite Hm; assumption).
    rewrite Hm, push_window by assumption.
    set (l := array b ++ [x]).
    replace (array b ++ x :: xs) with (l ++ xs)
      by (subst l; rewrite <- app_assoc; reflexivity).
    rewrite !length_app, length_drop.
    destruct (decide (List.length l ≤ maxSize b)) as [Hs|Hs].
    + replace (List.length l - maxSize b) with 0 by lia.
      rewrite drop_0, Nat.sub_0_r. reflexivity.
    + rewrite <- (drop_app_le l xs (List.length l - maxSize b)) by lia.
      rewrite drop_drop. f_equal. lia.
Qed.

Lemma pushAll_returns b xs k :
  k < List.length xs →
  (pushAll b xs).2 !! k = Some (BoundedArray.length (pushAll b (take (S k) xs)).1).
Proof.
  revert b k. induction xs as [|x xs IH]; intros b k Hk; [simpl in Hk; lia|].
  rewrite pushAll_cons. cbn [snd]. destruct k as [|k].
  - rewrite firstn_cons, take_0, pushAll_cons. cbn [pushAll fst].
    cbn [lookup list_lookup]. rewrite push_returns_length. reflexivity.
  - simpl in Hk. rewrite firstn_cons, pushAll_cons. cbn [fst].
    rewrite lookup_cons_ne_0 by lia. cbn [Nat.pred].
    apply IH. lia.
Qed.

End BoundedArrayFacts.

(** C2. For every capacity [C > 0] and every sequence of more than [C]
    items pushed into a new bounded buffer: after all pushes the length of
    the buffer is [C], the retained elements are exactly the last [C] items
    pushed, in their insertion order, and each push returned the length of
    the buffer after that insertion. *)
Theorem C2_bounded_buffer_keeps_last
    {T : Type} (C : nat) (items : list T) :
  0 < C → C < length items →
  let result := BoundedArray.pushAll (BoundedArray.new C) items in
  BoundedArray.length result.1 = C
  ∧ BoundedArray.getItems result.1 = drop (length items - C) items
  ∧ length result.2 = length items
  ∧ ∀ k, k < length items →
      result.2 !! k =
        Some (BoundedArray.length
                (BoundedArray.pushAll (BoundedArray.new C) (take (S k) items)).1).
Proof.
  intros Hpos Hlen result.
  assert (BoundedArray.array result.1 = drop (length items - C) items) as Harr.
  { subst result. rewrite pushAll_window; simpl; try lia. reflexivity. }
  repeat split.
  - unfold BoundedArray.length. rewrite Harr, length_drop. lia.
  - exact Harr.
  - subst result. clear. generalize (@BoundedArray.new T C).
    induction items as [|x xs IH]; intros b; [reflexivity|].
    rewrite pushAll_cons. simpl. f_equal. apply IH.
  - intros k Hk. subst result. apply pushAll_returns. exact Hk.
Qed.

Lemma C2_witness :
  0 < 2 ∧ 2 < length [10; 20; 30; 40; 50]
  ∧ BoundedArray.length
      (BoundedArray.pushAll (BoundedArray.new 2) [10; 20; 30; 40; 50]).1 = 2
  ∧ BoundedArray.getItems
      (BoundedArray.pushAll (BoundedArray.new 2) [10; 20; 30; 40; 50]).1 = [40; 50].
Proof.
  split; [lia|]. split; [simpl; lia|].
  pose proof (C2_bounded_buffer_keeps_last 2 [10; 20; 30; 40; 50]
                ltac:(lia) ltac:(simpl; lia)) as H.
  cbv zeta in H. destruct H as (Hlen & Hitems & _ & _).
  split; [exact Hlen|exact Hitems].
Defined.

(** ** The breakdown of console records by type *)

Lemma countOfType_cons k r records :
  countOfType k (r :: records) =
    (if decide (type r = k) then 1 else 0) + countOfType k records.
Proof.
  unfold countOfType. rewrite filter_cons.
  destruct (decide (type r = k)); reflexivity.
Qed.

Lemma countOfOther_cons r records :
  countOfOther (r :: records) =
    (if decide (type r ∈ knownTypes) then 0 else 1) + countOfOther records.
Proof.
  unfold countOfOther. rewrite filter_cons.
  destruct (decide (type r ∉ knownTypes)) as [Hn|Hn];
    destruct (decide (type r ∈ knownTypes)) as [Hi|Hi]; try reflexivity; tauto.
Qed.

(** One record moves exactly one counter: its own when its type is one of
    the five known ones, [other] in every other case (the type ["other"]
    included). *)
Lemma countOne_spec a b c d e f r :
  countOne [("log", a); ("info", b); ("warning", c); ("error", d); ("debug", e);
            ("other", f)] r =
    [("log", a + (if decide (type r = "log") then 1 else 0));
     ("info", b + (if decide (type r = "info") then 1 else 0));
     ("warning", c + (if decide (type r = "warning") then 1 else 0));
     ("error", d + (if decide (type r = "error") then 1 else 0));
     ("debug", e + (if decide (type r = "debug") then 1 else 0));
     ("other", f + (if decide (type r ∈ knownTypes) then 0 else 1))].
Proof.
  unfold countOne, knownTypes.
  destruct (decide (type r = "log")) as [->|H1].
  { repeat case_decide; try congruence; try set_solver. cbn. repeat f_equal; lia. }
  destruct (decide (type r = "info")) as [->|H2].
  { repeat case_decide; try congruence; try set_solver. cbn. repeat f_equal; lia. }
  destruct (decide (type r = "warning")) as [->|H3].
  { repeat case_decide; try congruence; try set_solver. cbn. repeat f_equal; lia. }
  destruct (decide (type r = "error")) as [->|H4].
  { repeat case_decide; try congruence; try set_solver. cbn. repeat f_equal; lia. }
  destruct (decide (type r = "debug")) as [->|H5].
  { repeat case_decide; try congruence; try set_solver. cbn. repeat f_equal; lia. }
  case_decide as Hk; [set_solver|].
  cbn [hasOwnProperty increment].
  apply String.eqb_neq in H1, H2, H3, H4, H5. rewrite H1, H2, H3, H4, H5.
  destruct (String.eqb_spec (type r) "other") as [Heq|Hne].
  - cbn. rewrite !Nat.add_0_r. repeat f_equal; lia.
  - cbn. rewrite !Nat.add_0_r. repeat f_equal; lia.
Qed.

Lemma fold_countOne records a b c d e f :
  fold_left countOne records
    [("log", a); ("info", b); ("warning", c); ("error", d); ("debug", e); ("other", f)] =
    [("log", a + countOfType "log" records);
     ("info", b + countOfType "info" records);
     ("warning", c + countOfType "warning" records);
     ("error", d + countOfType "error" records);
     ("debug", e + countOfType "debug" records);
     ("other", f + countOfOther records)].
Proof.
  revert a b c d e f. induction records as [|r records IH]; intros a b c d e f.
  - cbn. rewrite !Nat.add_0_r. reflexivity.
  - cbn [fold_left]. rewrite countOne_spec, IH.
    rewrite !countOfType_cons, countOfOther_cons.
    rewrite !Nat.add_assoc. reflexivity.
Qed.

Lemma countEntryTypes_spec records :
  countEntryTypes records =
    [("log", countOfType "log" records);
     ("info", countOfType "info" records);
     ("warning", countOfType "warning" records);
     ("error", countOfType "error" records);
     ("debug", countOfType "debug" records);
     ("other", countOfOther records)].
Proof. unfold countEntryTypes, entriesByType0. apply fold_countOne. Qed.

(** Every record is counted exactly once. *)
Lemma counts_partition records :
  length records =
    countOfType "log" records + countOfType "info" records
    + countOfType "warning" records + countOfType "error" records
    + countOfType "debug" records + countOfOther records.
Proof.
  induction records as [|r records IH]; [reflexivity|].
  rewrite !countOfType_cons, countOfOther_cons. cbn [length]. rewrite IH.
  unfold knownTypes.
  repeat case_decide; try lia. all: try congruence. all: exfalso; set_solver.
Qed.

(** C9. The document of a console flush ([flushConsoleLogsForTab]) and the
    per-tab document of the final save ([saveAllConsoleLogs]) carry the
    total number of records and a breakdown by type over exactly the six
    keys log, info, warning, error, debug, other, in which every record of
    a known type is counted under its own key and every other record under
    [other]; every record is counted once. In particular a batch of five
    records, three of type error and two of type warning, yields
    {log:0, info:0, warning:2, error:3, debug:0, other:0}. *)
Theorem C9_console_breakdown
    (now : Z) (tabId : TabId) (tabLogs : TabLogs) (flushSequence : nat) :
  let records := logs tabLogs in
  let flushed := flushDocument now tabId tabLogs flushSequence in
  let saved := tabDocument now tabId tabLogs in
  get_field "totalEntries" flushed = Some (JNat (length records))
  ∧ get_field "entriesByType" flushed = Some (expectedBreakdown records)
  ∧ get_field "totalEntries" saved = Some (JNat (length records))
  ∧ get_field "entriesByType" saved = Some (expectedBreakdown records)
  ∧ length records =
      countOfType "log" records + countOfType "info" records
      + countOfType "warning" records + countOfType "error" records
      + countOfType "debug" records + countOfOther records
  ∧ (length records = 5 → countOfType "error" records = 3 →
     countOfType "warning" records = 2 →
     get_field "entriesByType" flushed =
       Some (JObj [("log", JNat 0); ("info", JNat 0); ("warning", JNat 2);
                   ("error", JNat 3); ("debug", JNat 0); ("other", JNat 0)])).
Proof.
  intros records flushed saved.
  assert (get_field "entriesByType" flushed = Some (expectedBreakdown records)) as Hf.
  { subst flushed. unfold flushDocument. cbn [get_field field String.eqb Ascii.eqb Bool.eqb].
    rewrite countEntryTypes_spec. reflexivity. }
  assert (get_field "entriesByType" saved = Some (expectedBreakdown records)) as Hs.
  { subst saved. unfold tabDocument. cbn [get_field field String.eqb Ascii.eqb Bool.eqb].
    rewrite countEntryTypes_spec. reflexivity. }
  pose proof (counts_partition records) as Hsum.
  split; [reflexivity|]. split; [exact Hf|]. split; [reflexivity|].
  split; [exact Hs|]. split; [exact Hsum|].
  intros H5 He Hw. rewrite Hf. unfold expectedBreakdown.
  rewrite He, Hw.
  replace (countOfType "log" records) with 0 by lia.
  replace (countOfType "info" records) with 0 by lia.
  replace (countOfType "debug" records) with 0 by lia.
  replace (countOfOther records) with 0 by lia.
  reflexivity.
Qed.

(** Three errors and two warnings, flushed for a tab ["B"]. *)
Lemma C9_witness :
  let r ty := mkConsoleRecord "12:00:00 AM" ty "message" (MessageDetail [] []) in
  let tabLogs :=
    mkTabLogs "B" "http://b.example/"
      [r "error"; r "warning"; r "error"; r "error"; r "warning"] 0 None in
  length (logs tabLogs) = 5
  ∧ countOfType "error" (logs tabLogs) = 3
  ∧ countOfType "warning" (logs tabLogs) = 2
  ∧ get_field "entriesByType" (flushDocument 0 "B" tabLogs 1) =
      Some (JObj [("log", JNat 0); ("info", JNat 0); ("warning", JNat 2);
                  ("error", JNat 3); ("debug", JNat 0); ("other", JNat 0)]).
Proof.
  intros r tabLogs.
  split; [reflexivity|]. split; [reflexivity|]. split; [reflexivity|].
  exact (proj2 (proj2 (proj2 (proj2 (proj2
           (C9_console_breakdown 0 "B" tabLogs 1)))))
           eq_refl eq_refl eq_refl).
Defined.

(** ** Insertion-ordered maps *)

Section OrderedMapFacts.
Context {V : Type}.
Implicit Types (m : list (string * V)).

Lemma aget_aset_eq k v m : aget k (aset k v m) = Some v.
Proof.
  induction m as [|[k' v'] m IH]; cbn.
  - rewrite String.eqb_refl. reflexivity.
  - destruct (String.eqb k k') eqn:E; cbn; rewrite ?String.eqb_refl, ?E; auto.
Qed.

Lemma aget_aset_ne k k' v m : k ≠ k' → aget k' (aset k v m) = aget k' m.
Proof.
  intros Hne. induction m as [|[k0 v0] m IH]; cbn.
  - destruct (String.eqb_spec k' k); congruence.
  - destruct (String.eqb_spec k k0) as [->|Hk]; cbn.
    + destruct (String.eqb_spec k' k0); congruence.
    + destruct (String.eqb_spec k' k0); auto.
Qed.

Lemma aget_elem_of k v m : aget k m = Some v → (k, v) ∈ m.
Proof.
  induction m as [|[k0 v0] m IH]; cbn; [discriminate|].
  destruct (String.eqb_spec k k0) as [->|Hk].
  - intros [= ->]. left.
  - intros H. right. auto.
Qed.

(** Setting a key changes the values of the map at most at that key. *)
Lemma aset_Forall (P : V → Prop) k v m :
  P v → Forall (fun kv => P kv.2) m → Forall (fun kv => P kv.2) (aset k v m).
Proof.
  intros Hv. induction 1 as [|[k0 v0] m H0 Hm IH]; cbn.
  - repeat constructor. exact Hv.
  - destruct (String.eqb k k0); constructor; auto.
Qed.

End OrderedMapFacts.

(** ** The history of attempts *)

Lemma drop_length_app {A} (l k : list A) : drop (length l) (l ++ k) = k.
Proof. rewrite drop_app_length. reflexivity. Qed.

Lemma newAttempts_refl s : newAttempts s s = [].
Proof. unfold newAttempts. apply drop_all. Qed.

Lemma newAttempts_app s s' l :
  history (disk s') = history (disk s) ++ l → newAttempts s s' = l.
Proof. intros H. unfold newAttempts. rewrite H. apply drop_length_app. Qed.

(** Rewrites [newAttempts s s'] in [H] once [s'] is an explicit state. *)
Ltac new_attempts H :=
  unfold newAttempts in H; cbn in H; rewrite <- ?app_assoc in H;
  first [ rewrite drop_all in H | rewrite drop_length_app in H ].

Ltac new_attempts_goal :=
  unfold newAttempts; cbn; rewrite <- ?app_assoc;
  first [ rewrite drop_all | rewrite drop_length_app ].

(** Case analysis on an event, with names for its fields. *)
Ltac event_cases ev :=
  destruct ev as [pageId url title|rq|rs|ce|i|pageId errMessage errString
                 |pageId txt message stack|pageId txt warning
                 |tabId force|tabId force|force| | | | ].

(** Splits a membership in an explicit list of attempts into its cases. *)
Ltac elem_of_attempts H :=
  repeat (apply elem_of_cons in H; destruct H as [H|H]);
  try (apply elem_of_nil in H; destruct H);
  try discriminate H; try (injection H as ?; subst).

(** ** Console flush *)

(** C10. On every successful console flush of a tab (its flush file was
    written) the record of the tab changes in two fields only: [logs]
    becomes empty and the path of the new flush file is appended to
    [flushFiles]; [pageTitle], [pageUrl] and [lastActivity] are unchanged,
    and so are the records of all other tabs. *)
Theorem C10_console_flush_frame
    (env : Env) (tabId : TabId) (forceSave : bool) (s : State)
    (tabLogs : TabLogs) (flushFilePath : Path) :
  aget tabId (consoleLogs s) = Some tabLogs →
  fileWritten s (flushConsoleLogsForTab env tabId forceSave s) flushFilePath →
  let s' := flushConsoleLogsForTab env tabId forceSave s in
  (∃ tabLogs',
      aget tabId (consoleLogs s') = Some tabLogs'
      ∧ logs tabLogs' = []
      ∧ flushFiles tabLogs' = Some (default [] (flushFiles tabLogs) ++ [flushFilePath])
      ∧ pageTitle tabLogs' = pageTitle tabLogs
      ∧ pageUrl tabLogs' = pageUrl tabLogs
      ∧ lastActivity tabLogs' = lastActivity tabLogs)
  ∧ (∀ other, other ≠ tabId →
       aget other (consoleLogs s') = aget other (consoleLogs s)).
Proof.
  intros Hget [data Hw] s'. subst s'.
  unfold flushConsoleLogsForTab, ensureDir, readClock, attempt, caught in *.
  rewrite Hget in *. cbn in *.
  repeat case_match; simplify_eq; cbn in *; new_attempts Hw; elem_of_attempts Hw.
  all: try congruence.
  all: split;
    [ eexists; split; [apply aget_aset_eq|]; repeat split
    | intros other Hne; apply aget_aset_ne; congruence ].
Qed.

(** A forced flush of a tab that holds two records. *)
Lemma C10_witness :
  let tabLogs :=
    mkTabLogs "Shop" "http://b.example/" [sampleRecord "log"; sampleRecord "error"]
      42 None in
  let s := set_consoleLogs [("B", tabLogs)] startState in
  let s' := flushConsoleLogsForTab okEnv "B" true s in
  aget "B" (consoleLogs s) = Some tabLogs
  ∧ fileWritten s s' "/s/console_flushes/console_Shop_B_flush_1.json"
  ∧ aget "B" (consoleLogs s') =
      Some (mkTabLogs "Shop" "http://b.example/" [] 42
              (Some ["/s/console_flushes/console_Shop_B_flush_1.json"])).
Proof.
  intros tabLogs s s'.
  assert (aget "B" (consoleLogs s) = Some tabLogs) as Hget by reflexivity.
  assert (fileWritten s s' "/s/console_flushes/console_Shop_B_flush_1.json") as Hw.
  { eexists. vm_compute. right. left. }
  split; [exact Hget|]. split; [exact Hw|].
  destruct (C10_console_flush_frame okEnv "B" true s tabLogs _ Hget Hw)
    as [(tl' & Hl & H1 & H2 & H3 & H4 & H5) _].
  fold s' in Hl. rewrite Hl. destruct tl'; simpl in *; subst. reflexivity.
Defined.

(** A console flush that is not forced leaves a tab below the threshold
    alone. *)
Lemma flushConsole_below_threshold env tabId s tabLogs :
  aget tabId (consoleLogs s) = Some tabLogs →
  length (logs tabLogs) < maxLogsPerTabBeforeFlush →
  flushConsoleLogsForTab env tabId false s = s.
Proof.
  intros Hget Hlt. unfold flushConsoleLogsForTab. rewrite Hget.
  destruct (sessionDir s); [|reflexivity].
  rewrite bool_decide_true by exact Hlt. reflexivity.
Qed.

(** ** Network flush *)

(** The network flush of the program changes nothing but the disk (a
    directory may be created) and the list of reported errors. *)
Lemma flushNetwork_frame env tabId forceSave s :
  let s' := flushNetworkEventsForTab env tabId forceSave s in
  networkEvents s' = networkEvents s
  ∧ flushStats s' = flushStats s
  ∧ consoleLogs s' = consoleLogs s
  ∧ objects s' = objects s
  ∧ requestUrlMaps s' = requestUrlMaps s
  ∧ progressStats s' = progressStats s
  ∧ pages s' = pages s
  ∧ sessionDir s' = sessionDir s
  ∧ tick s' = tick s.
Proof.
  cbv zeta. unfold flushNetworkEventsForTab, ensureDir, attempt, caught. cbn.
  repeat case_match; simplify_eq; cbn; repeat split; congruence.
Qed.

(** It never attempts to write a file. *)
Lemma flushNetwork_no_write env tabId forceSave s :
  noWriteAttempted s (flushNetworkEventsForTab env tabId forceSave s).
Proof.
  unfold noWriteAttempted, flushNetworkEventsForTab, ensureDir, attempt, caught. cbn.
  repeat case_match; simplify_eq; cbn; new_attempts_goal; repeat constructor.
Qed.

(** A network flush that is not forced leaves a tab below the threshold
    alone. *)
Lemma flushNetwork_below_threshold env tabId s tabEvents :
  aget tabId (networkEvents s) = Some tabEvents →
  events_length tabEvents < maxEventsBeforeFlush →
  flushNetworkEventsForTab env tabId false s = s.
Proof.
  intros Hget Hlt. unfold flushNetworkEventsForTab. rewrite Hget.
  destruct (sessionDir s); [|reflexivity].
  rewrite bool_decide_true by exact Hlt. reflexivity.
Qed.

(** C3 (evaluation of the code). A tab holds 4999 events and 4999 events
    have been ingested; the disk accepts every write. The 5000th request
    reaches the threshold and triggers the flush. The flush creates its
    directory and then fails on the unresolved name [flushStats]: no
    document is written, the buffer still holds the 5000 events and the
    per-tab flush count has not advanced. *)
Theorem C3_threshold_flush_writes_nothing :
  let buffer := BoundedArray.mk bufferCapacity (seq 1 4999) false in
  let s :=
    set_uniqueRequestId 4999
      (set_progressStats (mkProgressStats 4999 0 0 0 1)
         (set_networkEvents [("A", Bounded buffer)] startState)) in
  let s' := onRequest okEnv (sampleRequest "A" "http://a.example/x") s in
  ps_networkEvents (progressStats s') = 5000
  ∧ option_map events_length (aget "A" (networkEvents s')) = Some 5000
  ∧ history (disk s') = [mkAttempt (Mkdir "/s/network_flushes") true]
  ∧ errors s' = [ReferenceError "flushStats"]
  ∧ perTabNetworkEventsFlushed (flushStats s') !! "A" = None
  ∧ networkEventFlushes (flushStats s') = 0.
Proof. vm_compute. repeat split. Qed.

(** ** Flushing an empty buffer *)

(** C5 (as amended). For a tab whose buffer is empty: a flush that is not
    forced is a no-op, for the network buffer and for the console buffer
    (the whole state, disk included, is unchanged); a forced network flush
    writes no file and leaves the flush statistics as they are (it may
    create the flush directory); a forced console flush consumes no
    sequence number (the per-tab count from which the next flush file is
    numbered is unchanged), and any document it writes holds zero
    entries. *)
Theorem C5_empty_buffer_flush
    (env : Env) (tabId : TabId) (s : State) :
  (∀ tabEvents,
     aget tabId (networkEvents s) = Some tabEvents →
     events_length tabEvents = 0 →
     flushNetworkEventsForTab env tabId false s = s
     ∧ noWriteAttempted s (flushNetworkEventsForTab env tabId true s)
     ∧ flushStats (flushNetworkEventsForTab env tabId true s) = flushStats s)
  ∧ (∀ tabLogs,
       aget tabId (consoleLogs s) = Some tabLogs →
       logs tabLogs = [] →
       flushConsoleLogsForTab env tabId false s = s
       ∧ tabFlushCountOf tabId (flushConsoleLogsForTab env tabId true s)
           = tabFlushCountOf tabId s
       ∧ ∀ a p data,
           a ∈ newAttempts s (flushConsoleLogsForTab env tabId true s) →
           at_op a = WriteFile p data →
           get_field "totalEntries" data = Some (JNat 0)).
Proof.
  split.
  - intros te Hget Hlen. split; [|split].
    + eapply flushNetwork_below_threshold; [exact Hget|].
      rewrite Hlen. unfold maxEventsBeforeFlush. lia.
    + apply flushNetwork_no_write.
    + apply (flushNetwork_frame env tabId true s).
  - intros tl Hget Hlogs. split; [|split].
    + eapply flushConsole_below_threshold; [exact Hget|].
      rewrite Hlogs. cbn. unfold maxLogsPerTabBeforeFlush. lia.
    + unfold flushConsoleLogsForTab, ensureDir, readClock, attempt, caught.
      rewrite Hget, Hlogs. cbn.
      repeat case_match; simplify_eq; cbn; try reflexivity.
      all: unfold tabFlushCountOf; cbn; rewrite lookup_insert_eq; cbn; lia.
    + intros a p data Ha Hop.
      unfold flushConsoleLogsForTab, ensureDir, readClock, attempt, caught in Ha.
      rewrite Hget in Ha. cbn in Ha.
      repeat case_match; simplify_eq; cbn in *; new_attempts Ha; elem_of_attempts Ha.
      all: simplify_eq; cbn in Hop; simplify_eq.
      all: unfold flushDocument; cbn; rewrite ?Hlogs; reflexivity.
Qed.

(** A tab with an empty network buffer and an empty console buffer. *)
Lemma C5_witness :
  let s :=
    set_consoleLogs [("B", mkTabLogs "B" "http://b.example/" [] 0 None)]
      (set_networkEvents [("B", Bounded (BoundedArray.new bufferCapacity))] startState) in
  aget "B" (networkEvents s) = Some (Bounded (BoundedArray.new bufferCapacity))
  ∧ events_length (Bounded (BoundedArray.new bufferCapacity)) = 0
  ∧ aget "B" (consoleLogs s) = Some (mkTabLogs "B" "http://b.example/" [] 0 None)
  ∧ flushNetworkEventsForTab okEnv "B" false s = s
  ∧ noWriteAttempted s (flushNetworkEventsForTab okEnv "B" true s)
  ∧ flushConsoleLogsForTab okEnv "B" false s = s
  ∧ tabFlushCountOf "B" (flushConsoleLogsForTab okEnv "B" true s) = tabFlushCountOf "B" s.
Proof.
  intros s.
  destruct (C5_empty_buffer_flush okEnv "B" s) as [Hnet Hcon].
  split; [reflexivity|]. split; [reflexivity|]. split; [reflexivity|].
  destruct (Hnet _ eq_refl eq_refl) as (N1 & N2 & _).
  split; [exact N1|]. split; [exact N2|].
  destruct (Hcon _ eq_refl eq_refl) as (H1 & H2 & _).
  split; [exact H1|exact H2].
Defined.

(** C5 (counterexample). A forced flush of a tab whose console buffer is
    empty is not a no-op: it creates the flush directory and writes a
    flush file, with zero entries, for the tab. *)
Lemma C5_counterexample :
  let tabLogs := mkTabLogs "B" "http://b.example/" [] 0 None in
  let s := set_consoleLogs [("B", tabLogs)] startState in
  let s' := flushConsoleLogsForTab okEnv "B" true s in
  logs tabLogs = []
  ∧ history (disk s) = []
  ∧ history (disk s') =
      [mkAttempt (Mkdir "/s/console_flushes") true;
       mkAttempt
         (WriteFile "/s/console_flushes/console_B_B_flush_1.json"
            (flushDocument 0 "B" tabLogs 1)) true]
  ∧ fileWritten s s' "/s/console_flushes/console_B_B_flush_1.json"
  ∧ s' ≠ s.
Proof.
  intros tabLogs s s'.
  assert (history (disk s') =
      [mkAttempt (Mkdir "/s/console_flushes") true;
       mkAttempt
         (WriteFile "/s/console_flushes/console_B_B_flush_1.json"
            (flushDocument 0 "B" tabLogs 1)) true]) as Hh by (vm_compute; reflexivity).
  split; [reflexivity|]. split; [reflexivity|]. split; [exact Hh|]. split.
  - eexists. unfold newAttempts. rewrite Hh. cbn. right. left.
  - intros Heq. rewrite Heq in Hh. discriminate Hh.
Qed.

(** ** StorageWriter *)

(** C4 (as amended). For every write request the writer goes through at
    most two persistence strategies, in order: the primary write (a gzip
    stream to the path with suffix [.gz] when compression applies, a
    synchronous uncompressed write of the path otherwise) and, only when
    that fails, one fallback (a synchronous uncompressed write of the path
    after a failed stream, a raw write of the path with suffix [.backup]
    after a failed synchronous write). It stops at the first attempt that
    succeeds and resolves with its path, and it reports an error to the
    caller exactly when every strategy open to the request was attempted
    and failed. *)
Theorem C4_writer_two_attempts
    (env : Env) (filePath : Path) (data : Json) (d : Disk) :
  let ops := strategies filePath data in
  let result := writeCompressedFile env filePath data d in
  let new := drop (length (history d)) (history result.2) in
  history result.2 = history d ++ new
  ∧ map at_op new `prefix_of` ops
  ∧ 1 ≤ length new ∧ length new ≤ length ops ∧ length ops ≤ 2
  ∧ (result.1 = Rejected ↔
       map at_op new = ops ∧ Forall (fun a => at_ok a = false) new)
  ∧ (∀ p, result.1 = Resolved p ↔
       ∃ failed op,
         new = failed ++ [mkAttempt op true] ∧ op_path op = p
         ∧ Forall (fun a => at_ok a = false) failed)
  ∧ dirs result.2 = dirs d.
Proof.
  cbv zeta. unfold writeCompressedFile, strategies, compressionApplies, attempt.
  destruct data;
    repeat (case_match; simplify_eq; cbn [fst snd history dirs op_path]);
    rewrite <- ?app_assoc, ?drop_length_app; cbn [app map length].
  all: split; [reflexivity|].
  all: split; [first [by eexists [] | by eexists [_] ]|].
  all: split; [lia|]; split; [lia|]; split; [lia|].
  all: cbn [at_op at_ok].
  all: split; [|split; [|reflexivity]].
  all: try (split; [discriminate|]; intros [Hops Hall]; exfalso;
            first [ discriminate Hops
                  | repeat (apply Forall_cons in Hall; destruct Hall as [? Hall]);
                    discriminate ]).
  all: try (split; [intros _; split; [reflexivity|repeat constructor]|reflexivity]).
  all: intros p; split.
  all: try discriminate.
  all: try (intros [= <-];
            first [ by eexists [], _
                  | by eexists [_], _; repeat split; repeat constructor ]).
  all: intros (failed & op & Hnew & Hpath & Hfailed);
      destruct failed as [|a1 [|a2 [|a3 failed]]]; cbn in Hnew; simplify_eq;
      try reflexivity;
      repeat (apply Forall_cons in Hfailed; destruct Hfailed as [? Hfailed]);
      try discriminate.
Qed.

(** C4 (counterexample). Compression applies to the document, the stream
    to [/s/doc.json.gz] fails and the synchronous write of [/s/doc.json]
    fails: the writer reports an error after these two attempts. It never
    tries [/s/doc.json.backup], which this file system would have
    accepted. *)
Lemma C4_counterexample :
  let result := writeCompressedFile backupOnlyEnv "/s/doc.json" elevenKeys sessionDisk in
  result.1 = Rejected
  ∧ history result.2 =
      [mkAttempt (WriteStream "/s/doc.json.gz" elevenKeys) false;
       mkAttempt (WriteFile "/s/doc.json" elevenKeys) false]
  ∧ (∀ n, io backupOnlyEnv n "/s/doc.json.backup" = true)
  ∧ ¬ (∃ a, a ∈ history result.2 ∧ op_path (at_op a) = "/s/doc.json.backup").
Proof.
  cbv zeta.
  assert (history (writeCompressedFile backupOnlyEnv "/s/doc.json" elevenKeys sessionDisk).2 =
      [mkAttempt (WriteStream "/s/doc.json.gz" elevenKeys) false;
       mkAttempt (WriteFile "/s/doc.json" elevenKeys) false]) as Hh
    by (vm_compute; reflexivity).
  split; [vm_compute; reflexivity|]. split; [exact Hh|]. split; [intros n; reflexivity|].
  intros (a & Ha & Hp). rewrite Hh in Ha. elem_of_attempts Ha.
  all: subst; cbn in Hp; discriminate Hp.
Qed.

(** ** Responses *)

(** A response without a pending entry leaves the whole state as it is. *)
Lemma onResponse_unmatched env rs s :
  pendingEntry (rs_pageId rs) (rs_url rs) s = None → onResponse env rs s = s.
Proof.
  intros Hnone. unfold onResponse. rewrite Hnone.
  destruct (aget (rs_pageId rs) (networkEvents s)); reflexivity.
Qed.

(** ** The sample of the partial file *)

Lemma tabSampleSize_le len total : tabSampleSize len total ≤ len.
Proof. unfold tabSampleSize. case_bool_decide; lia. Qed.

(** The share in unary arithmetic. *)
Lemma tabSampleSize_nat len total :
  0 < total → tabSampleSize len total = len `min` (sampleSize * len / total).
Proof.
  intros Hpos. unfold tabSampleSize. rewrite bool_decide_false by lia.
  rewrite <- Nat2N.inj_mul, <- Nat2N.inj_div, Nat2N.id. reflexivity.
Qed.

Lemma list_sum_sum_list (l : list nat) : list_sum l = sum_list l.
Proof.
  induction l as [|x l IH]; [reflexivity|].
  change (list_sum (x :: l)) with (x + list_sum l).
  change (sum_list (x :: l)) with (x + sum_list l). rewrite IH. reflexivity.
Qed.

(** ** Steps that leave the captured data alone *)

Lemma sameCapture_refl s : sameCapture s s.
Proof. repeat split. Qed.

Lemma sameCapture_trans s1 s2 s3 :
  sameCapture s1 s2 → sameCapture s2 s3 → sameCapture s1 s3.
Proof. unfold sameCapture. intros H1 H2. intuition congruence. Qed.

Lemma stampedBefore_mono env n m a :
  n ≤ m → stampedBefore env n a → stampedBefore env m a.
Proof. intros Hle H t Ht. destruct (H t Ht) as (k & Hk & ->). exists k. split; [lia|reflexivity]. Qed.

Lemma trail_intro env s s' l :
  history (disk s') = history (disk s) ++ l →
  tick s ≤ tick s' →
  Forall (stampedBefore env (tick s')) l →
  trail env s s'.
Proof.
  intros Hh Ht Hl. unfold trail. rewrite (newAttempts_app _ _ _ Hh). auto.
Qed.

Lemma trail_same env s s' :
  history (disk s') = history (disk s) → tick s ≤ tick s' → trail env s s'.
Proof.
  intros Hh Ht. apply (trail_intro env s s' []); [rewrite app_nil_r; exact Hh|exact Ht|constructor].
Qed.

Lemma trail_refl env s : trail env s s.
Proof. apply trail_same; [reflexivity|lia]. Qed.

Lemma newAttempts_trans env s1 s2 s3 :
  trail env s1 s2 → trail env s2 s3 →
  newAttempts s1 s3 = newAttempts s1 s2 ++ newAttempts s2 s3.
Proof.
  intros (H12 & _ & _) (H23 & _ & _).
  apply newAttempts_app. rewrite H23, H12 at 1. rewrite <- app_assoc. reflexivity.
Qed.

Lemma trail_trans env s1 s2 s3 :
  trail env s1 s2 → trail env s2 s3 → trail env s1 s3.
Proof.
  intros H12 H23. pose proof (newAttempts_trans env s1 s2 s3 H12 H23) as Hn.
  destruct H12 as (H12 & Ht12 & Hs12). destruct H23 as (H23 & Ht23 & Hs23).
  unfold trail. rewrite Hn. split; [|split].
  - rewrite H23, H12 at 1. rewrite <- app_assoc. reflexivity.
  - lia.
  - apply Forall_app. split; [|exact Hs23].
    eapply Forall_impl; [exact Hs12|]. intros a. apply stampedBefore_mono. exact Ht23.
Qed.

Lemma quiet_refl env s : quiet env s s.
Proof. split; [apply sameCapture_refl|]. split; [reflexivity|apply trail_refl]. Qed.

Lemma quiet_trans env s1 s2 s3 : quiet env s1 s2 → quiet env s2 s3 → quiet env s1 s3.
Proof.
  intros (C12 & D12 & T12) (C23 & D23 & T23). split; [|split].
  - eapply sameCapture_trans; eassumption.
  - congruence.
  - eapply trail_trans; eassumption.
Qed.

Lemma quiet_fold {B} env (f : State → B → State) (l : list B) s :
  (∀ s x, quiet env s (f s x)) → quiet env s (fold_left f l s).
Proof.
  intros Hf. revert s. induction l as [|x l IH]; intros s; cbn.
  - apply quiet_refl.
  - eapply quiet_trans; [apply Hf|apply IH].
Qed.

(** Proves [quiet] for a function given by cases on explicit states. *)
Ltac quiet_leaf :=
  repeat case_match; simplify_eq; cbn;
  (split; [repeat split; cbn; congruence|]);
  (split; [cbn; congruence|]);
  first
    [ apply trail_same; [reflexivity|cbn; lia]
    | eapply trail_intro;
      [ cbn; rewrite <- ?app_assoc; reflexivity
      | cbn; lia
      | repeat constructor ] ].


(** Settles [stampedBefore] for an explicit attempt. *)
Ltac stamp_tac :=
  let Hst := fresh "Hst" in
  intros ? Hst; cbn in Hst;
  first
    [ discriminate Hst
    | injection Hst as <-; eexists; split; [|reflexivity]; cbn; lia ].

Lemma quiet_flushNetwork env tabId force s :
  quiet env s (flushNetworkEventsForTab env tabId force s).
Proof.
  unfold flushNetworkEventsForTab, ensureDir, attempt, caught. cbn.
  quiet_leaf; stamp_tac.
Qed.

Lemma quiet_flushConsole env tabId force s :
  quiet env s (flushConsoleLogsForTab env tabId force s).
Proof.
  unfold flushConsoleLogsForTab, ensureDir, readClock, attempt, caught. cbn.
  quiet_leaf; stamp_tac.
Qed.

Lemma quiet_performMemoryCheck env force s :
  quiet env s (performMemoryCheck env force s).
Proof.
  unfold performMemoryCheck. cbv zeta.
  eapply quiet_trans; [|apply quiet_fold].
  - apply quiet_fold. intros s0 tab. unfold checkNetworkTab.
    case_match; [apply quiet_flushNetwork|apply quiet_refl].
  - intros s0 tab. unfold checkConsoleTab.
    repeat case_match; try apply quiet_refl. apply quiet_flushConsole.
Qed.

Lemma docTime_har objs refs pgs : docTime (createHarFile objs refs pgs) = None.
Proof. reflexivity. Qed.

(** A reported write of a document stamped before the current reading. *)
Lemma quiet_writeAndReport env filePath data s :
  docStampedBefore env (tick s) data →
  quiet env s (writeAndReport env filePath data s).
Proof.
  intros Hdoc.
  assert (∀ p ok, stampedBefore env (tick s) (mkAttempt (WriteFile p data) ok)) as Hw
    by (intros p ok t Ht; apply Hdoc; exact Ht).
  assert (∀ p ok, stampedBefore env (tick s) (mkAttempt (WriteStream p data) ok)) as Hs
    by (intros p ok t Ht; apply Hdoc; exact Ht).
  unfold writeAndReport, writeCompressedFile, attempt, caught. cbn.
  repeat case_match; simplify_eq; cbn.
  all: (split; [repeat split|]); (split; [reflexivity|]).
  all: eapply trail_intro;
      [ cbn; rewrite <- ?app_assoc; reflexivity | cbn; lia | cbn; repeat constructor; auto ].
Qed.

Lemma quiet_caught env e s : quiet env s (caught e s).
Proof.
  split; [repeat split|]. split; [reflexivity|]. apply trail_same; [reflexivity|cbn; lia].
Qed.

Lemma quiet_set_tick env s : quiet env s (set_tick (S (tick s)) s).
Proof.
  split; [repeat split|]. split; [reflexivity|]. apply trail_same; [reflexivity|cbn; lia].
Qed.

Lemma quiet_attempt_mkdir env p s :
  quiet env s (set_disk (attempt env (Mkdir p) (disk s)).2 s).
Proof.
  split; [repeat split|]. split; [reflexivity|].
  eapply trail_intro; [cbn; reflexivity|cbn; lia|repeat constructor; stamp_tac].
Qed.

Lemma docStamped_har env n objs refs pgs :
  docStampedBefore env n (createHarFile objs refs pgs).
Proof. intros t Ht. discriminate Ht. Qed.

Lemma quiet_saveTabHar env harDir s tab :
  quiet env s (saveTabHar env harDir s tab).
Proof.
  unfold saveTabHar. destruct tab as [tabId tabEvents].
  case_bool_decide; [apply quiet_refl|].
  destruct (aget tabId (pages s)) as [p|].
  - apply quiet_writeAndReport, docStamped_har.
  - unfold readClock. cbn.
    eapply quiet_trans; [apply quiet_set_tick|].
    apply quiet_writeAndReport, docStamped_har.
Qed.

Lemma quiet_saveFinalHarFiles env s :
  quiet env s (saveFinalHarFiles env s).
Proof.
  unfold saveFinalHarFiles.
  destruct (sessionDir s) as [dir|]; [|apply quiet_caught].
  assert (∀ harDir s0, quiet env s s0 →
    quiet env s
      (let s1 := fold_left (saveTabHar env harDir) (networkEvents s0) s0 in
       let allEvents := flat_map (fun tab => allItemsOf tab.2) (networkEvents s1) in
       let combinedHarData := createHarFile (objects s1) allEvents (map snd (pages s1)) in
       writeAndReport env (combinedHarPath dir) combinedHarData s1)) as Hrest.
  { intros harDir s0 H0. cbv zeta.
    eapply quiet_trans; [exact H0|].
    eapply quiet_trans; [|apply quiet_writeAndReport, docStamped_har].
    apply quiet_fold. intros. apply quiet_saveTabHar. }
  destruct (existsSync _ (disk s)).
  - apply Hrest, quiet_refl.
  - destruct (attempt env (Mkdir _) (disk s)) as [[|] d] eqn:E;
      assert (d = (attempt env (Mkdir (path_join dir "final_har_files")) (disk s)).2) as ->
        by (rewrite E; reflexivity).
    + apply Hrest, quiet_attempt_mkdir.
    + apply Hrest. eapply quiet_trans; [apply quiet_attempt_mkdir|apply quiet_caught].
Qed.

Lemma docStamped_now env s (f : Z → Json) :
  (∀ now, docTime (f now) = Some (toLocaleTimeString now)) →
  docStampedBefore env (tick (readClock env s).2) (f (readClock env s).1).
Proof.
  intros Hf t Ht. rewrite Hf in Ht. injection Ht as <-.
  exists (tick s). split; [cbn; lia|reflexivity].
Qed.

Lemma quiet_saveTabLogs env logsDir s it :
  quiet env s (saveTabLogs env logsDir s it).
Proof.
  unfold saveTabLogs. destruct it as [index [pageId tabData]].
  case_bool_decide; [apply quiet_refl|].
  eapply quiet_trans; [apply quiet_set_tick|].
  apply quiet_writeAndReport.
  apply (docStamped_now env s (fun now => tabDocument now pageId tabData)).
  reflexivity.
Qed.

Lemma quiet_saveAllConsoleLogs env s :
  quiet env s (saveAllConsoleLogs env s).
Proof.
  unfold saveAllConsoleLogs.
  destruct (sessionDir s) as [dir|]; [|apply quiet_caught].
  set (allTabsLogs := consoleLogs s).
  assert (∀ logsDir s0, quiet env s s0 →
    quiet env s
      (let s1 := fold_left (saveTabLogs env logsDir) (imap pair allTabsLogs) s0 in
       let '(now, s2) := readClock env s1 in
       writeAndReport env (combinedLogPath dir) (combinedLogDocument now allTabsLogs) s2)) as Hrest.
  { intros logsDir s0 H0. cbv zeta.
    eapply quiet_trans; [exact H0|].
    set (s1 := fold_left _ _ s0). unfold readClock.
    eapply quiet_trans; [|apply quiet_writeAndReport;
      apply (docStamped_now env s1 (fun now => combinedLogDocument now allTabsLogs));
      reflexivity].
    eapply quiet_trans; [|apply quiet_set_tick].
    apply quiet_fold. intros. apply quiet_saveTabLogs. }
  destruct (bool_decide (1 < length allTabsLogs) && negb (existsSync _ (disk s))).
  - destruct (attempt env (Mkdir _) (disk s)) as [[|] d] eqn:E;
      assert (d = (attempt env (Mkdir (path_join dir "console_logs")) (disk s)).2) as ->
        by (rewrite E; reflexivity).
    + apply Hrest. apply quiet_attempt_mkdir.
    + apply Hrest. eapply quiet_trans; [apply quiet_attempt_mkdir|apply quiet_caught].
  - apply Hrest. apply quiet_refl.
Qed.

(** ** Boundedness of the network buffers *)

Lemma aget_Forall {V} (P : V → Prop) k v (m : list (string * V)) :
  Forall (fun kv => P kv.2) m → aget k m = Some v → P v.
Proof.
  induction 1 as [|[k0 v0] m H0 Hm IH]; cbn; [discriminate|].
  destruct (String.eqb k k0); [intros [= <-]; exact H0|exact IH].
Qed.

Lemma bufferCapacity_value : bufferCapacity = 6000.
Proof. vm_compute. reflexivity. Qed.

Lemma bufferCapacity_pos : 0 < bufferCapacity.
Proof. apply Nat.ltb_lt. vm_compute. reflexivity. Qed.

Lemma withinCapacity_new : withinCapacity (Bounded (BoundedArray.new bufferCapacity)).
Proof. split; [reflexivity|]. cbn. lia. Qed.

Lemma withinCapacity_push te r : withinCapacity te → withinCapacity (events_push te r).
Proof.
  destruct te as [b|items]; [|intros []]. intros [Hmax Hlen].
  unfold events_push, withinCapacity. rewrite push_maxSize.
  split; [exact Hmax|]. unfold BoundedArray.length in *.
  apply push_bounded; [|exact Hlen].
  rewrite Hmax. exact bufferCapacity_pos.
Qed.

Lemma buffersBounded_sameCapture s s' :
  sameCapture s s' → buffersBounded s → buffersBounded s'.
Proof. intros (_ & Hn & _) H. unfold buffersBounded. rewrite Hn. exact H. Qed.

Lemma networkEvents_trackTabBaseUrl env tabId url s :
  networkEvents (trackTabBaseUrl env tabId url s) = networkEvents s.
Proof. unfold trackTabBaseUrl. repeat case_match; reflexivity. Qed.

Lemma buffersBounded_init tabId s :
  buffersBounded s →
  buffersBounded (initTabNetworkEvents tabId s).1
  ∧ withinCapacity (initTabNetworkEvents tabId s).2
  ∧ aget tabId (networkEvents (initTabNetworkEvents tabId s).1)
      = Some (initTabNetworkEvents tabId s).2.
Proof.
  intros Hb. unfold initTabNetworkEvents.
  destruct (aget tabId (networkEvents s)) as [te|] eqn:Hget; cbn.
  - split; [exact Hb|]. split; [|exact Hget].
    exact (aget_Forall withinCapacity _ _ _ Hb Hget).
  - split; [|split].
    + apply (aset_Forall withinCapacity); [apply withinCapacity_new|exact Hb].
    + apply withinCapacity_new.
    + clear. induction (networkEvents s) as [|[k v] m IH]; cbn.
      * rewrite String.eqb_refl. reflexivity.
      * destruct (String.eqb tabId k) eqn:E; cbn; rewrite ?String.eqb_refl, ?E; auto.
Qed.

Lemma buffersBounded_setup env pageId url title s :
  buffersBounded s → buffersBounded (setupPageMonitoring env pageId url title s).
Proof.
  intros Hb. unfold setupPageMonitoring, readClock. cbn.
  unfold buffersBounded. cbn.
  set (s4 := set_consoleLogs _ _).
  assert (buffersBounded s4) as H4.
  { unfold buffersBounded. subst s4. cbn. rewrite networkEvents_trackTabBaseUrl. exact Hb. }
  destruct (buffersBounded_init pageId s4 H4) as (H5 & _ & _). exact H5.
Qed.

Lemma buffersBounded_onRequest env rq s :
  buffersBounded s → buffersBounded (onRequest env rq s).
Proof.
  intros Hb. unfold onRequest.
  set (s1 := match rq_mainFrameUrl rq with Some url => _ | None => s end).
  assert (buffersBounded s1) as H1.
  { subst s1. destruct (rq_mainFrameUrl rq); [|exact Hb].
    unfold buffersBounded. rewrite networkEvents_trackTabBaseUrl. exact Hb. }
  unfold readClock. cbn [fst snd].
  set (s3 := set_tick _ (set_uniqueRequestId _ s1)).
  assert (buffersBounded s3) as H3 by exact H1.
  destruct (buffersBounded_init (rq_pageId rq) s3 H3) as (H4 & Hte & _).
  destruct (initTabNetworkEvents (rq_pageId rq) s3) as [s4 tabEvents]. cbn [fst snd] in *.
  match goal with |- buffersBounded (if ?c then flushNetworkEventsForTab _ _ _ ?s8 else _) =>
    assert (buffersBounded s8) as H8 end.
  { unfold buffersBounded. cbn.
    apply (aset_Forall withinCapacity); [apply withinCapacity_push; exact Hte|exact H4]. }
  case_match; [|exact H8].
  eapply buffersBounded_sameCapture; [|exact H8].
  apply (quiet_flushNetwork env).
Qed.

Lemma sameCapture_onResponse env rs s :
  networkEvents (onResponse env rs s) = networkEvents s.
Proof. unfold onResponse, readClock. repeat case_match; reflexivity. Qed.

Lemma networkEvents_onConsoleStore env i s :
  networkEvents (onConsoleStore env i s) = networkEvents s.
Proof.
  unfold onConsoleStore. destruct (pendingConsole s !! i) as [pc|]; [|reflexivity].
  unfold readClock. cbn.
  match goal with |- networkEvents (if ?c then flushConsoleLogsForTab _ ?k _ ?s4 else _) = _ =>
    destruct c; [|reflexivity];
    destruct (quiet_flushConsole env k false s4) as ((_ & Hn & _) & _);
    rewrite Hn; reflexivity end.
Qed.

Lemma networkEvents_onConsoleCatch env pageId errMessage errString s :
  networkEvents (onConsoleCatch env pageId errMessage errString s) = networkEvents s.
Proof.
  unfold onConsoleCatch, readClock. destruct (aget pageId (consoleLogs s)); reflexivity.
Qed.

(** ** The periodic tick and the end of the session *)

Lemma quiet_writeOnly env filePath data s :
  docStampedBefore env (tick s) data →
  quiet env s (set_disk (writeCompressedFile env filePath data (disk s)).2 s).
Proof.
  intros Hdoc.
  assert (∀ p ok, stampedBefore env (tick s) (mkAttempt (WriteFile p data) ok)) as Hw
    by (intros p ok t Ht; apply Hdoc; exact Ht).
  assert (∀ p ok, stampedBefore env (tick s) (mkAttempt (WriteStream p data) ok)) as Hs
    by (intros p ok t Ht; apply Hdoc; exact Ht).
  unfold writeCompressedFile, attempt. cbn.
  repeat case_match; simplify_eq; cbn.
  all: (split; [repeat split|]); (split; [reflexivity|]).
  all: eapply trail_intro;
      [ cbn; rewrite <- ?app_assoc; reflexivity | cbn; lia | cbn; repeat constructor; auto ].
Qed.

Lemma quiet_autoSaveTick env startTime s :
  quiet env s (autoSaveTick env startTime s).
Proof.
  unfold autoSaveTick.
  destruct (sessionDir s) as [dir|]; [|apply quiet_refl].
  unfold readClock. cbn [fst snd].
  set (s0 := set_tick (S (tick s)) s).
  set (s1 := fold_left (partialFlushTab env) (networkEvents s0) s0).
  assert (quiet env s s1) as H1.
  { eapply quiet_trans; [apply quiet_set_tick|]. apply quiet_fold.
    intros sx tab. unfold partialFlushTab.
    case_match; [apply quiet_flushNetwork|apply quiet_refl]. }
  destruct (autoSaveSample s1) as [e|sample].
  { eapply quiet_trans; [exact H1|apply quiet_caught]. }
  set (s2 := set_disk _ s1).
  assert (quiet env s s2) as H2.
  { eapply quiet_trans; [exact H1|]. apply quiet_writeOnly, docStamped_har. }
  eapply quiet_trans; [exact H2|]. clearbody s2. clear.
  unfold attempt, caught. cbn.
  quiet_leaf; stamp_tac.
Qed.

Lemma ensureSessionDir_spec env s :
  sameCapture s (ensureSessionDir env s)
  ∧ trail env s (ensureSessionDir env s)
  ∧ is_Some (sessionDir (ensureSessionDir env s)).
Proof.
  unfold ensureSessionDir, readClock, attempt, caught. cbn.
  repeat case_match; simplify_eq; cbn.
  all: split; [repeat split|]; split; [|eauto].
  all: first
    [ apply trail_same; [reflexivity|cbn; lia]
    | eapply trail_intro;
      [ cbn; rewrite <- ?app_assoc; reflexivity | cbn; lia | repeat constructor; stamp_tac ] ].
Qed.

Lemma writeSummary_spec env startTime s dir :
  sessionDir s = Some dir →
  let s' := writeSummary env startTime s in
  sameCapture s s'
  ∧ sessionDir s' = Some dir
  ∧ ∃ ok,
      history (disk s') =
        history (disk s) ++
          [mkAttempt
             (WriteFile (summaryPath dir)
                (summaryDocument startTime (clock env (tick s)) (clock env (S (tick s))) s))
             ok].
Proof.
  intros Hdir. cbv zeta. unfold writeSummary, readClock, attempt, caught. rewrite Hdir. cbn.
  case_match; cbn; (split; [repeat split|]); (split; [exact Hdir|]); eexists; reflexivity.
Qed.

Lemma sameCapture_onDisconnected env startTime s :
  sameCapture s (onDisconnected env startTime s).
Proof.
  unfold onDisconnected.
  destruct (ensureSessionDir_spec env s) as (C0 & _ & [dir Hdir]).
  set (s0 := ensureSessionDir env s) in *.
  pose proof (quiet_performMemoryCheck env true s0) as (C1 & D1 & _).
  set (s1 := performMemoryCheck env true s0) in *.
  pose proof (quiet_saveFinalHarFiles env s1) as (C2 & D2 & _).
  set (s2 := saveFinalHarFiles env s1) in *.
  pose proof (quiet_saveAllConsoleLogs env s2) as (C3 & D3 & _).
  set (s3 := saveAllConsoleLogs env s2) in *.
  assert (sessionDir s3 = Some dir) as Hd3 by congruence.
  destruct (writeSummary_spec env startTime s3 dir Hd3) as (C4 & _).
  repeat (eapply sameCapture_trans; [eassumption|]). apply sameCapture_refl.
Qed.

Lemma buffersBounded_step env startTime s ev :
  buffersBounded s → buffersBounded (step env startTime s ev).
Proof.
  intros Hb. destruct ev; cbn [step].
  - apply buffersBounded_setup, Hb.
  - apply buffersBounded_onRequest, Hb.
  - unfold buffersBounded. rewrite sameCapture_onResponse. exact Hb.
  - exact Hb.
  - unfold buffersBounded. rewrite networkEvents_onConsoleStore. exact Hb.
  - unfold buffersBounded. rewrite networkEvents_onConsoleCatch. exact Hb.
  - exact Hb.
  - exact Hb.
  - eapply buffersBounded_sameCapture; [apply (quiet_flushNetwork env)|exact Hb].
  - eapply buffersBounded_sameCapture; [apply (quiet_flushConsole env)|exact Hb].
  - eapply buffersBounded_sameCapture; [apply (quiet_performMemoryCheck env)|exact Hb].
  - eapply buffersBounded_sameCapture; [apply (quiet_autoSaveTick env)|exact Hb].
  - eapply buffersBounded_sameCapture; [apply (quiet_saveFinalHarFiles env)|exact Hb].
  - eapply buffersBounded_sameCapture; [apply (quiet_saveAllConsoleLogs env)|exact Hb].
  - eapply buffersBounded_sameCapture; [apply sameCapture_onDisconnected|exact Hb].
Qed.

Lemma buffersBounded_run env startTime s evs :
  buffersBounded s → buffersBounded (run env startTime s evs).
Proof.
  revert s. induction evs as [|ev evs IH]; intros s Hb; [exact Hb|].
  cbn. apply IH, buffersBounded_step, Hb.
Qed.

(** C1. At every point of every run of the pipeline, from the start of the
    session on and whatever flushes, memory checks, periodic saves and
    final saves the run contains, the network buffer of every tab is a
    bounded array of the fixed capacity and holds at most that many
    entries; the capacity is 6000 whatever the number of events ingested. *)
Theorem C1_network_buffers_bounded
    (env : Env) (startTime : Z) (dir : Path) (d : Disk) (t0 : Z) (evs : list Event) :
  let s := run env startTime (initialState dir d t0) evs in
  Forall (fun tab =>
            ∃ b, tab.2 = Bounded b
                 ∧ BoundedArray.maxSize b = bufferCapacity
                 ∧ events_length tab.2 ≤ bufferCapacity)
    (networkEvents s)
  ∧ bufferCapacity = 6000.
Proof.
  intros s. split; [|apply bufferCapacity_value].
  assert (buffersBounded s) as Hb.
  { apply buffersBounded_run. constructor. }
  eapply Forall_impl; [exact Hb|].
  intros [tabId te] Hw. cbn [snd] in *. destruct te as [b|items]; [|destruct Hw].
  destruct Hw as [Hmax Hlen]. exists b. split; [reflexivity|]. split; [exact Hmax|].
  change (BoundedArray.length b ≤ bufferCapacity). rewrite <- Hmax. exact Hlen.
Qed.

(** ** The end of the session *)


(** The first attempt of a reported write is the plain write of the path
    when compression does not apply. *)
Lemma writeAndReport_primary env filePath data s :
  compressionApplies data = false → data ≠ JNull →
  ∃ ok, mkAttempt (WriteFile filePath data) ok
          ∈ newAttempts s (writeAndReport env filePath data s).
Proof.
  intros Hc Hnull. unfold writeAndReport, writeCompressedFile.
  unfold compressionApplies in Hc. rewrite Hc. unfold attempt, caught.
  destruct data; try congruence; cbn;
    repeat case_match; simplify_eq; cbn; eexists; new_attempts_goal; left.
Qed.

Lemma finalHarPath_sameCapture harDir tabId s s' :
  sameCapture s s' → finalHarPath harDir tabId s' = finalHarPath harDir tabId s.
Proof.
  intros (_ & _ & _ & _ & _ & Hu & _). unfold finalHarPath, baseUrlOf. rewrite Hu. reflexivity.
Qed.

Lemma saveTabHar_writes env harDir s tabId te :
  events_length te ≠ 0 →
  ∃ data ok,
    mkAttempt (WriteFile (finalHarPath harDir tabId s) data) ok
      ∈ newAttempts s (saveTabHar env harDir s (tabId, te)).
Proof.
  intros Hne. unfold saveTabHar. rewrite bool_decide_false by exact Hne.
  destruct (aget tabId (pages s)) as [p|].
  - eexists. apply writeAndReport_primary; [reflexivity|discriminate].
  - unfold readClock. cbn [fst snd].
    set (s1 := set_tick (S (tick s)) s).
    destruct (writeAndReport_primary env (finalHarPath harDir tabId s1)
                (createHarFile (objects s1) (eventsArrayOf te)
                   [mkPageInfo tabId "Unknown Tab" (clock env (tick s)) "unknown" false None]) s1
                eq_refl ltac:(discriminate)) as [ok Hin].
    eexists _, ok. exact Hin.
Qed.

Lemma fold_saveTabHar_writes env harDir tabs s tabId te :
  (tabId, te) ∈ tabs → events_length te ≠ 0 →
  ∃ data ok,
    mkAttempt (WriteFile (finalHarPath harDir tabId s) data) ok
      ∈ newAttempts s (fold_left (saveTabHar env harDir) tabs s).
Proof.
  intros Hin Hne. revert s. induction tabs as [|tab tabs IH]; intros s.
  { inversion Hin. }
  cbn [fold_left].
  pose proof (quiet_saveTabHar env harDir s tab) as (C1 & _ & T1).
  assert (trail env (saveTabHar env harDir s tab)
            (fold_left (saveTabHar env harDir) tabs (saveTabHar env harDir s tab))) as T2.
  { apply quiet_fold. intros. apply quiet_saveTabHar. }
  rewrite (newAttempts_trans env _ _ _ T1 T2).
  apply elem_of_cons in Hin. destruct Hin as [<-|Hin].
  - destruct (saveTabHar_writes env harDir s tabId te Hne) as (data & ok & Ha).
    exists data, ok. apply elem_of_app. left. exact Ha.
  - destruct (IH Hin (saveTabHar env harDir s tab)) as (data & ok & Ha).
    exists data, ok. apply elem_of_app. right.
    rewrite <- (finalHarPath_sameCapture harDir tabId s _ C1). exact Ha.
Qed.








(* ===================================================================== *)
(** * Part III. Sessions, and further properties                          *)
(* ===================================================================== *)

(** ** BoundedArray: every capacity and any number of pushes *)

Section BoundedArrayEdge.
Context {T : Type}.
Implicit Types (b : BoundedArray.t T) (x : T) (xs : list T).
Import BoundedArray.

Lemma push_window_any b x :
  List.length (array b) ≤ maxSize b `max` 1 →
  array (push b x).1 =
    drop (List.length (array b ++ [x]) - maxSize b `max` 1) (array b ++ [x]).
Proof.
  intros Hle. rewrite push_array, length_app. cbn [List.length].
  case_bool_decide as Hfull.
  - destruct (array b) as [|y l] eqn:E.
    + cbn in *. replace (1 - maxSize b `max` 1) with 0 by lia. reflexivity.
    + cbn [List.length] in *. replace (S (List.length l) + 1 - maxSize b `max` 1) with 1 by lia.
      reflexivity.
  - replace (List.length (array b) + 1 - maxSize b `max` 1) with 0 by lia. reflexivity.
Qed.

Lemma push_length_any b x :
  List.length (array b) ≤ maxSize b `max` 1 →
  List.length (array (push b x).1) ≤ maxSize b `max` 1.
Proof.
  intros Hle. rewrite push_array.
  case_bool_decide; rewrite length_app; [rewrite length_drop|]; cbn; lia.
Qed.

Lemma pushAll_window_any b xs :
  List.length (array b) ≤ maxSize b `max` 1 →
  array (pushAll b xs).1 =
    drop (List.length (array b ++ xs) - maxSize b `max` 1) (array b ++ xs).
Proof.
  revert b. induction xs as [|x xs IH]; intros b Hle.
  - cbn [pushAll fst]. rewrite app_nil_r.
    replace (List.length (array b) - maxSize b `max` 1) with 0 by lia. reflexivity.
  - rewrite pushAll_cons. cbn [fst].
    pose proof (push_maxSize b x) as Hm.
    pose proof (push_length_any b x Hle) as Hle1.
    rewrite IH by (rewrite Hm; assumption).
    rewrite Hm, push_window_any by assumption.
    set (l := array b ++ [x]).
    replace (array b ++ x :: xs) with (l ++ xs)
      by (subst l; rewrite <- app_assoc; reflexivity).
    rewrite !length_app, length_drop.
    destruct (decide (List.length l ≤ maxSize b `max` 1)) as [Hs|Hs].
    + replace (List.length l - maxSize b `max` 1) with 0 by lia.
      rewrite drop_0, Nat.sub_0_r. reflexivity.
    + rewrite <- (drop_app_le l xs (List.length l - maxSize b `max` 1)) by lia.
      rewrite drop_drop. f_equal. lia.
Qed.

Lemma push_overflowed b x :
  overflowed (push b x).1 =
    overflowed b || bool_decide (maxSize b ≤ List.length (array b)).
Proof.
  unfold push. case_bool_decide; cbn; [rewrite orb_true_r|rewrite orb_false_r]; reflexivity.
Qed.

Lemma pushAll_overflowed b xs :
  List.length (array b) ≤ maxSize b →
  overflowed (pushAll b xs).1 =
    overflowed b || bool_decide (maxSize b < List.length (array b) + List.length xs).
Proof.
  revert b. induction xs as [|x xs IH]; intros b Hle.
  - cbn [pushAll fst List.length]. rewrite bool_decide_false by lia.
    rewrite orb_false_r. reflexivity.
  - rewrite pushAll_cons. cbn [fst List.length].
    destruct (decide (List.length (array b) < maxSize b)) as [Hlt|Hge].
    + assert (array (push b x).1 = array b ++ [x]) as Ha
        by (rewrite push_array, bool_decide_false by lia; reflexivity).
      rewrite IH; rewrite push_maxSize, Ha, length_app; cbn [List.length]; [|lia].
      rewrite push_overflowed, (bool_decide_false (maxSize b ≤ _)) by lia.
      rewrite orb_false_r. f_equal. apply bool_decide_ext. lia.
    + rewrite (bool_decide_true (maxSize b < _)) by lia. rewrite orb_true_r.
      clear IH Hle.
      assert (overflowed (push b x).1 = true) as H1.
      { rewrite push_overflowed, (bool_decide_true (maxSize b ≤ _)) by lia.
        apply orb_true_r. }
      revert H1. generalize ((push b x).1). clear.
      induction xs as [|y ys IH]; intros b Hb; [exact Hb|].
      rewrite pushAll_cons. cbn [fst]. apply IH.
      rewrite push_overflowed, Hb. reflexivity.
Qed.

End BoundedArrayEdge.

(** X1. For every capacity, zero included, and every sequence of items
    pushed into a new bounded buffer: the buffer holds the most recent
    [max(C, 1)] items pushed (all of them when there are fewer), in their
    insertion order; its capacity is unchanged; and [overflowed] is set
    exactly when more items were pushed than the capacity. *)
Theorem X1_bounded_buffer_any_capacity {T : Type} (C : nat) (items : list T) :
  let b := (BoundedArray.pushAll (BoundedArray.new C) items).1 in
  BoundedArray.getItems b = drop (length items - retained C) items
  ∧ BoundedArray.length b = length items `min` retained C
  ∧ BoundedArray.maxSize b = C
  ∧ BoundedArray.overflowed b = bool_decide (C < length items).
Proof.
  intros b. subst b.
  assert (BoundedArray.array (BoundedArray.pushAll (BoundedArray.new C) items).1
          = drop (length items - retained C) items) as Harr.
  { rewrite pushAll_window_any; cbn; [reflexivity|lia]. }
  split; [exact Harr|]. split.
  - unfold BoundedArray.length. rewrite Harr, length_drop. unfold retained. lia.
  - split; [apply pushAll_maxSize|].
    rewrite pushAll_overflowed by (cbn; lia). reflexivity.
Qed.

(** ** File names *)

Lemma chars_length s : length (chars s) = String.length s.
Proof. induction s as [|c s IH]; cbn; [reflexivity|]. rewrite IH. reflexivity. Qed.

Lemma chars_inj s t : chars s = chars t → s = t.
Proof.
  revert t. induction s as [|c s IH]; intros [|d t]; cbn; try discriminate; [reflexivity|].
  intros [= -> H]. f_equal. apply IH, H.
Qed.

Lemma chars_app s t : chars (s +:+ t) = chars s ++ chars t.
Proof. induction s as [|c s IH]; cbn; [reflexivity|]. rewrite <- IH. reflexivity. Qed.

Lemma chars_string_map f s : chars (string_map f s) = map f (chars s).
Proof. induction s as [|c s IH]; cbn; [reflexivity|]. rewrite IH. reflexivity. Qed.

Lemma chars_substring0 n s : chars (substring0 n s) = take n (chars s).
Proof.
  unfold substring0. revert n. induction s as [|c s IH]; intros [|n]; cbn; try reflexivity.
  rewrite IH. reflexivity.
Qed.

Lemma string_app_length s t : String.length (s +:+ t) = String.length s + String.length t.
Proof. rewrite <- !chars_length, chars_app, length_app. reflexivity. Qed.

Lemma substring0_length n s : String.length (substring0 n s) = n `min` String.length s.
Proof. rewrite <- !chars_length, chars_substring0, length_take. reflexivity. Qed.

Lemma string_map_id_on f s :
  Forall (fun c => f c = c) (chars s) → string_map f s = s.
Proof.
  induction s as [|c s IH]; cbn; [reflexivity|].
  intros H. apply Forall_cons in H as [Hc Hs]. rewrite Hc, IH by exact Hs. reflexivity.
Qed.

Lemma substring0_all n s : String.length s ≤ n → substring0 n s = s.
Proof.
  intros Hle. apply chars_inj. rewrite chars_substring0.
  apply take_ge. rewrite chars_length. exact Hle.
Qed.

(** X2. The file name made from a base URL and a tab id is a cleaned base,
    an underscore and the first six characters of the tab id. The cleaned
    base is the first 50 characters of the base URL with each of the nine
    reserved characters replaced, position by position, by an underscore:
    it holds none of them, a base URL of at most 50 characters without
    them is kept as it is, and the whole name has at most 57 characters. *)
Theorem X2_clean_filename (baseUrl : string) (tabId : TabId) :
  ∃ clean,
    getCleanFilenameFromUrl baseUrl tabId = clean +:+ "_" +:+ substring0 6 tabId
    ∧ String.length clean = 50 `min` String.length baseUrl
    ∧ Forall allowedInName (chars clean)
    ∧ (∀ i c, chars clean !! i = Some c →
         ∃ c0, chars baseUrl !! i = Some c0
               ∧ c = if is_reserved_char c0 then underscore else c0)
    ∧ (Forall allowedInName (chars baseUrl) → String.length baseUrl ≤ 50 →
       clean = baseUrl)
    ∧ String.length (getCleanFilenameFromUrl baseUrl tabId) ≤ 57.
Proof.
  set (f := fun c => if is_reserved_char c then underscore else c).
  exists (substring0 50 (string_map f baseUrl)).
  assert (String.length (substring0 50 (string_map f baseUrl)) = 50 `min` String.length baseUrl)
    as Hlen.
  { rewrite substring0_length, <- !chars_length, chars_string_map, length_map. reflexivity. }
  split; [reflexivity|]. split; [exact Hlen|]. split; [|split; [|split]].
  - rewrite chars_substring0, chars_string_map. apply Forall_take, Forall_map.
    apply Forall_forall. intros c _. unfold allowedInName, f. cbn.
    destruct (is_reserved_char c) eqn:E; [vm_compute; reflexivity|exact E].
  - intros i c Hi. rewrite chars_substring0, chars_string_map in Hi.
    apply lookup_take_Some in Hi as [Hi _].
    rewrite list_lookup_fmap in Hi.
    destruct (chars baseUrl !! i) as [c0|]; [|discriminate Hi].
    injection Hi as <-. exists c0. split; reflexivity.
  - intros Hok Hshort.
    rewrite (string_map_id_on f baseUrl).
    + apply substring0_all, Hshort.
    + eapply Forall_impl; [exact Hok|]. intros c Hc. unfold f. rewrite Hc. reflexivity.
  - change (getCleanFilenameFromUrl baseUrl tabId)
      with (substring0 50 (string_map f baseUrl) +:+ "_" +:+ substring0 6 tabId).
    rewrite !string_app_length, Hlen, substring0_length.
    change (String.length "_") with 1. lia.
Qed.

(** A host name is kept as it is. *)
Lemma X2_witness :
  Forall allowedInName (chars "example.com") ∧ String.length "example.com" ≤ 50
  ∧ getCleanFilenameFromUrl "example.com" "ABCDEF0123" = "example.com_ABCDEF".
Proof.
  assert (Forall allowedInName (chars "example.com")) as Hok
    by (repeat constructor).
  assert (String.length "example.com" ≤ 50) as Hlen by (cbn; lia).
  split; [exact Hok|]. split; [exact Hlen|].
  destruct (X2_clean_filename "example.com" "ABCDEF0123") as (clean & Hname & _ & _ & _ & Hid & _).
  rewrite Hname, (Hid Hok Hlen). reflexivity.
Defined.

(** X3. A sanitized tab title, as used in the names of the console files,
    has at most 30 characters, each of them a letter, a digit or an
    underscore; the letters and digits of the first 30 characters of the
    title keep their places. *)
Theorem X3_safe_title (title : string) :
  String.length (safeTitleOf title) = 30 `min` String.length title
  ∧ Forall titleChar (chars (safeTitleOf title))
  ∧ ∀ i c, chars title !! i = Some c → i < 30 →
      chars (safeTitleOf title) !! i = Some (if is_alnum c then c else underscore).
Proof.
  unfold safeTitleOf. split; [|split].
  - rewrite substring0_length, <- !chars_length, chars_string_map, length_map. reflexivity.
  - rewrite chars_substring0, chars_string_map. apply Forall_take, Forall_map.
    apply Forall_forall. intros c _. unfold titleChar. cbn.
    destruct (is_alnum c) eqn:E; [left; exact E|right; reflexivity].
  - intros i c Hi Hlt. rewrite chars_substring0, chars_string_map.
    rewrite lookup_take_lt by exact Hlt. rewrite list_lookup_fmap, Hi. reflexivity.
Qed.

(** ** URL statistics *)

Lemma trackTabBaseUrl_skip env tabId url s :
  url = "" ∨ url = "about:blank" → trackTabBaseUrl env tabId url s = s.
Proof. intros [-> | ->]; reflexivity. Qed.

Lemma trackTabBaseUrl_stats env tabId url s :
  url ≠ "" → url ≠ "about:blank" →
  let baseUrl := extractBaseUrl env url in
  let stats := default (mkUrlStat ∅ None 0 url baseUrl) (tabUrlStats s !! tabId) in
  let count := S (default 0 (urlCounts stats !! baseUrl)) in
  tabUrlStats (trackTabBaseUrl env tabId url s) =
    <[tabId :=
        if bool_decide (maxCount stats < count)
        then mkUrlStat (<[baseUrl := count]> (urlCounts stats)) (Some baseUrl) count url baseUrl
        else mkUrlStat (<[baseUrl := count]> (urlCounts stats)) (primaryBaseUrl stats)
               (maxCount stats) url baseUrl]> (tabUrlStats s).
Proof.
  intros H1 H2. cbv zeta. unfold trackTabBaseUrl.
  apply String.eqb_neq in H1, H2. rewrite H1, H2. cbn [orb].
  destruct (tabUrlStats s !! tabId); reflexivity.
Qed.

(** X4. Tracking a URL of a tab (not empty, not [about:blank], and with a
    host that is not the name of an inherited property) counts its host
    once more, leaves the counts of the other hosts and the statistics of
    the other tabs as they are, records the URL and the host as the last
    ones, and keeps the statistics consistent: the primary host is a host
    that was seen as often as any, and it changes only to the host just
    seen, when that one has now been seen more often than every other. *)
Theorem X4_track_base_url (env : Env) (tabId : TabId) (url : Url) (s : State) :
  url ≠ "" → url ≠ "about:blank" →
  extractBaseUrl env url ∉ inheritedKeys →
  urlStatsOk s →
  let baseUrl := extractBaseUrl env url in
  let s' := trackTabBaseUrl env tabId url s in
  urlStatsOk s'
  ∧ seenCount tabId baseUrl s' = S (seenCount tabId baseUrl s)
  ∧ (∀ h, h ≠ baseUrl → seenCount tabId h s' = seenCount tabId h s)
  ∧ (∀ other, other ≠ tabId → tabUrlStats s' !! other = tabUrlStats s !! other)
  ∧ ∃ st',
      tabUrlStats s' !! tabId = Some st'
      ∧ lastUrl st' = url ∧ lastBaseUrl st' = baseUrl
      ∧ (∀ h, seenCount tabId h s' ≤ maxCount st')
      ∧ (primaryBaseUrl st' = Some baseUrl
         ∨ ∃ st, tabUrlStats s !! tabId = Some st
                 ∧ primaryBaseUrl st' = primaryBaseUrl st
                 ∧ seenCount tabId baseUrl s' ≤ maxCount st).
Proof.
  intros H1 H2 _ Hok baseUrl s'.
  pose proof (trackTabBaseUrl_stats env tabId url s H1 H2) as Hs.
  cbv zeta in Hs. fold baseUrl s' in Hs.
  set (stats := default (mkUrlStat ∅ None 0 url baseUrl) (tabUrlStats s !! tabId)) in *.
  set (count := S (default 0 (urlCounts stats !! baseUrl))) in *.
  set (st' := if bool_decide (maxCount stats < count) then _ else _) in Hs.
  assert (∀ h n, urlCounts stats !! h = Some n → 0 < n ∧ n ≤ maxCount stats) as Hcounts.
  { subst stats. destruct (tabUrlStats s !! tabId) as [st|] eqn:E; cbn.
    - apply (Hok tabId st E).
    - intros h n Hh. rewrite lookup_empty in Hh. discriminate Hh. }
  assert (urlCounts st' = <[baseUrl := count]> (urlCounts stats)) as Hc'
    by (subst st'; case_bool_decide; reflexivity).
  assert (lastUrl st' = url ∧ lastBaseUrl st' = baseUrl) as [Hl1 Hl2]
    by (subst st'; case_bool_decide; split; reflexivity).
  assert (maxCount st' = maxCount stats `max` count) as Hmax
    by (subst st'; case_bool_decide; cbn; lia).
  assert (¬ maxCount stats < count →
          ∃ st, tabUrlStats s !! tabId = Some st ∧ stats = st) as Hold.
  { intros Hlt. subst stats count.
    destruct (tabUrlStats s !! tabId) as [st|]; [eauto|]. cbn in Hlt. lia. }
  assert (urlStatOk st') as Hst'.
  { split.
    - intros h n Hh. rewrite Hc' in Hh. rewrite Hmax.
      destruct (decide (h = baseUrl)) as [->|Hne].
      + rewrite lookup_insert_eq in Hh. injection Hh as <-. subst count. lia.
      + rewrite lookup_insert_ne in Hh by congruence.
        destruct (Hcounts h n Hh). lia.
    - subst st'. case_bool_decide as Hlt; cbn.
      + exists baseUrl. split; [reflexivity|]. apply lookup_insert_eq.
      + destruct (Hold Hlt) as (st & E & Est).
        destruct (Hok tabId st E) as [_ (h & Hp & Hh)].
        rewrite Est. exists h. split; [exact Hp|].
        destruct (decide (h = baseUrl)) as [->|Hne].
        * subst count. rewrite Est, Hh in Hlt. cbn in Hlt. lia.
        * rewrite lookup_insert_ne by congruence. exact Hh. }
  assert (∀ h, seenCount tabId h s' =
               if decide (h = baseUrl) then count else default 0 (urlCounts stats !! h)) as Hseen'.
  { intros h. unfold seenCount. rewrite Hs, lookup_insert_eq, Hc'.
    destruct (decide (h = baseUrl)) as [->|Hne].
    - rewrite lookup_insert_eq. reflexivity.
    - rewrite lookup_insert_ne by congruence. reflexivity. }
  assert (∀ h, seenCount tabId h s = default 0 (urlCounts stats !! h)) as Hseen.
  { intros h. unfold seenCount. subst stats.
    destruct (tabUrlStats s !! tabId); cbn; [reflexivity|].
    rewrite lookup_empty. reflexivity. }
  split; [|split; [|split; [|split]]].
  - intros t st Ht. rewrite Hs in Ht.
    destruct (decide (t = tabId)) as [->|Hne].
    + rewrite lookup_insert_eq in Ht. injection Ht as <-. exact Hst'.
    + rewrite lookup_insert_ne in Ht by congruence. exact (Hok t st Ht).
  - rewrite Hseen', Hseen. rewrite decide_True by reflexivity. reflexivity.
  - intros h Hne. rewrite Hseen', Hseen. rewrite decide_False by exact Hne. reflexivity.
  - intros other Hne. rewrite Hs. apply lookup_insert_ne. congruence.
  - exists st'. split; [rewrite Hs; apply lookup_insert_eq|].
    split; [exact Hl1|]. split; [exact Hl2|]. split.
    + intros h. rewrite Hseen', Hmax. destruct (decide (h = baseUrl)) as [_|_]; [lia|].
      destruct (urlCounts stats !! h) as [k|] eqn:E; cbn; [|lia].
      destruct (Hcounts h k E). lia.
    + rewrite Hseen'. rewrite decide_True by reflexivity.
      subst st'. case_bool_decide as Hlt; cbn; [left; reflexivity|right].
      destruct (Hold Hlt) as (st & E & Est).
      exists st. split; [exact E|]. rewrite Est. split; [reflexivity|]. rewrite <- Est. lia.
Qed.

(** The first URL of a tab, with a host that cannot be parsed. *)
Lemma X4_witness :
  let s' := trackTabBaseUrl okEnv "A" "http://a.example/" startState in
  urlStatsOk startState
  ∧ extractBaseUrl okEnv "http://a.example/" = "unknown-domain"
  ∧ urlStatsOk s'
  ∧ seenCount "A" "unknown-domain" s' = 1.
Proof.
  assert (urlStatsOk startState) as Hok.
  { intros t st Ht. cbn in Ht. rewrite lookup_empty in Ht. discriminate Ht. }
  assert ("http://a.example/" ≠ "") as H1 by discriminate.
  assert ("http://a.example/" ≠ "about:blank") as H2 by discriminate.
  assert (extractBaseUrl okEnv "http://a.example/" ∉ inheritedKeys) as H3.
  { cbn. intros H. repeat (apply elem_of_cons in H as [H|H]; [discriminate H|]).
    apply elem_of_nil in H. exact H. }
  destruct (X4_track_base_url okEnv "A" "http://a.example/" startState H1 H2 H3 Hok)
    as (Hok' & Hseen & _).
  split; [exact Hok|]. split; [reflexivity|]. split; [exact Hok'|exact Hseen].
Defined.

(** ** The captured network data along a session *)

Lemma sameNetwork_refl s : sameNetwork s s.
Proof. repeat split. Qed.

Lemma sameNetwork_trans s1 s2 s3 :
  sameNetwork s1 s2 → sameNetwork s2 s3 → sameNetwork s1 s3.
Proof. unfold sameNetwork. intros (?&?&?&?&?) (?&?&?&?&?). repeat split; congruence. Qed.

Lemma sameCapture_sameNetwork s s' : sameCapture s s' → sameNetwork s s'.
Proof.
  intros (H1 & H2 & _ & H4 & H5 & _ & H7). unfold sameNetwork. rewrite H5. auto.
Qed.

Lemma captureOk_sameNetwork s s' : sameNetwork s s' → captureOk s → captureOk s'.
Proof.
  intros (H1 & H2 & H3 & H4 & H5) (Hb & Hn & He & Hp).
  split; [unfold buffersBounded; rewrite H2; exact Hb|].
  split; [congruence|]. split.
  - intros tabId te r Hin Hr. rewrite H2 in Hin.
    destruct (He tabId te r Hin Hr) as (Hpos & Hle & e & Ho & Hrest).
    split; [exact Hpos|]. split; [congruence|]. exists e. rewrite H4. auto.
  - intros pageId url. specialize (Hp pageId url).
    unfold pendingEntry in *. rewrite H3. exact Hp.
Qed.

Lemma sameNetwork_trackTabBaseUrl env tabId url s :
  sameNetwork s (trackTabBaseUrl env tabId url s).
Proof. unfold trackTabBaseUrl. repeat case_match; repeat split. Qed.

Lemma sameNetwork_onConsoleStart env ce s : sameNetwork s (onConsoleStart env ce s).
Proof. repeat split. Qed.

Lemma sameNetwork_onConsoleStore env i s : sameNetwork s (onConsoleStore env i s).
Proof.
  unfold onConsoleStore. destruct (pendingConsole s !! i) as [pc|]; [|apply sameNetwork_refl].
  unfold readClock. cbn.
  match goal with |- sameNetwork _ (if ?c then flushConsoleLogsForTab _ _ _ ?s4 else _) =>
    assert (sameNetwork s s4) as H4 by (repeat split);
    destruct c; [|exact H4];
    eapply sameNetwork_trans; [exact H4|];
    apply sameCapture_sameNetwork, (quiet_flushConsole env) end.
Qed.

Lemma sameNetwork_onConsoleCatch env pageId errMessage errString s :
  sameNetwork s (onConsoleCatch env pageId errMessage errString s).
Proof.
  unfold onConsoleCatch, readClock. destruct (aget pageId (consoleLogs s)); repeat split.
Qed.

Lemma sameNetwork_onPageError env pageId text message stack s :
  sameNetwork s (onPageError env pageId text message stack s).
Proof. repeat split. Qed.

Lemma sameNetwork_onWarning env pageId text warning s :
  sameNetwork s (onWarning env pageId text warning s).
Proof. repeat split. Qed.

Lemma sameNetwork_onFrameNavigated env pageId isMainFrame url title s :
  sameNetwork s (onFrameNavigated env pageId isMainFrame url title s).
Proof.
  unfold onFrameNavigated. case_match; [|apply sameNetwork_refl].
  pose proof (sameNetwork_trackTabBaseUrl env pageId url s) as H1.
  case_match; [|exact H1].
  eapply sameNetwork_trans; [exact H1|]. repeat split.
Qed.

Lemma sameNetwork_onTargetDestroyed env isPage targetId s :
  sameNetwork s (onTargetDestroyed env isPage targetId s).
Proof. unfold onTargetDestroyed, readClock. repeat case_match; repeat split. Qed.

Lemma elem_of_aset {V} k (v : V) m x : x ∈ aset k v m → x = (k, v) ∨ x ∈ m.
Proof.
  induction m as [|[k0 v0] m IH]; cbn.
  - rewrite list_elem_of_singleton. auto.
  - destruct (String.eqb k k0); rewrite !elem_of_cons; intuition.
Qed.

Lemma captureOk_setup env pageId url title s :
  captureOk s → captureOk (setupPageMonitoring env pageId url title s).
Proof.
  intros Hok.
  pose proof (buffersBounded_setup env pageId url title s (proj1 Hok)) as Hb.
  revert Hb. unfold setupPageMonitoring, readClock. cbn.
  set (s4 := set_consoleLogs _ _).
  assert (sameNetwork s s4) as H4.
  { subst s4. eapply sameNetwork_trans; [apply sameNetwork_trackTabBaseUrl|]. repeat split. }
  pose proof (captureOk_sameNetwork s s4 H4 Hok) as (Hb4 & Hn4 & He4 & Hp4).
  unfold initTabNetworkEvents.
  destruct (aget pageId (networkEvents s4)) as [te|] eqn:Hget; cbn; intros Hb.
  - split; [exact Hb|]. split; [exact Hn4|]. split; [exact He4|exact Hp4].
  - split; [exact Hb|]. split; [exact Hn4|]. split; [|exact Hp4].
    intros tabId te r Hin Hr. apply elem_of_aset in Hin as [Hin|Hin].
    + injection Hin as -> ->. cbn in Hr. apply elem_of_nil in Hr. destruct Hr.
    + exact (He4 tabId te r Hin Hr).
Qed.

Lemma entryOk_later s s' tabId r :
  uniqueRequestId s ≤ uniqueRequestId s' →
  (∀ r0, r0 ≤ uniqueRequestId s → objects s' !! r0 = objects s !! r0) →
  entryOk s tabId r → entryOk s' tabId r.
Proof.
  intros Hle Hsame (Hpos & Hr & e & Ho & Hrest).
  split; [exact Hpos|]. split; [lia|]. exists e. rewrite Hsame by exact Hr. auto.
Qed.

Lemma captureOk_onRequest env rq s :
  captureOk s → captureOk (onRequest env rq s).
Proof.
  intros Hok.
  pose proof (buffersBounded_onRequest env rq s (proj1 Hok)) as Hb'.
  revert Hb'. unfold onRequest.
  set (s1 := match rq_mainFrameUrl rq with Some url => _ | None => s end).
  assert (sameNetwork s s1) as H1.
  { subst s1. destruct (rq_mainFrameUrl rq);
      [apply sameNetwork_trackTabBaseUrl|apply sameNetwork_refl]. }
  pose proof (captureOk_sameNetwork s s1 H1 Hok) as (Hb1 & Hn1 & He1 & Hp1).
  clearbody s1. clear s Hok H1.
  unfold readClock. cbn [fst snd].
  set (id := S (uniqueRequestId s1)).
  set (s3 := set_tick _ (set_uniqueRequestId id s1)).
  assert (buffersBounded s3) as Hb3 by exact Hb1.
  destruct (buffersBounded_init (rq_pageId rq) s3 Hb3) as (Hb4 & Hte & Hget4).
  assert (∀ tabId te r,
            (tabId, te) ∈ networkEvents (initTabNetworkEvents (rq_pageId rq) s3).1 →
            r ∈ allItemsOf te → entryOk s1 tabId r) as He4.
  { unfold initTabNetworkEvents.
    destruct (aget (rq_pageId rq) (networkEvents s3)); cbn; [exact He1|].
    intros tabId te r Hin Hr. apply elem_of_aset in Hin as [Hin|Hin].
    - injection Hin as -> ->. cbn in Hr. apply elem_of_nil in Hr. destruct Hr.
    - exact (He1 tabId te r Hin Hr). }
  assert (objects (initTabNetworkEvents (rq_pageId rq) s3).1 = objects s1
          ∧ requestUrlMaps (initTabNetworkEvents (rq_pageId rq) s3).1 = requestUrlMaps s1
          ∧ uniqueRequestId (initTabNetworkEvents (rq_pageId rq) s3).1 = id
          ∧ ps_networkEvents (progressStats (initTabNetworkEvents (rq_pageId rq) s3).1)
              = uniqueRequestId s1) as (Ho4 & Hm4 & Hu4 & Hps4).
  { unfold initTabNetworkEvents.
    destruct (aget (rq_pageId rq) (networkEvents s3)); cbn; auto. }
  destruct (initTabNetworkEvents (rq_pageId rq) s3) as [s4 tabEvents]. cbn [fst snd] in *.
  destruct tabEvents as [b|items]; [|destruct Hte].
  set (entry := mkEntry _ _ _ _ _ _ _ _ _ _ _ _ _ _).
  match goal with |- buffersBounded (if ?c then flushNetworkEventsForTab _ _ _ ?st else _) → _ =>
    set (cond := c); set (s8 := st) end.
  assert (captureOk s8) as H8.
  { split; [|split; [|split]].
    - unfold buffersBounded. subst s8. cbn.
      apply (aset_Forall withinCapacity); [apply (withinCapacity_push (Bounded b)); exact Hte|exact Hb4].
    - subst s8. cbn. rewrite Hps4, Hu4. reflexivity.
    - intros tabId te r Hin Hr.
      assert (∀ t r0, entryOk s1 t r0 → entryOk s8 t r0) as Hkeep.
      { intros t r0. apply entryOk_later.
        - subst s8. cbn. rewrite Hu4. subst id. lia.
        - intros r1 Hr1. subst s8. cbn. rewrite Ho4.
          apply lookup_insert_ne. subst id. lia. }
      subst s8. cbn in Hin. apply elem_of_aset in Hin as [Hin|Hin].
      + injection Hin as -> ->.
        change (r ∈ BoundedArray.array (BoundedArray.push b id).1) in Hr.
        rewrite push_array in Hr.
        assert (r = id ∨ r ∈ BoundedArray.array b) as [->|Hold].
        { case_bool_decide; apply elem_of_app in Hr as [Hr|Hr].
          - right. exact (subseteq_drop 1 _ r Hr).
          - left. apply list_elem_of_singleton in Hr. exact Hr.
          - right. exact Hr.
          - left. apply list_elem_of_singleton in Hr. exact Hr. }
        * split; [subst id; lia|]. split; [cbn; rewrite Hu4; lia|].
          exists entry. cbn. rewrite lookup_insert_eq. repeat split.
        * apply Hkeep. apply (He4 (rq_pageId rq) (Bounded b) r); [|exact Hold].
          clear -Hget4. revert Hget4.
          induction (networkEvents s4) as [|[k v] m IH]; cbn; [discriminate|].
          destruct (String.eqb (rq_pageId rq) k) eqn:E.
          -- intros [= ->]. apply String.eqb_eq in E as <-. left.
          -- intros H. right. exact (IH H).
      + apply Hkeep. exact (He4 tabId te r Hin Hr).
    - intros pageId url. subst s8. unfold pendingEntry. cbn. rewrite Hm4.
      destruct (decide (pageId = rq_pageId rq)) as [->|Hne].
      + rewrite lookup_insert_eq.
        destruct (decide (url = rq_url rq)) as [->|Hneu].
        * rewrite lookup_insert_eq. reflexivity.
        * rewrite lookup_insert_ne by congruence.
          specialize (Hp1 (rq_pageId rq) url). unfold pendingEntry in Hp1.
          destruct (requestUrlMaps s1 !! rq_pageId rq) as [m|]; cbn; [exact Hp1|].
          rewrite lookup_empty. reflexivity.
      + rewrite lookup_insert_ne by congruence. exact (Hp1 pageId url). }
  intros _. destruct cond; [|exact H8].
  eapply captureOk_sameNetwork; [|exact H8].
  apply sameCapture_sameNetwork, (quiet_flushNetwork env).
Qed.

Lemma captureOk_step env startTime s ev :
  captureOk s → captureOk (step env startTime s ev).
Proof.
  intros Hok.
  assert (∀ s', sameCapture s s' → captureOk s') as Hq
    by (intros s' H; eapply captureOk_sameNetwork; [apply sameCapture_sameNetwork, H|exact Hok]).
  destruct ev; cbn [step].
  - apply captureOk_setup, Hok.
  - apply captureOk_onRequest, Hok.
  - rewrite onResponse_unmatched; [exact Hok|]. apply Hok.
  - eapply captureOk_sameNetwork; [apply sameNetwork_onConsoleStart|exact Hok].
  - eapply captureOk_sameNetwork; [apply sameNetwork_onConsoleStore|exact Hok].
  - eapply captureOk_sameNetwork; [apply sameNetwork_onConsoleCatch|exact Hok].
  - eapply captureOk_sameNetwork; [apply sameNetwork_onPageError|exact Hok].
  - eapply captureOk_sameNetwork; [apply sameNetwork_onWarning|exact Hok].
  - apply Hq, (quiet_flushNetwork env).
  - apply Hq, (quiet_flushConsole env).
  - apply Hq, (quiet_performMemoryCheck env).
  - apply Hq, (quiet_autoSaveTick env).
  - apply Hq, (quiet_saveFinalHarFiles env).
  - apply Hq, (quiet_saveAllConsoleLogs env).
  - apply Hq, sameCapture_onDisconnected.
Qed.

Lemma captureOk_act env startTime s a :
  captureOk s → captureOk (act env startTime s a).
Proof.
  intros Hok. destruct a; cbn [act].
  - apply captureOk_step, Hok.
  - eapply captureOk_sameNetwork; [apply sameNetwork_onFrameNavigated|exact Hok].
  - eapply captureOk_sameNetwork; [apply sameNetwork_onTargetDestroyed|exact Hok].
Qed.

Lemma captureOk_initial dir d t0 : captureOk (initialState dir d t0).
Proof.
  split; [constructor|]. split; [reflexivity|]. split.
  - intros tabId te r Hin. cbn in Hin. apply elem_of_nil in Hin. destruct Hin.
  - intros pageId url. unfold pendingEntry. cbn. rewrite lookup_empty. reflexivity.
Qed.

Lemma captureOk_session env startTime s acts :
  captureOk s → captureOk (session env startTime s acts).
Proof.
  revert s. induction acts as [|a acts IH]; intros s Hok; [exact Hok|].
  cbn. apply IH, captureOk_act, Hok.
Qed.

(** ** Counters *)

Lemma countersOf_sameCapture s s' : sameCapture s s' → countersOf s' = countersOf s.
Proof. intros (H1 & _ & _ & _ & H5 & _). unfold countersOf. rewrite H1, H5. reflexivity. Qed.

Lemma countersOf_trackTabBaseUrl env tabId url s :
  countersOf (trackTabBaseUrl env tabId url s) = countersOf s.
Proof. unfold trackTabBaseUrl. repeat case_match; reflexivity. Qed.

Lemma countersOf_onRequest env rq s :
  countersOf (onRequest env rq s) =
    (S (uniqueRequestId s), S (ps_networkEvents (progressStats s)),
     ps_consoleLogs (progressStats s), ps_errorLogs (progressStats s),
     ps_warningLogs (progressStats s)).
Proof.
  unfold onRequest.
  set (s1 := match rq_mainFrameUrl rq with Some url => _ | None => s end).
  assert (countersOf s1 = countersOf s) as H1.
  { subst s1. destruct (rq_mainFrameUrl rq); [apply countersOf_trackTabBaseUrl|reflexivity]. }
  unfold readClock. cbn [fst snd].
  set (s3 := set_tick _ _).
  assert (countersOf (initTabNetworkEvents (rq_pageId rq) s3).1 = countersOf s3) as H4.
  { unfold initTabNetworkEvents. destruct (aget _ _); reflexivity. }
  destruct (initTabNetworkEvents (rq_pageId rq) s3) as [s4 tabEvents]. cbn [fst snd] in *.
  match goal with |- countersOf (if ?c then flushNetworkEventsForTab _ _ _ ?st else _) = _ =>
    set (cond := c); set (s8 := st) end.
  assert (countersOf s8 =
    (S (uniqueRequestId s), S (ps_networkEvents (progressStats s)),
     ps_consoleLogs (progressStats s), ps_errorLogs (progressStats s),
     ps_warningLogs (progressStats s))) as H8.
  { unfold countersOf in *. subst s8 s3. cbn in *. congruence. }
  destruct cond; [|exact H8].
  rewrite (countersOf_sameCapture s8); [exact H8|]. apply (quiet_flushNetwork env).
Qed.

Lemma countersOf_onConsoleStart env ce s :
  countersOf (onConsoleStart env ce s) =
    (uniqueRequestId s, ps_networkEvents (progressStats s),
     S (ps_consoleLogs (progressStats s)),
     (if bool_decide (ce_type ce = "error") then 1 else 0) + ps_errorLogs (progressStats s),
     (if bool_decide (ce_type ce = "warning") then 1 else 0) + ps_warningLogs (progressStats s)).
Proof.
  unfold onConsoleStart, readClock, countersOf. cbn.
  destruct (String.eqb_spec (ce_type ce) "error") as [He|He];
    destruct (String.eqb_spec (ce_type ce) "warning") as [Hw|Hw];
    repeat case_bool_decide; try congruence; reflexivity.
Qed.

Lemma countersOf_onConsoleStore env i s :
  countersOf (onConsoleStore env i s) = countersOf s.
Proof.
  unfold onConsoleStore. destruct (pendingConsole s !! i) as [pc|]; [|reflexivity].
  unfold readClock. cbn.
  match goal with |- countersOf (if ?c then flushConsoleLogsForTab _ _ _ ?st else _) = _ =>
    destruct c; [|reflexivity];
    rewrite (countersOf_sameCapture st); [reflexivity|apply (quiet_flushConsole env)] end.
Qed.

Lemma countersOf_onConsoleCatch env pageId errMessage errString s :
  countersOf (onConsoleCatch env pageId errMessage errString s) =
    (uniqueRequestId s, ps_networkEvents (progressStats s),
     S (ps_consoleLogs (progressStats s)), S (ps_errorLogs (progressStats s)),
     ps_warningLogs (progressStats s)).
Proof.
  unfold onConsoleCatch, readClock. destruct (aget pageId (consoleLogs s)); reflexivity.
Qed.

Lemma countersOf_step_other env startTime s ev :
  (∀ rq, ev ≠ EvRequest rq) → (∀ ce, ev ≠ EvConsole ce) →
  (∀ pageId m e, ev ≠ EvConsoleCatch pageId m e) →
  (∀ pageId t m st, ev ≠ EvPageError pageId t m st) →
  (∀ pageId t w, ev ≠ EvWarning pageId t w) →
  countersOf (step env startTime s ev) = countersOf s.
Proof.
  intros Hrq Hce Hcatch Hpe Hw.
  event_cases ev;
    cbn [step].
  - unfold setupPageMonitoring, readClock. cbn.
    set (s4 := set_consoleLogs _ _).
    assert (countersOf s4 = countersOf s) as H4.
    { subst s4. unfold countersOf. cbn.
      pose proof (countersOf_trackTabBaseUrl env pageId url s) as H. unfold countersOf in H.
      exact H. }
    unfold initTabNetworkEvents. destruct (aget pageId (networkEvents s4)); exact H4.
  - destruct (Hrq rq eq_refl).
  - unfold onResponse, readClock. repeat case_match; reflexivity.
  - destruct (Hce ce eq_refl).
  - apply countersOf_onConsoleStore.
  - destruct (Hcatch pageId errMessage errString eq_refl).
  - destruct (Hpe pageId txt message stack eq_refl).
  - destruct (Hw pageId txt warning eq_refl).
  - apply countersOf_sameCapture, (quiet_flushNetwork env).
  - apply countersOf_sameCapture, (quiet_flushConsole env).
  - apply countersOf_sameCapture, (quiet_performMemoryCheck env).
  - apply countersOf_sameCapture, (quiet_autoSaveTick env).
  - apply countersOf_sameCapture, (quiet_saveFinalHarFiles env).
  - apply countersOf_sameCapture, (quiet_saveAllConsoleLogs env).
  - apply countersOf_sameCapture, sameCapture_onDisconnected.
Qed.

Lemma countersOf_onFrameNavigated env pageId isMainFrame url title s :
  countersOf (onFrameNavigated env pageId isMainFrame url title s) = countersOf s.
Proof.
  unfold onFrameNavigated. case_match; [|reflexivity].
  pose proof (countersOf_trackTabBaseUrl env pageId url s) as Htrack.
  case_match; exact Htrack.
Qed.

Lemma countersOf_onTargetDestroyed env isPage targetId s :
  countersOf (onTargetDestroyed env isPage targetId s) = countersOf s.
Proof. unfold onTargetDestroyed, readClock. repeat case_match; reflexivity. Qed.

(** X5. Along any session, from any state, the request counter and the
    count of network events each grow by the number of requests handled.
    The count of console logs grows by the number of console messages
    that arrived (each is counted before its handler is suspended,
    whether or not its record is stored later), of page errors, of
    warnings and of runs of the [catch] block of the console handler; the
    count of errors by the number of console messages of type [error], of
    page errors and of runs of the [catch] block; the count of warnings by
    the number of console messages of type [warning] and of warnings. No
    other step of a session (set-up, response, resumption of a console
    handler, navigation, closed tab, flush, memory check, periodic save,
    final save, disconnection) changes them. *)
Theorem X5_session_counters (env : Env) (startTime : Z) (s : State) (acts : list Action) :
  let s' := session env startTime s acts in
  uniqueRequestId s' = uniqueRequestId s + length (requestsOf acts)
  ∧ ps_networkEvents (progressStats s') =
      ps_networkEvents (progressStats s) + length (requestsOf acts)
  ∧ ps_consoleLogs (progressStats s') =
      ps_consoleLogs (progressStats s) + length (consoleEventsOf acts)
      + length (pageErrorsOf acts) + length (warningsOf acts) + length (catchesOf acts)
  ∧ ps_errorLogs (progressStats s') =
      ps_errorLogs (progressStats s) + length (consoleOfType "error" acts)
      + length (pageErrorsOf acts) + length (catchesOf acts)
  ∧ ps_warningLogs (progressStats s') =
      ps_warningLogs (progressStats s) + length (consoleOfType "warning" acts)
      + length (warningsOf acts).
Proof.
  cbv zeta. revert s. induction acts as [|a acts IH]; intros s.
  - cbn. repeat split; lia.
  - change (session env startTime s (a :: acts))
      with (session env startTime (act env startTime s a) acts).
    destruct (IH (act env startTime s a)) as (I1 & I2 & I3 & I4 & I5).
    rewrite I1, I2, I3, I4, I5. clear IH I1 I2 I3 I4 I5.
    assert (requestsOf (a :: acts) = requestsOf [a] ++ requestsOf acts) as Hrq
      by (unfold requestsOf; change (a :: acts) with ([a] ++ acts); apply omap_app).
    assert (consoleEventsOf (a :: acts) = consoleEventsOf [a] ++ consoleEventsOf acts) as Hce
      by (unfold consoleEventsOf; change (a :: acts) with ([a] ++ acts); apply omap_app).
    assert (pageErrorsOf (a :: acts) = pageErrorsOf [a] ++ pageErrorsOf acts) as Hpe
      by (unfold pageErrorsOf; change (a :: acts) with ([a] ++ acts); apply omap_app).
    assert (warningsOf (a :: acts) = warningsOf [a] ++ warningsOf acts) as Hwa
      by (unfold warningsOf; change (a :: acts) with ([a] ++ acts); apply omap_app).
    assert (catchesOf (a :: acts) = catchesOf [a] ++ catchesOf acts) as Hca
      by (unfold catchesOf; change (a :: acts) with ([a] ++ acts); apply omap_app).
    assert (∀ ty, consoleOfType ty (a :: acts) = consoleOfType ty [a] ++ consoleOfType ty acts) as Hty
      by (intros ty; unfold consoleOfType; rewrite Hce, filter_app; reflexivity).
    rewrite Hrq, Hce, Hpe, Hwa, Hca, !Hty, !length_app. clear Hrq Hce Hpe Hwa Hca Hty.
    set (nr := length (requestsOf [a])). set (nc := length (consoleEventsOf [a])).
    set (ne := length (consoleOfType "error" [a])).
    set (nw := length (consoleOfType "warning" [a])).
    set (np := length (pageErrorsOf [a])). set (nv := length (warningsOf [a])).
    set (nk := length (catchesOf [a])).
    assert (countersOf (act env startTime s a) =
      (uniqueRequestId s + nr, ps_networkEvents (progressStats s) + nr,
       ps_consoleLogs (progressStats s) + nc + np + nv + nk,
       ps_errorLogs (progressStats s) + ne + np + nk,
       ps_warningLogs (progressStats s) + nw + nv)) as Hc.
    { subst nr nc ne nw np nv nk.
      destruct a as [ev|pageId isMainFrame url title|isPage targetId]; cbn [act].
      - destruct ev;
          try (rewrite countersOf_step_other by (intros; discriminate);
               unfold countersOf; cbn; repeat f_equal; lia).
        + cbn [step]. rewrite countersOf_onRequest. cbn. repeat f_equal; lia.
        + cbn [step]. rewrite countersOf_onConsoleStart.
          unfold consoleOfType. cbn [consoleEventsOf omap list_omap filter list_filter].
          cbn. repeat case_decide; repeat case_bool_decide; try congruence;
            cbn; repeat f_equal; lia.
        + cbn [step]. rewrite countersOf_onConsoleCatch. cbn. repeat f_equal; lia.
        + unfold countersOf. cbn. repeat f_equal; lia.
        + unfold countersOf. cbn. repeat f_equal; lia.
      - rewrite countersOf_onFrameNavigated. unfold countersOf. cbn. repeat f_equal; lia.
      - rewrite countersOf_onTargetDestroyed. unfold countersOf. cbn. repeat f_equal; lia. }
    clearbody nr nc ne nw np nv nk.
    unfold countersOf in Hc. injection Hc as -> -> -> -> ->.
    repeat split; lia.
Qed.

(** ** The session directory *)

Lemma sessionDir_trackTabBaseUrl env tabId url s :
  sessionDir (trackTabBaseUrl env tabId url s) = sessionDir s.
Proof. unfold trackTabBaseUrl. repeat case_match; reflexivity. Qed.

Lemma sessionDir_initTab tabId s :
  sessionDir (initTabNetworkEvents tabId s).1 = sessionDir s.
Proof. unfold initTabNetworkEvents. destruct (aget _ _); reflexivity. Qed.

Lemma sessionDir_quiet env s s' : quiet env s s' → sessionDir s' = sessionDir s.
Proof. intros (_ & H & _). exact H. Qed.

Lemma sessionDir_onRequest env rq s : sessionDir (onRequest env rq s) = sessionDir s.
Proof.
  unfold onRequest.
  set (s1 := match rq_mainFrameUrl rq with Some url => _ | None => s end).
  assert (sessionDir s1 = sessionDir s) as H1.
  { subst s1. destruct (rq_mainFrameUrl rq); [apply sessionDir_trackTabBaseUrl|reflexivity]. }
  unfold readClock. cbn [fst snd].
  set (s3 := set_tick _ _).
  pose proof (sessionDir_initTab (rq_pageId rq) s3) as H4.
  destruct (initTabNetworkEvents (rq_pageId rq) s3) as [s4 tabEvents]. cbn [fst snd] in *.
  match goal with |- sessionDir (if ?c then flushNetworkEventsForTab _ _ _ ?st else _) = _ =>
    set (cond := c); set (s8 := st) end.
  assert (sessionDir s8 = sessionDir s) as H8 by (subst s8 s3; cbn in *; congruence).
  destruct cond; [|exact H8].
  rewrite (sessionDir_quiet env s8); [exact H8|apply quiet_flushNetwork].
Qed.

Lemma sessionDir_onConsoleStore env i s : sessionDir (onConsoleStore env i s) = sessionDir s.
Proof.
  unfold onConsoleStore. destruct (pendingConsole s !! i) as [pc|]; [|reflexivity].
  unfold readClock. cbn.
  match goal with |- sessionDir (if ?c then flushConsoleLogsForTab _ _ _ ?st else _) = _ =>
    destruct c; [|reflexivity];
    rewrite (sessionDir_quiet env st); [reflexivity|apply quiet_flushConsole] end.
Qed.

Lemma sessionDir_onConsoleCatch env pageId errMessage errString s :
  sessionDir (onConsoleCatch env pageId errMessage errString s) = sessionDir s.
Proof.
  unfold onConsoleCatch, readClock. destruct (aget pageId (consoleLogs s)); reflexivity.
Qed.

Lemma sessionDir_act env startTime s a :
  is_Some (sessionDir s) → is_Some (sessionDir (act env startTime s a)).
Proof.
  intros Hs.
  assert (∀ s', sessionDir s' = sessionDir s → is_Some (sessionDir s')) as Heq
    by (intros s' ->; exact Hs).
  destruct a as [ev|pageId isMainFrame url title|isPage targetId]; cbn [act].
  - destruct ev; cbn [step].
    + apply Heq. unfold setupPageMonitoring, readClock. cbn.
      rewrite sessionDir_initTab. cbn. apply sessionDir_trackTabBaseUrl.
    + apply Heq, sessionDir_onRequest.
    + apply Heq. unfold onResponse, readClock. repeat case_match; reflexivity.
    + apply Heq. reflexivity.
    + apply Heq, sessionDir_onConsoleStore.
    + apply Heq, sessionDir_onConsoleCatch.
    + apply Heq. reflexivity.
    + apply Heq. reflexivity.
    + apply Heq, (sessionDir_quiet env), quiet_flushNetwork.
    + apply Heq, (sessionDir_quiet env), quiet_flushConsole.
    + apply Heq, (sessionDir_quiet env), quiet_performMemoryCheck.
    + apply Heq, (sessionDir_quiet env), quiet_autoSaveTick.
    + apply Heq, (sessionDir_quiet env), quiet_saveFinalHarFiles.
    + apply Heq, (sessionDir_quiet env), quiet_saveAllConsoleLogs.
    + unfold onDisconnected.
      destruct (ensureSessionDir_spec env s) as (_ & _ & H0).
      set (s0 := ensureSessionDir env s) in *.
      pose proof (sessionDir_quiet env _ _ (quiet_performMemoryCheck env true s0)) as E1.
      set (s1 := performMemoryCheck env true s0) in *.
      pose proof (sessionDir_quiet env _ _ (quiet_saveFinalHarFiles env s1)) as E2.
      set (s2 := saveFinalHarFiles env s1) in *.
      pose proof (sessionDir_quiet env _ _ (quiet_saveAllConsoleLogs env s2)) as E3.
      set (s3 := saveAllConsoleLogs env s2) in *.
      rewrite <- E1, <- E2, <- E3 in H0.
      destruct H0 as [dir Hdir].
      destruct (writeSummary_spec env startTime s3 dir Hdir) as (_ & Hd & _).
      rewrite Hd. eauto.
  - apply Heq. unfold onFrameNavigated. case_match; [|reflexivity].
    case_match; cbn; apply sessionDir_trackTabBaseUrl.
  - apply Heq. unfold onTargetDestroyed, readClock. repeat case_match; reflexivity.
Qed.

Lemma sessionDir_session env startTime s acts :
  is_Some (sessionDir s) → is_Some (sessionDir (session env startTime s acts)).
Proof.
  revert s. induction acts as [|a acts IH]; intros s Hs; [exact Hs|].
  cbn. apply IH, sessionDir_act, Hs.
Qed.

(** ** Responses and buffered entries in a session *)

(** X6. In every session that starts from the initial state, the
    pending-match index never holds an entry object: the request handler
    stores [tabEvents[tabEvents.length - 1]], which is undefined for the
    [BoundedArray] that holds a tab's events. Every response therefore
    finds no entry to complete and leaves the whole state as it is. *)
Theorem X6_responses_never_recorded
    (env : Env) (startTime : Z) (dir : Path) (d : Disk) (t0 : Z)
    (acts : list Action) (rs : ResponseEvent) :
  let s := session env startTime (initialState dir d t0) acts in
  (∀ pageId url, pendingEntry pageId url s = None)
  ∧ onResponse env rs s = s.
Proof.
  intros s.
  pose proof (captureOk_session env startTime _ acts (captureOk_initial dir d t0))
    as (_ & _ & _ & Hp).
  fold s in Hp. split; [exact Hp|]. apply onResponse_unmatched, Hp.
Qed.

(** X7. In every session that starts from the initial state, every
    reference buffered for a tab is a number the request counter has
    given out, and the entry object behind it exists, carries that number
    as its request id and the tab as its page reference, and still has the
    zero-valued response and time it was created with. *)
Theorem X7_buffered_entries
    (env : Env) (startTime : Z) (dir : Path) (d : Disk) (t0 : Z) (acts : list Action) :
  let s := session env startTime (initialState dir d t0) acts in
  Forall (fun tab => Forall (entryOk s tab.1) (allItemsOf tab.2)) (networkEvents s).
Proof.
  intros s.
  pose proof (captureOk_session env startTime _ acts (captureOk_initial dir d t0))
    as (_ & _ & He & _).
  fold s in He. apply Forall_forall. intros [tabId te] Hin.
  apply Forall_forall. intros r Hr. exact (He tabId te r Hin Hr).
Qed.

(** ** The final HAR files *)

Lemma harEntries_createHarFile objs refs pgs :
  harEntries (createHarFile objs refs pgs) = Some (map formatEntry (deref objs refs)).
Proof. reflexivity. Qed.

Lemma deref_resolved objs refs (P : Entry → Prop) :
  Forall (fun r => ∃ e, objs !! r = Some e ∧ P e) refs →
  length (deref objs refs) = length refs ∧ Forall P (deref objs refs).
Proof.
  unfold deref. induction 1 as [|r refs (e & Hr & He) _ [IH1 IH2]]; cbn.
  - split; [reflexivity|constructor].
  - rewrite Hr. cbn. split; [rewrite IH1; reflexivity|constructor; assumption].
Qed.

(** A reported write of a document to which compression does not apply:
    the write of the path and, when it fails, the write of the backup
    path, both of the same document. *)
Lemma writeAndReport_attempts env p data s :
  compressionApplies data = false → data ≠ JNull →
  ∃ ok ok2,
    newAttempts s (writeAndReport env p data s) =
      mkAttempt (WriteFile p data) ok
        :: (if ok then [] else [mkAttempt (WriteFile (p +:+ ".backup") data) ok2]).
Proof.
  intros Hc Hnull. unfold writeAndReport, writeCompressedFile.
  unfold compressionApplies in Hc. rewrite Hc. unfold attempt, caught.
  destruct data; try congruence; cbn;
    repeat case_match; simplify_eq; cbn;
    first [ exists true, true; new_attempts_goal; reflexivity
          | exists false, true; new_attempts_goal; reflexivity
          | exists false, false; new_attempts_goal; reflexivity ].
Qed.

Lemma saveTabHar_noEntries env harDir s tabId b :
  Forall writesNoEntries (newAttempts s (saveTabHar env harDir s (tabId, Bounded b))).
Proof.
  unfold saveTabHar. case_bool_decide.
  { unfold newAttempts. rewrite drop_all. constructor. }
  assert (∀ s1 tabInfo, disk s1 = disk s →
    Forall writesNoEntries
      (newAttempts s
         (writeAndReport env (finalHarPath harDir tabId s1)
            (createHarFile (objects s1) (eventsArrayOf (Bounded b)) [tabInfo]) s1))) as Hw.
  { intros s1 tabInfo Hd.
    destruct (writeAndReport_attempts env (finalHarPath harDir tabId s1)
                (createHarFile (objects s1) (eventsArrayOf (Bounded b)) [tabInfo]) s1
                eq_refl ltac:(discriminate)) as (ok & ok2 & Hn).
    unfold newAttempts in *. rewrite <- Hd, Hn.
    destruct ok; repeat constructor. }
  destruct (aget tabId (pages s)) as [p|]; [apply Hw; reflexivity|].
  unfold readClock. cbn [fst snd]. apply Hw. reflexivity.
Qed.

Lemma fold_saveTabHar_noEntries env harDir tabs s :
  Forall (fun tab => withinCapacity tab.2) tabs →
  Forall writesNoEntries (newAttempts s (fold_left (saveTabHar env harDir) tabs s)).
Proof.
  intros Htabs. revert s. induction Htabs as [|[tabId te] tabs Hte _ IH]; intros s.
  { cbn. unfold newAttempts. rewrite drop_all. constructor. }
  cbn [fold_left].
  pose proof (quiet_saveTabHar env harDir s (tabId, te)) as (_ & _ & T1).
  assert (trail env (saveTabHar env harDir s (tabId, te))
            (fold_left (saveTabHar env harDir) tabs (saveTabHar env harDir s (tabId, te)))) as T2.
  { apply quiet_fold. intros. apply quiet_saveTabHar. }
  rewrite (newAttempts_trans env _ _ _ T1 T2). apply Forall_app. split; [|apply IH].
  destruct te as [b|items]; [|destruct Hte]. apply saveTabHar_noEntries.
Qed.

(** The attempts of [saveFinalHarFiles]: what comes before the combined
    file carries no entry, and the combined document is written last. *)
Lemma saveFinalHarFiles_shape env s dir :
  sessionDir s = Some dir → buffersBounded s →
  ∃ front ok ok2,
    newAttempts s (saveFinalHarFiles env s) =
      front ++ mkAttempt (WriteFile (combinedHarPath dir) (combinedHarDocument s)) ok
        :: (if ok then []
            else [mkAttempt (WriteFile (combinedHarPath dir +:+ ".backup")
                               (combinedHarDocument s)) ok2])
    ∧ Forall writesNoEntries front
    ∧ (∀ tabId te, (tabId, te) ∈ networkEvents s → events_length te ≠ 0 →
         ∃ harDir data ok',
           mkAttempt (WriteFile (finalHarPath harDir tabId s) data) ok' ∈ front).
Proof.
  intros Hdir Hb. unfold saveFinalHarFiles. rewrite Hdir.
  assert (∀ harDir s0, quiet env s s0 → Forall writesNoEntries (newAttempts s s0) →
    let s1 := fold_left (saveTabHar env harDir) (networkEvents s0) s0 in
    let allEvents := flat_map (fun tab => allItemsOf tab.2) (networkEvents s1) in
    let combinedHarData := createHarFile (objects s1) allEvents (map snd (pages s1)) in
    let s' := writeAndReport env (combinedHarPath dir) combinedHarData s1 in
    ∃ front ok ok2,
      newAttempts s s' =
        front ++ mkAttempt (WriteFile (combinedHarPath dir) (combinedHarDocument s)) ok
          :: (if ok then []
              else [mkAttempt (WriteFile (combinedHarPath dir +:+ ".backup")
                                 (combinedHarDocument s)) ok2])
      ∧ Forall writesNoEntries front
      ∧ (∀ tabId te, (tabId, te) ∈ networkEvents s → events_length te ≠ 0 →
           ∃ data ok',
             mkAttempt (WriteFile (finalHarPath harDir tabId s) data) ok' ∈ front)) as Hrest.
  { intros harDir s0 (C0 & D0 & T0) H0. cbv zeta.
    set (s1 := fold_left (saveTabHar env harDir) (networkEvents s0) s0).
    assert (quiet env s0 s1) as (C1 & _ & T1) by (apply quiet_fold; intros; apply quiet_saveTabHar).
    assert (createHarFile (objects s1)
              (flat_map (fun tab => allItemsOf tab.2) (networkEvents s1)) (map snd (pages s1))
            = combinedHarDocument s) as ->.
    { pose proof (sameCapture_trans _ _ _ C0 C1) as (_ & Hn & Hp & _ & _ & _ & Ho).
      unfold combinedHarDocument. rewrite Hn, Hp, Ho. reflexivity. }
    assert (trail env s1 (writeAndReport env (combinedHarPath dir) (combinedHarDocument s) s1)) as T2
      by (apply quiet_writeAndReport, docStamped_har).
    destruct (writeAndReport_attempts env (combinedHarPath dir) (combinedHarDocument s) s1
                eq_refl ltac:(discriminate)) as (ok & ok2 & Hn).
    exists (newAttempts s s0 ++ newAttempts s0 s1), ok, ok2.
    pose proof C0 as (_ & Hn0 & _).
    split; [|split].
    - rewrite (newAttempts_trans env s s1 _ (trail_trans env _ _ _ T0 T1) T2).
      rewrite (newAttempts_trans env s s0 s1 T0 T1), Hn. reflexivity.
    - apply Forall_app. split; [exact H0|].
      apply fold_saveTabHar_noEntries. rewrite Hn0. exact Hb.
    - intros tabId te Hin Hne. rewrite <- Hn0 in Hin.
      destruct (fold_saveTabHar_writes env harDir (networkEvents s0) s0 tabId te Hin Hne)
        as (data & ok' & Ha).
      exists data, ok'.
      rewrite (finalHarPath_sameCapture harDir tabId s s0 C0) in Ha.
      apply elem_of_app. right. exact Ha. }
  assert (∀ harDir s0, quiet env s s0 → Forall writesNoEntries (newAttempts s s0) →
    ∃ front ok ok2,
      newAttempts s
        (writeAndReport env (combinedHarPath dir)
           (createHarFile
              (objects (fold_left (saveTabHar env harDir) (networkEvents s0) s0))
              (flat_map (fun tab => allItemsOf tab.2)
                 (networkEvents (fold_left (saveTabHar env harDir) (networkEvents s0) s0)))
              (map snd (pages (fold_left (saveTabHar env harDir) (networkEvents s0) s0))))
           (fold_left (saveTabHar env harDir) (networkEvents s0) s0)) =
        front ++ mkAttempt (WriteFile (combinedHarPath dir) (combinedHarDocument s)) ok
          :: (if ok then []
              else [mkAttempt (WriteFile (combinedHarPath dir +:+ ".backup")
                                 (combinedHarDocument s)) ok2])
      ∧ Forall writesNoEntries front
      ∧ (∀ tabId te, (tabId, te) ∈ networkEvents s → events_length te ≠ 0 →
           ∃ harDir data ok',
             mkAttempt (WriteFile (finalHarPath harDir tabId s) data) ok' ∈ front)) as Hrest'.
  { intros harDir s0 Hq H0.
    destruct (Hrest harDir s0 Hq H0) as (front & ok & ok2 & Hn & Hf & Ht).
    exists front, ok, ok2. split; [exact Hn|]. split; [exact Hf|].
    intros tabId te Hin Hne. exists harDir. exact (Ht tabId te Hin Hne). }
  clear Hrest.
  assert (Forall writesNoEntries (newAttempts s s)) as Hnil
    by (unfold newAttempts; rewrite drop_all; constructor).
  destruct (existsSync _ (disk s)).
  - apply Hrest'; [apply quiet_refl|exact Hnil].
  - destruct (attempt env (Mkdir _) (disk s)) as [[|] d0] eqn:E;
      assert (d0 = (attempt env (Mkdir (path_join dir "final_har_files")) (disk s)).2) as ->
        by (rewrite E; reflexivity).
    + apply Hrest'; [apply quiet_attempt_mkdir|].
      unfold newAttempts, attempt. cbn. rewrite drop_length_app. repeat constructor.
    + apply Hrest'; [eapply quiet_trans; [apply quiet_attempt_mkdir|apply quiet_caught]|].
      unfold newAttempts, attempt, caught. cbn. rewrite drop_length_app. repeat constructor.
Qed.

Lemma combinedHarDocument_entries s :
  captureOk s →
  ∃ entries,
    harEntries (combinedHarDocument s) = Some entries
    ∧ length entries = totalBuffered (networkEvents s)
    ∧ Forall showsNoResponse entries.
Proof.
  intros (_ & _ & He & _).
  exists (map formatEntry (deref (objects s)
            (flat_map (fun tab => allItemsOf tab.2) (networkEvents s)))).
  split; [reflexivity|].
  destruct (deref_resolved (objects s)
              (flat_map (fun tab => allItemsOf tab.2) (networkEvents s))
              (fun e => response e = emptyResponse)) as [Hlen Hall].
  { apply Forall_flat_map, Forall_forall. intros [tabId te] Hin.
    apply Forall_forall. intros r Hr.
    destruct (He tabId te r Hin Hr) as (_ & _ & e & Ho & _ & _ & Hresp & _).
    exists e. split; assumption. }
  split.
  - rewrite length_map, Hlen, length_flat_map. unfold totalBuffered.
    rewrite list_sum_sum_list. f_equal. apply map_ext. intros [tabId te].
    destruct te; reflexivity.
  - apply Forall_map. eapply Forall_impl; [exact Hall|].
    intros e Hresp. unfold showsNoResponse. cbn. rewrite Hresp. reflexivity.
Qed.

(** X8. In every session that starts from the initial state, the final
    save writes the combined document to [network_all.har] in the session
    directory and, only if that write fails, to its [.backup] path, after
    everything else it writes. The document holds one entry for every
    request still buffered, over all tabs, and every one of these entries
    shows the zero-valued response. *)
Theorem X8_combined_har_complete
    (env : Env) (startTime : Z) (dir : Path) (d : Disk) (t0 : Z) (acts : list Action) :
  let s := session env startTime (initialState dir d t0) acts in
  ∃ dir' front ok ok2 entries,
    sessionDir s = Some dir'
    ∧ newAttempts s (saveFinalHarFiles env s) =
        front ++ mkAttempt (WriteFile (combinedHarPath dir') (combinedHarDocument s)) ok
          :: (if ok then []
              else [mkAttempt (WriteFile (combinedHarPath dir' +:+ ".backup")
                                 (combinedHarDocument s)) ok2])
    ∧ harEntries (combinedHarDocument s) = Some entries
    ∧ length entries = totalBuffered (networkEvents s)
    ∧ Forall showsNoResponse entries.
Proof.
  intros s.
  pose proof (captureOk_session env startTime _ acts (captureOk_initial dir d t0)) as Hok.
  fold s in Hok.
  destruct (sessionDir_session env startTime (initialState dir d t0) acts) as [dir' Hdir];
    [cbn; eauto|]. fold s in Hdir.
  destruct (saveFinalHarFiles_shape env s dir' Hdir (proj1 Hok))
    as (front & ok & ok2 & Hn & _ & _).
  destruct (combinedHarDocument_entries s Hok) as (entries & He & Hlen & Hresp).
  exists dir', front, ok, ok2, entries. auto.
Qed.

(** X9. In every session that starts from the initial state, nothing the
    final save writes before the combined document holds an entry: the
    file of each tab in [final_har_files] is written from the tab's
    [BoundedArray], which [createHarFile] takes for neither an array nor a
    [Map], so its list of entries is empty however many requests the tab
    has buffered. *)
Theorem X9_tab_har_files_hold_no_entries
    (env : Env) (startTime : Z) (dir : Path) (d : Disk) (t0 : Z) (acts : list Action) :
  let s := session env startTime (initialState dir d t0) acts in
  ∃ dir' front ok ok2,
    sessionDir s = Some dir'
    ∧ newAttempts s (saveFinalHarFiles env s) =
        front ++ mkAttempt (WriteFile (combinedHarPath dir') (combinedHarDocument s)) ok
          :: (if ok then []
              else [mkAttempt (WriteFile (combinedHarPath dir' +:+ ".backup")
                                 (combinedHarDocument s)) ok2])
    ∧ Forall writesNoEntries front
    ∧ Forall (fun tab =>
                events_length tab.2 ≠ 0 →
                ∃ harDir data ok',
                  mkAttempt (WriteFile (finalHarPath harDir tab.1 s) data) ok' ∈ front)
        (networkEvents s).
Proof.
  intros s.
  pose proof (captureOk_session env startTime _ acts (captureOk_initial dir d t0)) as Hok.
  fold s in Hok.
  destruct (sessionDir_session env startTime (initialState dir d t0) acts) as [dir' Hdir];
    [cbn; eauto|]. fold s in Hdir.
  destruct (saveFinalHarFiles_shape env s dir' Hdir (proj1 Hok))
    as (front & ok & ok2 & Hn & Hfront & Htabs).
  exists dir', front, ok, ok2.
  split; [exact Hdir|]. split; [exact Hn|]. split; [exact Hfront|].
  apply Forall_forall. intros [tabId te] Hin Hne. exact (Htabs tabId te Hin Hne).
Qed.

(** ** The periodic save *)

Lemma sampleLoop_bounded total tabs acc :
  Forall (fun tab => withinCapacity tab.2) tabs →
  sampleLoop total tabs acc =
    if existsb (hasShare total) tabs then inl sliceError else inr acc.
Proof.
  induction 1 as [|[tabId te] tabs Hte _ IH]; [reflexivity|].
  destruct te as [b|items]; [|destruct Hte].
  cbn [sampleLoop existsb]. unfold hasShare at 1. cbn [snd].
  repeat case_bool_decide; cbn [andb orb]; try exact IH. reflexivity.
Qed.

Lemma noWrite_refl s : noWriteAttempted s s.
Proof. unfold noWriteAttempted, newAttempts. rewrite drop_all. constructor. Qed.

Lemma noWrite_trans env s1 s2 s3 :
  trail env s1 s2 → trail env s2 s3 →
  noWriteAttempted s1 s2 → noWriteAttempted s2 s3 → noWriteAttempted s1 s3.
Proof.
  intros T12 T23 H12 H23. unfold noWriteAttempted.
  rewrite (newAttempts_trans env s1 s2 s3 T12 T23). apply Forall_app. auto.
Qed.

Lemma noWrite_sameDisk s s' : disk s' = disk s → noWriteAttempted s s'.
Proof.
  intros Hd. unfold noWriteAttempted, newAttempts. rewrite Hd, drop_all. constructor.
Qed.

Lemma partialFlushTab_noWrite env s tab :
  noWriteAttempted s (partialFlushTab env s tab).
Proof.
  unfold partialFlushTab.
  destruct (bool_decide (partialFlushThreshold ≤ events_length tab.2)).
  - apply flushNetwork_no_write.
  - apply noWrite_refl.
Qed.

Lemma partialFlushTab_quiet env s tab : quiet env s (partialFlushTab env s tab).
Proof.
  unfold partialFlushTab.
  destruct (bool_decide (partialFlushThreshold ≤ events_length tab.2)).
  - apply quiet_flushNetwork.
  - apply quiet_refl.
Qed.

Lemma partialFlushes_quiet env tabs s :
  quiet env s (fold_left (partialFlushTab env) tabs s).
Proof. apply quiet_fold. intros. apply partialFlushTab_quiet. Qed.

Lemma noWrite_fold {B} env (f : State → B → State) (l : list B) s :
  (∀ s x, quiet env s (f s x)) → (∀ s x, noWriteAttempted s (f s x)) →
  noWriteAttempted s (fold_left f l s).
Proof.
  intros Hq Hn. revert s. induction l as [|x l IH]; intros s; [apply noWrite_refl|].
  cbn [fold_left].
  pose proof (Hq s x) as (_ & _ & T1).
  pose proof (quiet_fold env f l (f s x) Hq) as (_ & _ & T2).
  exact (noWrite_trans env _ _ _ T1 T2 (Hn s x) (IH (f s x))).
Qed.

Lemma partialFlushes_noWrite env tabs s :
  noWriteAttempted s (fold_left (partialFlushTab env) tabs s).
Proof.
  apply (noWrite_fold env); [apply partialFlushTab_quiet|apply partialFlushTab_noWrite].
Qed.

(** C7. The sample of the periodic save is never taken from a tab's
    buffer. The buffers are [BoundedArray]s, which have no [slice] method:
    as soon as the loop reaches a tab whose share of the sample is not
    zero, the call [tabEvents.slice(startIndex)] raises a [TypeError] and
    no source contributes anything. The share itself is
    [min(count, floor(1000 * count / ingested))]: for tab A with 1000 and
    tab B with 3000 entries out of 4000 ingested, 250 and 750. *)
Theorem C7_sample_stops_on_slice (s : State) (tabId : TabId) (te : TabEvents) :
  buffersBounded s →
  (tabId, te) ∈ networkEvents s →
  0 < tabSampleSize (events_length te) (ps_networkEvents (progressStats s)) →
  autoSaveSample s = inl (TypeError "tabEvents.slice is not a function")
  ∧ (∀ len total, 0 < total →
       tabSampleSize len total = len `min` (1000 * len / total)).
Proof.
  intros Hb Hin Hshare. split; [|intros len total; apply tabSampleSize_nat].
  unfold autoSaveSample. rewrite (sampleLoop_bounded _ _ [] Hb).
  replace (existsb _ _) with true; [reflexivity|].
  symmetry. apply existsb_exists. exists (tabId, te). split.
  - apply list_elem_of_In. exact Hin.
  - unfold hasShare. cbn [snd].
    pose proof (tabSampleSize_le (events_length te) (ps_networkEvents (progressStats s))).
    rewrite !bool_decide_true by lia. reflexivity.
Qed.

(** The two tabs of the scenario, after a session of 1000 requests of tab
    A and 3000 of tab B. *)
Lemma C7_witness :
  let bufferA := Bounded (BoundedArray.mk bufferCapacity (seq 1 1000) false) in
  buffersBounded twoTabsState
  ∧ ("A", bufferA) ∈ networkEvents twoTabsState
  ∧ 0 < tabSampleSize (events_length bufferA) (ps_networkEvents (progressStats twoTabsState))
  ∧ map (fun tab => (tab.1, events_length tab.2)) (networkEvents twoTabsState)
      = [("A", 1000); ("B", 3000)]
  ∧ tabSampleSize 1000 4000 = 250
  ∧ tabSampleSize 3000 4000 = 750
  ∧ autoSaveSample twoTabsState = inl (TypeError "tabEvents.slice is not a function").
Proof.
  intros bufferA.
  assert ((let s := twoTabsState in
           (aget "A" (networkEvents s),
            map (fun tab => (tab.1, events_length tab.2)) (networkEvents s),
            ps_networkEvents (progressStats s)))
          = (Some bufferA, [("A", 1000); ("B", 3000)], 4000)) as Hrun
    by (vm_compute; reflexivity).
  cbv zeta in Hrun.
  apply pair_equal_spec in Hrun as [Hrun Hcount].
  apply pair_equal_spec in Hrun as [Hget Hlengths].
  assert (buffersBounded twoTabsState) as Hb
    by (apply buffersBounded_run; constructor).
  assert (("A", bufferA) ∈ networkEvents twoTabsState) as Hin
    by (apply aget_elem_of; exact Hget).
  assert (0 < tabSampleSize (events_length bufferA)
                (ps_networkEvents (progressStats twoTabsState))) as Hshare
    by (rewrite Hcount; apply Nat.ltb_lt; vm_compute; reflexivity).
  split; [exact Hb|]. split; [exact Hin|]. split; [exact Hshare|].
  split; [exact Hlengths|].
  split; [vm_compute; reflexivity|]. split; [vm_compute; reflexivity|].
  exact (proj1 (C7_sample_stops_on_slice twoTabsState "A" bufferA Hb Hin Hshare)).
Defined.

(** X10. In every session that starts from the initial state the sample
    of the periodic save never holds an entry. Either some tab with
    buffered entries has a share of the sample that is not zero: then the
    loop stops on the [slice] method that a [BoundedArray] does not have,
    the callback reports the error and writes neither the partial HAR file
    nor the status file. Or no tab has such a share, and the sample is
    empty. *)
Theorem X10_periodic_sample_is_empty
    (env : Env) (startTime : Z) (dir : Path) (d : Disk) (t0 : Z) (acts : list Action) :
  let s := session env startTime (initialState dir d t0) acts in
  let total := ps_networkEvents (progressStats s) in
  (existsb (hasShare total) (networkEvents s) = true
   ∧ autoSaveSample s = inl sliceError
   ∧ noWriteAttempted s (autoSaveTick env startTime s)
   ∧ last (errors (autoSaveTick env startTime s)) = Some sliceError)
  ∨ (existsb (hasShare total) (networkEvents s) = false
     ∧ autoSaveSample s = inr []).
Proof.
  intros s total.
  pose proof (captureOk_session env startTime _ acts (captureOk_initial dir d t0)) as Hok.
  fold s in Hok. destruct Hok as (Hb & _).
  destruct (sessionDir_session env startTime (initialState dir d t0) acts) as [dir' Hdir];
    [cbn; eauto|]. fold s in Hdir.
  assert (autoSaveSample s =
          if existsb (hasShare total) (networkEvents s) then inl sliceError else inr []) as Hs.
  { unfold autoSaveSample. fold total. rewrite (sampleLoop_bounded total _ [] Hb).
    destruct (existsb _ _); reflexivity. }
  destruct (existsb (hasShare total) (networkEvents s)) eqn:E; [left|right; auto].
  split; [reflexivity|]. split; [exact Hs|].
  unfold autoSaveTick. rewrite Hdir. unfold readClock. cbn [fst snd].
  set (s0 := set_tick (S (tick s)) s).
  pose proof (partialFlushes_noWrite env (networkEvents s0) s0) as N1.
  pose proof (partialFlushes_quiet env (networkEvents s0) s0) as Q1.
  set (s1 := fold_left (partialFlushTab env) (networkEvents s0) s0) in *.
  assert (autoSaveSample s1 = inl sliceError) as ->.
  { destruct Q1 as ((_ & Hn & _ & _ & Hp & _) & _).
    unfold autoSaveSample. rewrite Hn, Hp. exact Hs. }
  pose proof (quiet_set_tick env s) as (_ & _ & T0). fold s0 in T0.
  pose proof Q1 as (_ & _ & T1).
  pose proof (quiet_caught env sliceError s1) as (_ & _ & T2).
  assert (noWriteAttempted s s0) as N0 by (apply noWrite_sameDisk; reflexivity).
  assert (noWriteAttempted s1 (caught sliceError s1)) as N2
    by (apply noWrite_sameDisk; reflexivity).
  split.
  - exact (noWrite_trans env _ _ _ (trail_trans env _ _ _ T0 T1) T2
             (noWrite_trans env _ _ _ T0 T1 N0 N1) N2).
  - cbn. apply last_snoc.
Qed.

(** ** Console flushes *)

(** X11. A console flush that is due (forced, or the tab has reached the
    threshold of 500 records) has one of two outcomes. Either the flush
    file is written: it is the last attempt, its document holds exactly
    the tab's records, in order, under the next sequence number; the
    tab's record is emptied, the tab's count of flushed records grows by
    the number of records written and the count of flushes by one. Or
    the flush directory or the flush file could not be written: then no
    file is written, the records stay in memory, the flush statistics are
    unchanged and the failure is reported, so that the next flush
    retries with the same records and those that arrive in between. *)
Theorem X11_console_flush_outcomes
    (env : Env) (tabId : TabId) (force : bool) (s : State) (dir : Path) (tabLogs : TabLogs) :
  sessionDir s = Some dir →
  aget tabId (consoleLogs s) = Some tabLogs →
  force = true ∨ maxLogsPerTabBeforeFlush ≤ length (logs tabLogs) →
  let s' := flushConsoleLogsForTab env tabId force s in
  let n := tabFlushCountOf tabId s in
  let path := consoleFlushPath dir tabId tabLogs n in
  (∃ now,
     last (history (disk s')) =
       Some (mkAttempt (WriteFile path (flushDocument now tabId tabLogs (n + 1))) true)
     ∧ get_field "entries" (flushDocument now tabId tabLogs (n + 1))
         = Some (JArr (map jsonOfRecord (logs tabLogs)))
     ∧ get_field "flushSequence" (flushDocument now tabId tabLogs (n + 1)) = Some (JNat (n + 1))
     ∧ consoleLogs s' = aset tabId (afterFlush tabLogs path) (consoleLogs s)
     ∧ tabFlushCountOf tabId s' = n + length (logs tabLogs)
     ∧ (∀ other, other ≠ tabId → tabFlushCountOf other s' = tabFlushCountOf other s)
     ∧ consoleLogFlushes (flushStats s') = S (consoleLogFlushes (flushStats s))
     ∧ errors s' = errors s)
  ∨ (wroteNothing s s'
     ∧ consoleLogs s' = consoleLogs s
     ∧ flushStats s' = flushStats s
     ∧ ∃ p, errors s' = errors s ++ [IOError p]).
Proof.
  intros Hdir Hget Hdue s' n path. subst s'.
  assert (bool_decide (length (logs tabLogs) < maxLogsPerTabBeforeFlush) && negb force = false)
    as Hcond.
  { destruct Hdue as [->|Hle]; [apply andb_false_r|].
    rewrite bool_decide_false by lia. reflexivity. }
  unfold flushConsoleLogsForTab. rewrite Hdir, Hget, Hcond.
  unfold ensureDir, readClock, attempt, caught. cbn.
  repeat case_match; simplify_eq; cbn.
  all: first
    [ left; eexists; split; [apply last_snoc|];
      split; [reflexivity|]; split; [reflexivity|]; split; [reflexivity|];
      split; [unfold tabFlushCountOf; cbn; rewrite lookup_insert_eq; reflexivity|];
      split; [intros other Hne; unfold tabFlushCountOf; cbn;
              rewrite lookup_insert_ne by congruence; reflexivity|];
      split; reflexivity
    | right; split;
      [ unfold wroteNothing; new_attempts_goal; repeat constructor; cbn; congruence
      | split; [reflexivity|]; split; [reflexivity|]; eexists; reflexivity ] ].
Qed.

(** A forced flush of two records on a disk that accepts everything. *)
Lemma X11_witness :
  let tabLogs :=
    mkTabLogs "Shop" "http://b.example/" [sampleRecord "log"; sampleRecord "error"]
      42 None in
  let s := set_consoleLogs [("B", tabLogs)] startState in
  let s' := flushConsoleLogsForTab okEnv "B" true s in
  sessionDir s = Some "/s"
  ∧ aget "B" (consoleLogs s) = Some tabLogs
  ∧ tabFlushCountOf "B" s' = 2
  ∧ errors s' = [].
Proof.
  intros tabLogs s s'.
  assert (sessionDir s = Some "/s") as Hdir by reflexivity.
  assert (aget "B" (consoleLogs s) = Some tabLogs) as Hget by reflexivity.
  split; [exact Hdir|]. split; [exact Hget|].
  destruct (X11_console_flush_outcomes okEnv "B" true s "/s" tabLogs Hdir Hget (or_introl eq_refl))
    as [(now & _ & _ & _ & _ & Hcount & _ & _ & Herr)|(_ & _ & _ & p & Herr)].
  - split; [exact Hcount|exact Herr].
  - apply (f_equal length) in Herr. vm_compute in Herr. discriminate Herr.
Defined.

(** ** The accounting of console records *)

Lemma sameConsole_refl s : sameConsole s s.
Proof. repeat split. Qed.

Lemma sameConsole_trans s1 s2 s3 : sameConsole s1 s2 → sameConsole s2 s3 → sameConsole s1 s3.
Proof. unfold sameConsole. intros (?&?&?&?) (?&?&?&?). repeat split; congruence. Qed.

Lemma sameConsole_fold {B} (f : State → B → State) (l : list B) s :
  (∀ s x, sameConsole s (f s x)) → sameConsole s (fold_left f l s).
Proof.
  intros Hf. revert s. induction l as [|x l IH]; intros s; cbn; [apply sameConsole_refl|].
  eapply sameConsole_trans; [apply Hf|apply IH].
Qed.

Lemma consoleKept_refl s : consoleKept s s.
Proof. split; [reflexivity|]. split; [reflexivity|]. split; [reflexivity|]. eauto. Qed.

Lemma consoleKept_trans s1 s2 s3 : consoleKept s1 s2 → consoleKept s2 s3 → consoleKept s1 s3.
Proof.
  intros (P12 & T12 & Q12 & N12) (P23 & T23 & Q23 & N23).
  split; [congruence|]. split; [congruence|]. split; [congruence|].
  intros tabId tl3 H3 Hne3. destruct (N23 tabId tl3 H3 Hne3) as (tl2 & H2 & Hne2). eauto.
Qed.

Lemma consoleKept_fold {B} (f : State → B → State) (l : list B) s :
  (∀ s x, consoleKept s (f s x)) → consoleKept s (fold_left f l s).
Proof.
  intros Hf. revert s. induction l as [|x l IH]; intros s; cbn; [apply consoleKept_refl|].
  eapply consoleKept_trans; [apply Hf|apply IH].
Qed.

Lemma sameConsole_kept s s' : sameConsole s s' → consoleKept s s'.
Proof.
  intros (Hc & Hf & Hp & Hq). split; [exact Hp|]. split; [|split; [exact Hq|]].
  - unfold consoleTotal, bufferedConsole, flushedConsole. rewrite Hc, Hf. reflexivity.
  - rewrite Hc. eauto.
Qed.

(** Sums over the ordered map of the tabs and over the flush counts. *)
Lemma buffered_aset tabId (v : TabLogs) (m : list (TabId * TabLogs)) :
  sum_list (map (fun tab => length (logs tab.2)) (aset tabId v m))
    + default 0 (length ∘ logs <$> aget tabId m)
  = sum_list (map (fun tab => length (logs tab.2)) m) + length (logs v).
Proof.
  induction m as [|[k0 v0] m IH]; cbn.
  - lia.
  - destruct (String.eqb tabId k0); cbn in *; lia.
Qed.

Lemma flushed_insert tabId n (m : gmap TabId nat) :
  map_fold (fun _ k acc => k + acc) 0 (<[tabId := n]> m) + default 0 (m !! tabId)
  = map_fold (fun _ k acc => k + acc) 0 m + n.
Proof.
  assert (∀ (m0 : gmap TabId nat) i x, m0 !! i = None →
            map_fold (fun _ k acc => k + acc) 0 (<[i := x]> m0)
            = x + map_fold (fun _ k acc => k + acc) 0 m0) as Hins.
  { intros m0 i x Hi. apply (map_fold_insert_L (fun _ k acc => k + acc)); [|exact Hi].
    intros. lia. }
  destruct (m !! tabId) as [old|] eqn:E; cbn.
  - rewrite <- (insert_delete_eq m tabId n).
    rewrite Hins by apply lookup_delete_eq.
    rewrite <- (insert_delete_id m tabId old E) at 2.
    rewrite Hins by apply lookup_delete_eq. lia.
  - rewrite Hins by exact E. lia.
Qed.

Lemma sameConsole_writeAndReport env p data s : sameConsole s (writeAndReport env p data s).
Proof.
  unfold writeAndReport. destruct (writeCompressedFile env p data (disk s)) as [[q|] d0];
    repeat split.
Qed.

Lemma sameConsole_trackTabBaseUrl env tabId url s :
  sameConsole s (trackTabBaseUrl env tabId url s).
Proof. unfold trackTabBaseUrl. repeat case_match; repeat split. Qed.

Lemma sameConsole_initTab tabId s : sameConsole s (initTabNetworkEvents tabId s).1.
Proof. unfold initTabNetworkEvents. destruct (aget _ _); repeat split. Qed.

Lemma sameConsole_flushNetwork env tabId force s :
  sameConsole s (flushNetworkEventsForTab env tabId force s).
Proof.
  destruct (flushNetwork_frame env tabId force s) as (_ & Hf & Hc & _ & _ & Hp & _).
  split; [exact Hc|]. split; [exact Hf|]. split; [rewrite Hp; reflexivity|].
  unfold flushNetworkEventsForTab, ensureDir, attempt, caught.
  repeat case_match; reflexivity.
Qed.

Lemma sameConsole_saveTabHar env harDir s tab : sameConsole s (saveTabHar env harDir s tab).
Proof.
  unfold saveTabHar. destruct tab as [tabId tabEvents].
  case_bool_decide; [apply sameConsole_refl|].
  destruct (aget tabId (pages s)); [apply sameConsole_writeAndReport|].
  unfold readClock. cbn [fst snd].
  eapply sameConsole_trans; [|apply sameConsole_writeAndReport]. repeat split.
Qed.

Lemma sameConsole_saveFinalHarFiles env s : sameConsole s (saveFinalHarFiles env s).
Proof.
  unfold saveFinalHarFiles. destruct (sessionDir s) as [dir|]; [|repeat split].
  assert (∀ harDir s0, sameConsole s s0 →
    sameConsole s
      (let s1 := fold_left (saveTabHar env harDir) (networkEvents s0) s0 in
       let allEvents := flat_map (fun tab => allItemsOf tab.2) (networkEvents s1) in
       let combinedHarData := createHarFile (objects s1) allEvents (map snd (pages s1)) in
       writeAndReport env (combinedHarPath dir) combinedHarData s1)) as Hrest.
  { intros harDir s0 H0. cbv zeta.
    eapply sameConsole_trans; [exact H0|].
    eapply sameConsole_trans; [|apply sameConsole_writeAndReport].
    apply sameConsole_fold. intros. apply sameConsole_saveTabHar. }
  destruct (existsSync _ (disk s)); [apply Hrest, sameConsole_refl|].
  destruct (attempt env (Mkdir _) (disk s)) as [[|] d0]; apply Hrest; repeat split.
Qed.

Lemma sameConsole_saveTabLogs env logsDir s it : sameConsole s (saveTabLogs env logsDir s it).
Proof.
  unfold saveTabLogs. destruct it as [index [pageId tabData]].
  case_bool_decide; [apply sameConsole_refl|].
  unfold readClock. cbn [fst snd].
  eapply sameConsole_trans; [|apply sameConsole_writeAndReport]. repeat split.
Qed.

Lemma sameConsole_saveAllConsoleLogs env s : sameConsole s (saveAllConsoleLogs env s).
Proof.
  unfold saveAllConsoleLogs. destruct (sessionDir s) as [dir|]; [|repeat split].
  set (allTabsLogs := consoleLogs s).
  assert (∀ logsDir s0, sameConsole s s0 →
    sameConsole s
      (let s1 := fold_left (saveTabLogs env logsDir) (imap pair allTabsLogs) s0 in
       let '(now, s2) := readClock env s1 in
       writeAndReport env (combinedLogPath dir) (combinedLogDocument now allTabsLogs) s2)) as Hrest.
  { intros logsDir s0 H0. cbv zeta.
    eapply sameConsole_trans; [exact H0|].
    set (s1 := fold_left _ _ s0). unfold readClock.
    eapply sameConsole_trans; [|apply sameConsole_writeAndReport].
    eapply sameConsole_trans; [|instantiate (1 := s1); repeat split].
    apply sameConsole_fold. intros. apply sameConsole_saveTabLogs. }
  destruct (bool_decide (1 < length allTabsLogs) && negb (existsSync _ (disk s))).
  - destruct (attempt env (Mkdir _) (disk s)) as [[|] d0]; apply Hrest; repeat split.
  - apply Hrest, sameConsole_refl.
Qed.

Lemma sameConsole_autoSaveTick env startTime s : sameConsole s (autoSaveTick env startTime s).
Proof.
  unfold autoSaveTick. destruct (sessionDir s) as [dir|]; [|apply sameConsole_refl].
  unfold readClock. cbn [fst snd].
  set (s0 := set_tick (S (tick s)) s).
  set (s1 := fold_left (partialFlushTab env) (networkEvents s0) s0).
  assert (sameConsole s s1) as H1.
  { eapply sameConsole_trans; [instantiate (1 := s0); repeat split|].
    apply sameConsole_fold. intros sx tab. unfold partialFlushTab.
    case_match; [apply sameConsole_flushNetwork|apply sameConsole_refl]. }
  destruct (autoSaveSample s1) as [e|sample].
  { eapply sameConsole_trans; [exact H1|]. repeat split. }
  eapply sameConsole_trans; [exact H1|].
  unfold attempt, caught. cbn. case_match; repeat split.
Qed.

Lemma sameConsole_ensureSessionDir env s : sameConsole s (ensureSessionDir env s).
Proof.
  unfold ensureSessionDir, readClock, attempt, caught. cbn.
  repeat case_match; repeat split.
Qed.

Lemma sameConsole_writeSummary env startTime s : sameConsole s (writeSummary env startTime s).
Proof.
  unfold writeSummary, readClock, attempt, caught. cbn.
  repeat case_match; repeat split.
Qed.

Lemma sameConsole_onRequest env rq s : sameConsole s (onRequest env rq s).
Proof.
  unfold onRequest.
  set (s1 := match rq_mainFrameUrl rq with Some url => _ | None => s end).
  assert (sameConsole s s1) as H1.
  { subst s1. destruct (rq_mainFrameUrl rq);
      [apply sameConsole_trackTabBaseUrl|apply sameConsole_refl]. }
  unfold readClock. cbn [fst snd].
  set (s3 := set_tick _ _).
  assert (sameConsole s s3) as H3
    by (eapply sameConsole_trans; [exact H1|]; repeat split).
  pose proof (sameConsole_initTab (rq_pageId rq) s3) as H4.
  destruct (initTabNetworkEvents (rq_pageId rq) s3) as [s4 tabEvents]. cbn [fst snd] in *.
  match goal with |- sameConsole _ (if ?c then flushNetworkEventsForTab _ _ _ ?st else _) =>
    set (cond := c); set (s8 := st) end.
  assert (sameConsole s s8) as H8.
  { eapply sameConsole_trans; [exact H3|]. eapply sameConsole_trans; [exact H4|].
    repeat split. }
  destruct cond; [|exact H8].
  eapply sameConsole_trans; [exact H8|apply sameConsole_flushNetwork].
Qed.

Lemma sameConsole_onResponse env rs s : sameConsole s (onResponse env rs s).
Proof. unfold onResponse, readClock. repeat case_match; repeat split. Qed.

Lemma sameConsole_onFrameNavigated env pageId isMainFrame url title s :
  sameConsole s (onFrameNavigated env pageId isMainFrame url title s).
Proof.
  unfold onFrameNavigated. case_match; [|apply sameConsole_refl].
  pose proof (sameConsole_trackTabBaseUrl env pageId url s) as Htrack.
  case_match; [|exact Htrack].
  eapply sameConsole_trans; [exact Htrack|]. repeat split.
Qed.

Lemma sameConsole_onTargetDestroyed env isPage targetId s :
  sameConsole s (onTargetDestroyed env isPage targetId s).
Proof. unfold onTargetDestroyed, readClock. repeat case_match; repeat split. Qed.

(** A console flush moves records from memory to a file, or changes
    nothing of the accounting. *)
Lemma consoleKept_flushConsole env tabId force s :
  consoleKept s (flushConsoleLogsForTab env tabId force s).
Proof.
  unfold flushConsoleLogsForTab.
  destruct (sessionDir s) as [dir|]; [|apply consoleKept_refl].
  destruct (aget tabId (consoleLogs s)) as [tabLogs|] eqn:Hget; [|apply consoleKept_refl].
  case_match; [apply consoleKept_refl|].
  unfold ensureDir, readClock, attempt, caught. cbn.
  repeat case_match; simplify_eq; cbn;
    try solve [apply sameConsole_kept; repeat split].
  all: split; [reflexivity|]; split; [|split; [reflexivity|]].
  all: try (unfold consoleTotal, bufferedConsole, flushedConsole, tabFlushCountOf; cbn;
            pose proof (buffered_aset tabId
                          (afterFlush tabLogs
                             (consoleFlushPath dir tabId tabLogs
                                (default 0 (totalConsoleLogsFlushed (flushStats s) !! tabId))))
                          (consoleLogs s)) as Hb;
            pose proof (flushed_insert tabId
                          (default 0 (totalConsoleLogsFlushed (flushStats s) !! tabId)
                           + length (logs tabLogs))
                          (totalConsoleLogsFlushed (flushStats s))) as Hf;
            rewrite Hget in Hb; cbn in Hb; unfold tabFlushCountOf in *; lia).
  all: intros t tl' Ht Hne; unfold set_consoleLogs in Ht; cbn [consoleLogs] in Ht;
      destruct (decide (t = tabId)) as [->|Hn];
      [ rewrite aget_aset_eq in Ht; injection Ht as <-; cbn in Hne; congruence
      | rewrite aget_aset_ne in Ht by congruence; eauto ].
Qed.

Lemma consoleKept_performMemoryCheck env force s :
  consoleKept s (performMemoryCheck env force s).
Proof.
  unfold performMemoryCheck. cbv zeta.
  eapply consoleKept_trans; [|apply consoleKept_fold].
  - apply sameConsole_kept, sameConsole_fold. intros s0 tab. unfold checkNetworkTab.
    case_match; [apply sameConsole_flushNetwork|apply sameConsole_refl].
  - intros s0 tab. unfold checkConsoleTab.
    repeat case_match; try apply consoleKept_refl. apply consoleKept_flushConsole.
Qed.

Lemma consoleKept_onDisconnected env startTime s :
  consoleKept s (onDisconnected env startTime s).
Proof.
  unfold onDisconnected.
  eapply consoleKept_trans; [apply sameConsole_kept, sameConsole_ensureSessionDir|].
  eapply consoleKept_trans; [apply consoleKept_performMemoryCheck|].
  eapply consoleKept_trans; [apply sameConsole_kept, sameConsole_saveFinalHarFiles|].
  eapply consoleKept_trans; [apply sameConsole_kept, sameConsole_saveAllConsoleLogs|].
  apply sameConsole_kept, sameConsole_writeSummary.
Qed.

Lemma sameConsole_onConsoleStart_but env ce s :
  consoleLogs (onConsoleStart env ce s) = consoleLogs s
  ∧ flushStats (onConsoleStart env ce s) = flushStats s
  ∧ ps_consoleLogs (progressStats (onConsoleStart env ce s))
      = S (ps_consoleLogs (progressStats s))
  ∧ pendingConsole (onConsoleStart env ce s)
      = pendingConsole s ++ [mkPendingConsole (toLocaleTimeString (clock env (tick s))) ce]
  ∧ disk (onConsoleStart env ce s) = disk s.
Proof. repeat split. Qed.

Lemma consoleKept_act env startTime s a :
  (∀ pageId url title, a ≠ Handled (EvSetupPage pageId url title)) →
  (∀ ce, a ≠ Handled (EvConsole ce)) →
  (∀ i, a ≠ Handled (EvConsoleStored i)) →
  (∀ pageId m e, a ≠ Handled (EvConsoleCatch pageId m e)) →
  (∀ pageId t m st, a ≠ Handled (EvPageError pageId t m st)) →
  (∀ pageId t w, a ≠ Handled (EvWarning pageId t w)) →
  consoleKept s (act env startTime s a).
Proof.
  intros Hsetup Hconsole Hstored Hcatch Hpe Hw.
  destruct a as [ev|pageId isMainFrame url title|isPage targetId]; cbn [act].
  - event_cases ev;
      cbn [step].
    + destruct (Hsetup pageId url title eq_refl).
    + apply sameConsole_kept, sameConsole_onRequest.
    + apply sameConsole_kept, sameConsole_onResponse.
    + destruct (Hconsole ce eq_refl).
    + destruct (Hstored i eq_refl).
    + destruct (Hcatch pageId errMessage errString eq_refl).
    + destruct (Hpe pageId txt message stack eq_refl).
    + destruct (Hw pageId txt warning eq_refl).
    + apply sameConsole_kept, sameConsole_flushNetwork.
    + apply consoleKept_flushConsole.
    + apply consoleKept_performMemoryCheck.
    + apply sameConsole_kept, sameConsole_autoSaveTick.
    + apply sameConsole_kept, sameConsole_saveFinalHarFiles.
    + apply sameConsole_kept, sameConsole_saveAllConsoleLogs.
    + apply consoleKept_onDisconnected.
  - apply sameConsole_kept, sameConsole_onFrameNavigated.
  - apply sameConsole_kept, sameConsole_onTargetDestroyed.
Qed.

Lemma consoleKept_accounted s s' : consoleKept s s' → consoleAccounted s → consoleAccounted s'.
Proof.
  intros (Hp & Ht & Hq & _) Ha. unfold consoleAccounted in *.
  unfold consoleTotal in Ht. rewrite Hq. lia.
Qed.

Lemma consoleKept_recordsOnlyIn seen s s' :
  consoleKept s s' → recordsOnlyIn seen s → recordsOnlyIn seen s'.
Proof.
  intros (_ & _ & Hq & Hn) [Hr Hpend]. split; [|rewrite Hq; exact Hpend].
  intros tabId tl' Hget Hne.
  destruct (Hn tabId tl' Hget Hne) as (tl & Hget0 & Hne0). exact (Hr tabId tl Hget0 Hne0).
Qed.

Lemma recordsOnlyIn_weaken seen x s : recordsOnlyIn seen s → recordsOnlyIn (x :: seen) s.
Proof.
  intros [Hr Hpend]. split.
  - intros tabId tl Hget Hne. right. exact (Hr tabId tl Hget Hne).
  - eapply Forall_impl; [exact Hpend|]. intros pc Hpc. right. exact Hpc.
Qed.

(** A step that stores one record for a tab: the record is new in memory,
    and either the count of console logs grows by one or one handler fewer
    is suspended. *)
Lemma stored_accounting s s' pageId tabLogs' :
  consoleLogs s' = aset pageId tabLogs' (consoleLogs s) →
  length (logs tabLogs')
    = S (default 0 (length ∘ logs <$> aget pageId (consoleLogs s))) →
  flushStats s' = flushStats s →
  ps_consoleLogs (progressStats s') + length (pendingConsole s)
    = S (ps_consoleLogs (progressStats s)) + length (pendingConsole s') →
  consoleAccounted s → consoleAccounted s'.
Proof.
  intros Hc Hl Hf Hp Ha. unfold consoleAccounted, bufferedConsole, flushedConsole in *.
  rewrite Hc, Hf.
  pose proof (buffered_aset pageId tabLogs' (consoleLogs s)) as Hb. lia.
Qed.

Lemma stored_records seen s s' pageId tabLogs' :
  consoleLogs s' = aset pageId tabLogs' (consoleLogs s) →
  pageId ∈ seen →
  Forall (fun pc => consoleTab (pc_event pc) ∈ seen) (pendingConsole s') →
  (∀ tabId tl, aget tabId (consoleLogs s) = Some tl → logs tl ≠ [] → tabId ∈ seen) →
  recordsOnlyIn seen s'.
Proof.
  intros Hc Hin Hpend Hr. split; [|exact Hpend].
  intros tabId tl Hget Hne. rewrite Hc in Hget.
  destruct (decide (tabId = pageId)) as [->|Hn]; [exact Hin|].
  rewrite aget_aset_ne in Hget by congruence. exact (Hr tabId tl Hget Hne).
Qed.

Lemma onConsoleStart_accounting env ce s seen :
  consoleAccounted s → recordsOnlyIn seen s →
  consoleAccounted (onConsoleStart env ce s)
  ∧ recordsOnlyIn (consoleTab ce :: seen) (onConsoleStart env ce s).
Proof.
  intros Ha [Hr Hpend].
  destruct (sameConsole_onConsoleStart_but env ce s) as (Hc & Hf & Hp & Hq & _).
  split.
  - unfold consoleAccounted, bufferedConsole, flushedConsole in *.
    rewrite Hc, Hf, Hp, Hq, length_app. cbn. lia.
  - split.
    + intros tabId tl Hget Hne. rewrite Hc in Hget. right. exact (Hr tabId tl Hget Hne).
    + rewrite Hq. apply Forall_app. split.
      * eapply Forall_impl; [exact Hpend|]. intros pc Hpc. right. exact Hpc.
      * repeat constructor.
Qed.

(** What the resumed console handler does before the flush it may
    trigger. *)
Lemma onConsoleStore_shape env i s pc :
  pendingConsole s !! i = Some pc →
  ∃ tabLogs' s4,
    onConsoleStore env i s =
      (if bool_decide (maxLogsPerTabBeforeFlush ≤ length (logs tabLogs'))
       then flushConsoleLogsForTab env (consoleTab (pc_event pc)) false s4 else s4)
    ∧ consoleLogs s4 = aset (consoleTab (pc_event pc)) tabLogs' (consoleLogs s)
    ∧ flushStats s4 = flushStats s
    ∧ ps_consoleLogs (progressStats s4) = ps_consoleLogs (progressStats s)
    ∧ disk s4 = disk s
    ∧ pendingConsole s4 = delete i (pendingConsole s)
    ∧ ∃ record,
        logs tabLogs' =
          default [] (logs <$> aget (consoleTab (pc_event pc)) (consoleLogs s)) ++ [record]
        ∧ type record = ce_type (pc_event pc) ∧ text record = ce_text (pc_event pc)
        ∧ c_timestamp record = pc_timestamp pc.
Proof.
  intros Hpc. unfold onConsoleStore, readClock, consoleTab. rewrite Hpc.
  cbv beta iota zeta.
  change (consoleLogs (set_tick _ (set_pendingConsole _ s))) with (consoleLogs s).
  destruct (aget (str_or (ce_pageId (pc_event pc)) "unknown") (consoleLogs s)) as [tl|];
    [destruct (ce_page (pc_event pc)) as [[url title]|]|];
    cbv beta iota zeta; eexists (mkTabLogs _ _ _ _ _), _; (split; [reflexivity|]);
    cbn; repeat split; eexists; repeat split.
Qed.

Lemma onConsoleStore_accounting env i s seen :
  consoleAccounted s → recordsOnlyIn seen s →
  consoleAccounted (onConsoleStore env i s)
  ∧ recordsOnlyIn seen (onConsoleStore env i s).
Proof.
  intros Ha Hrec. pose proof Hrec as [Hr Hpend].
  destruct (pendingConsole s !! i) as [pc|] eqn:Hpc;
    [|unfold onConsoleStore; rewrite Hpc; split; assumption].
  destruct (onConsoleStore_shape env i s pc Hpc)
    as (tl' & s4 & -> & Hc4 & Hf4 & Hp4 & _ & Hq4 & record & Hl & _).
  pose proof (length_delete (pendingConsole s) i ltac:(eauto)) as Hlen.
  assert (0 < length (pendingConsole s)) as Hpos
    by (apply lookup_lt_Some in Hpc; lia).
  assert (consoleAccounted s4 ∧ recordsOnlyIn seen s4) as [A4 R4].
  { split.
    - apply (stored_accounting s s4 (consoleTab (pc_event pc)) tl'); try assumption.
      + rewrite Hl, length_app. cbn.
        destruct (aget (consoleTab (pc_event pc)) (consoleLogs s)); cbn; lia.
      + rewrite Hp4, Hq4, Hlen. lia.
    - apply (stored_records seen s s4 (consoleTab (pc_event pc)) tl'); try assumption.
      + exact (Forall_lookup_1 _ _ _ _ Hpend Hpc).
      + rewrite Hq4. apply Forall_delete. exact Hpend. }
  case_bool_decide; [|split; assumption].
  pose proof (consoleKept_flushConsole env (consoleTab (pc_event pc)) false s4) as Hk.
  split; [eapply consoleKept_accounted|eapply consoleKept_recordsOnlyIn]; eassumption.
Qed.

(** The three handlers that store a record at once. *)
Lemma pushRecord_accounting seen s s2 pageId tabLogs record (count : State → State) :
  consoleLogs s2 = consoleLogs s → flushStats s2 = flushStats s →
  pendingConsole s2 = pendingConsole s →
  ps_consoleLogs (progressStats s2) = ps_consoleLogs (progressStats s) →
  logs tabLogs = default [] (logs <$> aget pageId (consoleLogs s)) →
  (∀ s0, consoleLogs (count s0) = consoleLogs s0 ∧ flushStats (count s0) = flushStats s0
         ∧ pendingConsole (count s0) = pendingConsole s0
         ∧ ps_consoleLogs (progressStats (count s0)) = S (ps_consoleLogs (progressStats s0))) →
  consoleAccounted s → recordsOnlyIn seen s →
  consoleAccounted (count (pushRecord pageId tabLogs record s2))
  ∧ recordsOnlyIn (pageId :: seen) (count (pushRecord pageId tabLogs record s2)).
Proof.
  intros Hc Hf Hq Hp Hl Hcount Ha Hrec.
  destruct (Hcount (pushRecord pageId tabLogs record s2)) as (Cc & Cf & Cq & Cp).
  pose proof (recordsOnlyIn_weaken seen pageId s Hrec) as [Hr Hpend].
  set (tl' := mkTabLogs (pageTitle tabLogs) (pageUrl tabLogs) (logs tabLogs ++ [record])
                (lastActivity tabLogs) (flushFiles tabLogs)).
  assert (consoleLogs (count (pushRecord pageId tabLogs record s2))
          = aset pageId tl' (consoleLogs s)) as Hlogs
    by (rewrite Cc; unfold pushRecord; cbn; rewrite Hc; reflexivity).
  split.
  - apply (stored_accounting s _ pageId tl' Hlogs); try assumption.
    + subst tl'. cbn. rewrite length_app, Hl. cbn.
      destruct (aget pageId (consoleLogs s)); cbn; lia.
    + rewrite Cf. exact Hf.
    + rewrite Cp, Cq. unfold pushRecord. cbn. rewrite Hp, Hq. lia.
  - apply (stored_records _ s _ pageId tl' Hlogs); [left| |exact Hr].
    rewrite Cq. unfold pushRecord. cbn. rewrite Hq. exact Hpend.
Qed.

Lemma countError_spec s0 :
  consoleLogs (countError s0) = consoleLogs s0 ∧ flushStats (countError s0) = flushStats s0
  ∧ pendingConsole (countError s0) = pendingConsole s0
  ∧ ps_consoleLogs (progressStats (countError s0)) = S (ps_consoleLogs (progressStats s0)).
Proof. repeat split. Qed.

Lemma countWarning_spec s0 :
  consoleLogs (countWarning s0) = consoleLogs s0 ∧ flushStats (countWarning s0) = flushStats s0
  ∧ pendingConsole (countWarning s0) = pendingConsole s0
  ∧ ps_consoleLogs (progressStats (countWarning s0)) = S (ps_consoleLogs (progressStats s0)).
Proof. repeat split. Qed.

Lemma touchedLogs_logs pageId now s :
  logs (touchedLogs pageId now s) = default [] (logs <$> aget pageId (consoleLogs s)).
Proof. unfold touchedLogs. destruct (aget pageId (consoleLogs s)); reflexivity. Qed.

Lemma onPageError_accounting env pageId text message stack s seen :
  consoleAccounted s → recordsOnlyIn seen s →
  consoleAccounted (onPageError env pageId text message stack s)
  ∧ recordsOnlyIn (pageId :: seen) (onPageError env pageId text message stack s).
Proof.
  intros Ha Hrec. unfold onPageError, readClock. cbn [fst snd].
  apply (pushRecord_accounting seen s); try reflexivity; try assumption.
  - rewrite touchedLogs_logs. reflexivity.
  - apply countError_spec.
Qed.

Lemma onWarning_accounting env pageId text warning s seen :
  consoleAccounted s → recordsOnlyIn seen s →
  consoleAccounted (onWarning env pageId text warning s)
  ∧ recordsOnlyIn (pageId :: seen) (onWarning env pageId text warning s).
Proof.
  intros Ha Hrec. unfold onWarning, readClock. cbn [fst snd].
  apply (pushRecord_accounting seen s); try reflexivity; try assumption.
  - rewrite touchedLogs_logs. reflexivity.
  - apply countWarning_spec.
Qed.

Lemma onConsoleCatch_accounting env pageId errMessage errString s seen :
  consoleAccounted s → recordsOnlyIn seen s →
  consoleAccounted (onConsoleCatch env pageId errMessage errString s)
  ∧ recordsOnlyIn (pageId :: seen) (onConsoleCatch env pageId errMessage errString s).
Proof.
  intros Ha Hrec. unfold onConsoleCatch, readClock.
  destruct (aget pageId (consoleLogs s)) as [tl|] eqn:Hget; cbn [fst snd];
    apply (pushRecord_accounting seen s); try reflexivity; try assumption;
    try apply countError_spec; rewrite Hget; reflexivity.
Qed.

Lemma setup_accounting env pageId url title s seen :
  pageId ∉ seen →
  consoleAccounted s → recordsOnlyIn seen s →
  consoleAccounted (setupPageMonitoring env pageId url title s)
  ∧ recordsOnlyIn seen (setupPageMonitoring env pageId url title s).
Proof.
  intros Hfresh Ha [Hr Hpend]. unfold setupPageMonitoring, readClock. cbn.
  set (s1 := trackTabBaseUrl env pageId url s).
  pose proof (sameConsole_trackTabBaseUrl env pageId url s) as (Hc1 & Hf1 & Hp1 & Hq1).
  fold s1 in Hc1, Hf1, Hp1, Hq1.
  set (s4 := set_consoleLogs _ _).
  pose proof (sameConsole_initTab pageId s4) as (Hc5 & Hf5 & Hp5 & Hq5).
  set (s5 := (initTabNetworkEvents pageId s4).1) in *.
  assert (default 0 (length ∘ logs <$> aget pageId (consoleLogs s)) = 0) as Hzero.
  { destruct (aget pageId (consoleLogs s)) as [tl|] eqn:Hget; [|reflexivity]. cbn.
    destruct (logs tl) as [|r l] eqn:El; [reflexivity|].
    exfalso. apply Hfresh. apply (Hr pageId tl Hget). rewrite El. discriminate. }
  split.
  - unfold consoleAccounted, bufferedConsole, flushedConsole in *. cbn.
    rewrite Hc5, Hf5, Hp5, Hq5. subst s4. cbn. rewrite Hc1, Hf1, Hp1, Hq1.
    match goal with |- context [aset ?k ?v (consoleLogs s)] =>
      pose proof (buffered_aset k v (consoleLogs s)) as Hb end.
    rewrite Hzero in Hb. cbn in Hb. lia.
  - split.
    + intros tabId tl Hget Hne. cbn in Hget. rewrite Hc5 in Hget. subst s4. cbn in Hget.
      rewrite Hc1 in Hget.
      destruct (decide (tabId = pageId)) as [->|Hn].
      * rewrite aget_aset_eq in Hget. injection Hget as <-. cbn in Hne. congruence.
      * rewrite aget_aset_ne in Hget by congruence. exact (Hr tabId tl Hget Hne).
    + cbn. rewrite Hq5. subst s4. cbn. rewrite Hq1. exact Hpend.
Qed.

Lemma accounting_session env startTime acts :
  ∀ seen s,
    consoleAccounted s → recordsOnlyIn seen s → setupsComeFirst seen acts = true →
    consoleAccounted (session env startTime s acts).
Proof.
  induction acts as [|a acts IH]; intros seen s Ha Hr Hfirst; [exact Ha|].
  change (session env startTime s (a :: acts))
    with (session env startTime (act env startTime s a) acts).
  assert (∀ s', consoleKept s s' → setupsComeFirst seen acts = true →
            consoleAccounted (session env startTime s' acts)) as Hkept.
  { intros s' Hk Hf. apply (IH seen); [eapply consoleKept_accounted; eassumption| |exact Hf].
    eapply consoleKept_recordsOnlyIn; eassumption. }
  destruct a as [ev|pageId isMainFrame url title|isPage targetId].
  - event_cases ev;
      try (apply Hkept; [apply consoleKept_act; intros; discriminate|exact Hfirst]).
    + cbn in Hfirst. apply andb_prop in Hfirst as [Hfresh Hrest].
      apply bool_decide_eq_true in Hfresh.
      destruct (setup_accounting env pageId url title s seen Hfresh Ha Hr) as [Ha' Hr'].
      exact (IH seen _ Ha' Hr' Hrest).
    + cbn in Hfirst.
      destruct (onConsoleStart_accounting env ce s seen Ha Hr) as [Ha' Hr'].
      exact (IH _ _ Ha' Hr' Hfirst).
    + cbn in Hfirst.
      destruct (onConsoleStore_accounting env i s seen Ha Hr) as [Ha' Hr'].
      exact (IH _ _ Ha' Hr' Hfirst).
    + cbn in Hfirst.
      destruct (onConsoleCatch_accounting env pageId errMessage errString s seen Ha Hr)
        as [Ha' Hr'].
      exact (IH _ _ Ha' Hr' Hfirst).
    + cbn in Hfirst.
      destruct (onPageError_accounting env pageId txt message stack s seen Ha Hr)
        as [Ha' Hr'].
      exact (IH _ _ Ha' Hr' Hfirst).
    + cbn in Hfirst.
      destruct (onWarning_accounting env pageId txt warning s seen Ha Hr) as [Ha' Hr'].
      exact (IH _ _ Ha' Hr' Hfirst).
  - apply Hkept; [apply consoleKept_act; intros; discriminate|exact Hfirst].
  - apply Hkept; [apply consoleKept_act; intros; discriminate|exact Hfirst].
Qed.

(** X12. In every session that starts from the initial state and in
    which a tab is set up before its first console message, page error or
    warning, every console message counted is accounted for: the count of
    console logs is the number of records held in memory, over all tabs,
    plus the number of records written to flush files, plus the number of
    console messages whose handler has counted them and has not stored
    their record (it is suspended at an [await], or has left through its
    [catch] block). The first three figures are [totalConsoleLogs],
    [currentConsoleLogs] and [totalConsoleLogsFlushed] of the status file:
    the total is the sum of the other two only while no handler is
    suspended, and is larger otherwise. All this whatever the outcome of
    the writes on the way. *)
Theorem X12_console_records_accounted
    (env : Env) (startTime : Z) (dir : Path) (d : Disk) (t0 : Z) (acts : list Action) :
  setupsComeFirst [] acts = true →
  let s := session env startTime (initialState dir d t0) acts in
  ps_consoleLogs (progressStats s)
    = bufferedConsole s + flushedConsole s + length (pendingConsole s)
  ∧ ∀ now now2,
      get_field "totalConsoleLogs" (statusDocument now now2 startTime s)
        = Some (JNat (ps_consoleLogs (progressStats s)))
      ∧ get_field "currentConsoleLogs" (statusDocument now now2 startTime s)
          = Some (JNat (bufferedConsole s))
      ∧ get_field "totalConsoleLogsFlushed" (statusDocument now now2 startTime s)
          = Some (JNat (flushedConsole s)).
Proof.
  intros Hfirst s. split; [|intros now now2; repeat split].
  apply (accounting_session env startTime acts [] (initialState dir d t0)); [| |exact Hfirst].
  - reflexivity.
  - split; [|constructor]. intros tabId tl Hget. cbn in Hget. discriminate Hget.
Qed.

(** A tab that logs three messages and a page error: the first message is
    flushed, the second and the page error are in memory, the handler of
    the third is suspended. *)
Lemma X12_witness :
  let acts :=
    [Handled (EvSetupPage "A" "http://a.example/" "A");
     Handled (EvConsole (mkConsoleEvent "A" "error" "first" [] [] None));
     Handled (EvConsole (mkConsoleEvent "A" "log" "second" [] [] None));
     Handled (EvConsoleStored 0);
     Handled (EvFlushConsole "A" true);
     Handled (EvConsoleStored 0);
     Handled (EvPageError "A" "Error: boom" "boom" "at main");
     Handled (EvConsole (mkConsoleEvent "A" "log" "third" [] [] None))] in
  let s := session okEnv 0 startState acts in
  setupsComeFirst [] acts = true
  ∧ ps_consoleLogs (progressStats s)
      = bufferedConsole s + flushedConsole s + length (pendingConsole s)
  ∧ ps_consoleLogs (progressStats s) = 4
  ∧ bufferedConsole s = 2
  ∧ flushedConsole s = 1
  ∧ length (pendingConsole s) = 1.
Proof.
  intros acts s.
  assert (setupsComeFirst [] acts = true) as Hfirst by (vm_compute; reflexivity).
  split; [exact Hfirst|].
  destruct (X12_console_records_accounted okEnv 0 "/s" sessionDisk 0 acts Hfirst) as [Hacc _].
  split; [exact Hacc|]. repeat split; vm_compute; reflexivity.
Defined.

(** ** The memory check *)

Lemma fold_left_idle {B} (f : State → B → State) (l : list B) s :
  Forall (fun x => f s x = s) l → fold_left f l s = s.
Proof. induction 1 as [|x l Hx _ IH]; cbn; [reflexivity|]. rewrite Hx. exact IH. Qed.

(** X13. A memory check that is not forced changes nothing at all while
    every network buffer holds fewer than 5000 events and every tab fewer
    than 500 console records: no flush is started, nothing is written, no
    counter moves. *)
Theorem X13_memory_check_idle (env : Env) (s : State) :
  Forall (fun tab => events_length tab.2 < maxEventsBeforeFlush) (networkEvents s) →
  Forall (fun tab => length (logs tab.2) < maxLogsPerTabBeforeFlush) (consoleLogs s) →
  performMemoryCheck env false s = s.
Proof.
  intros Hnet Hcon. unfold performMemoryCheck. cbv zeta.
  rewrite (fold_left_idle (checkNetworkTab env false)).
  - apply fold_left_idle. apply Forall_forall. intros tabId _.
    unfold checkConsoleTab.
    destruct (aget tabId (consoleLogs s)) as [tabData|] eqn:Hget; [|reflexivity].
    pose proof (aget_Forall (fun tl => length (logs tl) < maxLogsPerTabBeforeFlush)
                  tabId tabData (consoleLogs s) Hcon Hget) as Hlt.
    cbn beta in Hlt. rewrite bool_decide_false by lia. reflexivity.
  - eapply Forall_impl; [exact Hnet|]. intros tab Hlt. cbn beta in Hlt.
    unfold checkNetworkTab. rewrite bool_decide_false by lia. reflexivity.
Qed.

(** A tab with one buffered request and one console record. *)
Lemma X13_witness :
  let s :=
    set_consoleLogs [("A", mkTabLogs "A" "http://a.example/" [sampleRecord "log"] 0 None)]
      (set_networkEvents [("A", Plain [1])] startState) in
  Forall (fun tab => events_length tab.2 < maxEventsBeforeFlush) (networkEvents s)
  ∧ Forall (fun tab => length (logs tab.2) < maxLogsPerTabBeforeFlush) (consoleLogs s)
  ∧ performMemoryCheck okEnv false s = s.
Proof.
  intros s.
  assert (Forall (fun tab => events_length tab.2 < maxEventsBeforeFlush) (networkEvents s))
    as Hnet.
  { constructor; [|constructor]. apply Nat.ltb_lt. vm_compute. reflexivity. }
  assert (Forall (fun tab => length (logs tab.2) < maxLogsPerTabBeforeFlush) (consoleLogs s))
    as Hcon.
  { constructor; [|constructor]. apply Nat.ltb_lt. vm_compute. reflexivity. }
  split; [exact Hnet|]. split; [exact Hcon|].
  exact (X13_memory_check_idle okEnv s Hnet Hcon).
Defined.

Lemma flushConsole_forced env tabId s dir tl :
  reliable env → sessionDir s = Some dir → aget tabId (consoleLogs s) = Some tl →
  let s' := flushConsoleLogsForTab env tabId true s in
  consoleLogs s' =
    aset tabId (afterFlush tl (consoleFlushPath dir tabId tl (tabFlushCountOf tabId s)))
      (consoleLogs s)
  ∧ sessionDir s' = Some dir.
Proof.
  intros Hrel Hdir Hget. cbv zeta. unfold flushConsoleLogsForTab.
  rewrite Hdir, Hget, andb_false_r.
  unfold ensureDir, readClock, attempt, caught. cbn. rewrite !Hrel.
  destruct (existsSync _ (disk s)); cbn; rewrite ?Hrel; cbn; split;
    (reflexivity || exact Hdir).
Qed.

Lemma aget_is_Some {V} k (m : list (string * V)) : k ∈ map fst m → is_Some (aget k m).
Proof.
  induction m as [|[k0 v0] m IH]; cbn; [intros H; apply elem_of_nil in H; destruct H|].
  destruct (String.eqb_spec k k0) as [->|Hne]; [eauto|].
  intros H. apply elem_of_cons in H as [H|H]; [congruence|exact (IH H)].
Qed.

Lemma keys_aset {V} k (v : V) m : is_Some (aget k m) → map fst (aset k v m) = map fst m.
Proof.
  induction m as [|[k0 v0] m IH]; cbn; [intros [x Hx]; discriminate Hx|].
  destruct (String.eqb_spec k k0) as [->|Hne]; cbn; [reflexivity|].
  intros H. rewrite IH by exact H. reflexivity.
Qed.

Lemma elem_of_keys {V} k (v : V) (m : list (string * V)) : (k, v) ∈ m → k ∈ map fst m.
Proof.
  induction m as [|[k0 v0] m IH]; cbn; intros H.
  - apply elem_of_nil in H. destruct H.
  - apply elem_of_cons in H as [H|H]; [injection H as -> ->; left|right; exact (IH H)].
Qed.

Lemma aget_NoDup {V} k (v : V) m : NoDup (map fst m) → (k, v) ∈ m → aget k m = Some v.
Proof.
  induction m as [|[k0 v0] m IH]; cbn; [intros _ H; apply elem_of_nil in H; destruct H|].
  intros Hnd Hin. apply NoDup_cons in Hnd as [Hk0 Hnd].
  apply elem_of_cons in Hin as [Hin|Hin].
  - injection Hin as -> ->. rewrite String.eqb_refl. reflexivity.
  - destruct (String.eqb_spec k k0) as [->|Hne]; [|exact (IH Hnd Hin)].
    exfalso. apply Hk0. exact (elem_of_keys k0 v m Hin).
Qed.

Lemma drain_fold env dir ks :
  reliable env →
  ∀ s, sessionDir s = Some dir →
    (∀ k, k ∈ ks → is_Some (aget k (consoleLogs s))) →
    let s' := fold_left (checkConsoleTab env true) ks s in
    map fst (consoleLogs s') = map fst (consoleLogs s)
    ∧ ∀ k tl', aget k (consoleLogs s') = Some tl' →
        k ∈ ks ∨ (∃ tl, aget k (consoleLogs s) = Some tl ∧ logs tl = []) →
        logs tl' = [].
Proof.
  intros Hrel. induction ks as [|k ks IH]; intros s Hdir Hkeys; cbn.
  { split; [reflexivity|]. intros k tl' Hget [Hin|(tl & Hget0 & Hl)].
    - apply elem_of_nil in Hin. destruct Hin.
    - congruence. }
  destruct (Hkeys k) as [tl Hget]; [left|].
  assert (checkConsoleTab env true s k = flushConsoleLogsForTab env k true s) as ->
    by (unfold checkConsoleTab; rewrite Hget, orb_true_r; reflexivity).
  destruct (flushConsole_forced env k s dir tl Hrel Hdir Hget) as [Hc1 Hd1].
  set (s1 := flushConsoleLogsForTab env k true s) in *.
  destruct (IH s1 Hd1) as [Hk' Hl'].
  { intros k' Hin'. rewrite Hc1.
    destruct (decide (k' = k)) as [->|Hne]; [rewrite aget_aset_eq; eauto|].
    rewrite aget_aset_ne by congruence. apply Hkeys. right. exact Hin'. }
  split.
  - rewrite Hk', Hc1. apply keys_aset. eauto.
  - intros q tl' Hq Hcase. apply (Hl' q tl' Hq).
    destruct (decide (q = k)) as [->|Hne].
    + right. rewrite Hc1, aget_aset_eq. eexists. split; reflexivity.
    + destruct Hcase as [Hin|(tl0 & Hget0 & Hl0)].
      * apply elem_of_cons in Hin as [Hin|Hin]; [congruence|left; exact Hin].
      * right. exists tl0. rewrite Hc1, aget_aset_ne by congruence. auto.
Qed.

(** X14. On a file system that accepts every write, a forced memory check
    moves every console record from memory to the flush files: afterwards
    no tab holds a record, the tabs are the same, and the number of
    flushed records has grown by the number of records that were
    buffered. The network buffers are what they were. *)
Theorem X14_forced_check_drains_console (env : Env) (s : State) (dir : Path) :
  reliable env → sessionDir s = Some dir → NoDup (map fst (consoleLogs s)) →
  let s' := performMemoryCheck env true s in
  Forall (fun tab => logs tab.2 = []) (consoleLogs s')
  ∧ map fst (consoleLogs s') = map fst (consoleLogs s)
  ∧ bufferedConsole s' = 0
  ∧ flushedConsole s' = flushedConsole s + bufferedConsole s
  ∧ networkEvents s' = networkEvents s.
Proof.
  intros Hrel Hdir Hnd s'.
  pose proof (consoleKept_performMemoryCheck env true s) as (_ & Htotal & _).
  pose proof (quiet_performMemoryCheck env true s) as ((_ & Hnet & _) & _).
  fold s' in Htotal, Hnet.
  subst s'. unfold performMemoryCheck in *. cbv zeta in *.
  set (s1 := fold_left (checkNetworkTab env true) (networkEvents s) s) in *.
  assert (sameConsole s s1 ∧ sessionDir s1 = Some dir) as [(Hc1 & _) Hd1].
  { split.
    - apply sameConsole_fold. intros s0 tab. unfold checkNetworkTab.
      case_match; [apply sameConsole_flushNetwork|apply sameConsole_refl].
    - rewrite <- Hdir. apply (sessionDir_quiet env). apply quiet_fold.
      intros s0 tab. unfold checkNetworkTab.
      case_match; [apply quiet_flushNetwork|apply quiet_refl]. }
  destruct (drain_fold env dir (map fst (consoleLogs s1)) Hrel s1 Hd1) as [Hkeys Hlogs].
  { intros k Hin. apply aget_is_Some, Hin. }
  set (s2 := fold_left (checkConsoleTab env true) (map fst (consoleLogs s1)) s1) in *.
  assert (Forall (fun tab => logs tab.2 = []) (consoleLogs s2)) as Hall.
  { apply Forall_forall. intros [k v] Hin. cbn.
    apply (Hlogs k v).
    - apply aget_NoDup; [rewrite Hkeys, Hc1; exact Hnd|exact Hin].
    - left. rewrite <- Hkeys. exact (elem_of_keys k v _ Hin). }
  assert (bufferedConsole s2 = 0) as Hzero.
  { unfold bufferedConsole. clear -Hall. induction Hall as [|[k v] l Hv _ IH]; [reflexivity|].
    cbn in *. rewrite Hv. cbn. exact IH. }
  split; [exact Hall|]. split; [rewrite Hkeys, Hc1; reflexivity|].
  split; [exact Hzero|]. split; [|exact Hnet].
  unfold consoleTotal in Htotal. lia.
Qed.

(** Two tabs with one record each. *)
Lemma X14_witness :
  let s :=
    set_consoleLogs
      [("A", mkTabLogs "A" "http://a.example/" [sampleRecord "error"] 0 None);
       ("B", mkTabLogs "B" "http://b.example/" [sampleRecord "log"] 0 None)] startState in
  reliable okEnv ∧ sessionDir s = Some "/s" ∧ NoDup (map fst (consoleLogs s))
  ∧ bufferedConsole (performMemoryCheck okEnv true s) = 0
  ∧ flushedConsole (performMemoryCheck okEnv true s) = 2.
Proof.
  intros s.
  assert (reliable okEnv) as Hrel by (intros n p; reflexivity).
  assert (sessionDir s = Some "/s") as Hdir by reflexivity.
  assert (NoDup (map fst (consoleLogs s))) as Hnd.
  { cbn. apply NoDup_cons. split; [|apply NoDup_singleton].
    intros H. apply list_elem_of_singleton in H. discriminate H. }
  split; [exact Hrel|]. split; [exact Hdir|]. split; [exact Hnd|].
  destruct (X14_forced_check_drains_console okEnv s "/s" Hrel Hdir Hnd)
    as (_ & _ & Hzero & Hflushed & _).
  split; [exact Hzero|]. rewrite Hflushed. vm_compute. reflexivity.
Defined.

(** ** Compression *)

Lemma extendsPlain_same s s' : history (disk s') = history (disk s) → extendsPlain s s'.
Proof. intros H. exists []. rewrite app_nil_r. split; [exact H|constructor]. Qed.

Lemma extendsPlain_refl s : extendsPlain s s.
Proof. apply extendsPlain_same. reflexivity. Qed.

Lemma extendsPlain_trans s1 s2 s3 : extendsPlain s1 s2 → extendsPlain s2 s3 → extendsPlain s1 s3.
Proof.
  intros (l12 & H12 & P12) (l23 & H23 & P23). exists (l12 ++ l23).
  split; [rewrite H23, H12, app_assoc; reflexivity|apply Forall_app; auto].
Qed.

Lemma extendsPlain_fold {B} (f : State → B → State) (l : list B) s :
  (∀ s x, extendsPlain s (f s x)) → extendsPlain s (fold_left f l s).
Proof.
  intros Hf. revert s. induction l as [|x l IH]; intros s; cbn; [apply extendsPlain_refl|].
  eapply extendsPlain_trans; [apply Hf|apply IH].
Qed.

(** Proves [extendsPlain] for a function given by cases on explicit
    states. *)
Ltac plain_leaf :=
  repeat case_match; simplify_eq; cbn;
  first
    [ apply extendsPlain_same; reflexivity
    | eexists; split; [cbn; rewrite <- ?app_assoc; reflexivity|repeat constructor] ].

Lemma extendsPlain_writeOnly env p data s :
  compressionApplies data = false →
  extendsPlain s (set_disk (writeCompressedFile env p data (disk s)).2 s).
Proof.
  intros Hc. unfold writeCompressedFile. unfold compressionApplies in Hc.
  destruct data; rewrite ?Hc; unfold attempt; cbn; plain_leaf.
Qed.

Lemma extendsPlain_writeAndReport env p data s :
  compressionApplies data = false → extendsPlain s (writeAndReport env p data s).
Proof.
  intros Hc. pose proof (extendsPlain_writeOnly env p data s Hc) as Hw.
  unfold writeAndReport.
  destruct (writeCompressedFile env p data (disk s)) as [[q|] d0]; exact Hw.
Qed.

Lemma extendsPlain_flushNetwork env tabId force s :
  extendsPlain s (flushNetworkEventsForTab env tabId force s).
Proof. unfold flushNetworkEventsForTab, ensureDir, attempt, caught. cbn. plain_leaf. Qed.

Lemma extendsPlain_flushConsole env tabId force s :
  extendsPlain s (flushConsoleLogsForTab env tabId force s).
Proof.
  unfold flushConsoleLogsForTab, ensureDir, readClock, attempt, caught. cbn. plain_leaf.
Qed.

Lemma extendsPlain_performMemoryCheck env force s :
  extendsPlain s (performMemoryCheck env force s).
Proof.
  unfold performMemoryCheck. cbv zeta.
  eapply extendsPlain_trans; [|apply extendsPlain_fold].
  - apply extendsPlain_fold. intros s0 tab. unfold checkNetworkTab.
    case_match; [apply extendsPlain_flushNetwork|apply extendsPlain_refl].
  - intros s0 tab. unfold checkConsoleTab.
    repeat case_match; try apply extendsPlain_refl. apply extendsPlain_flushConsole.
Qed.

Lemma extendsPlain_saveTabHar env harDir s tab : extendsPlain s (saveTabHar env harDir s tab).
Proof.
  unfold saveTabHar. destruct tab as [tabId tabEvents].
  case_bool_decide; [apply extendsPlain_refl|].
  destruct (aget tabId (pages s)); [apply extendsPlain_writeAndReport; reflexivity|].
  unfold readClock. cbn [fst snd].
  eapply extendsPlain_trans; [|apply extendsPlain_writeAndReport; reflexivity].
  apply extendsPlain_same. reflexivity.
Qed.

Lemma extendsPlain_mkdir env p s : extendsPlain s (set_disk (attempt env (Mkdir p) (disk s)).2 s).
Proof. eexists. split; [reflexivity|repeat constructor]. Qed.

Lemma extendsPlain_caught e s : extendsPlain s (caught e s).
Proof. apply extendsPlain_same. reflexivity. Qed.

Lemma extendsPlain_saveFinalHarFiles env s : extendsPlain s (saveFinalHarFiles env s).
Proof.
  unfold saveFinalHarFiles. destruct (sessionDir s) as [dir|]; [|apply extendsPlain_caught].
  assert (∀ harDir s0, extendsPlain s s0 →
    extendsPlain s
      (let s1 := fold_left (saveTabHar env harDir) (networkEvents s0) s0 in
       let allEvents := flat_map (fun tab => allItemsOf tab.2) (networkEvents s1) in
       let combinedHarData := createHarFile (objects s1) allEvents (map snd (pages s1)) in
       writeAndReport env (combinedHarPath dir) combinedHarData s1)) as Hrest.
  { intros harDir s0 H0. cbv zeta.
    eapply extendsPlain_trans; [exact H0|].
    eapply extendsPlain_trans; [|apply extendsPlain_writeAndReport; reflexivity].
    apply extendsPlain_fold. intros. apply extendsPlain_saveTabHar. }
  destruct (existsSync _ (disk s)); [apply Hrest, extendsPlain_refl|].
  destruct (attempt env (Mkdir _) (disk s)) as [[|] d0] eqn:E;
    assert (d0 = (attempt env (Mkdir (path_join dir "final_har_files")) (disk s)).2) as ->
      by (rewrite E; reflexivity).
  - apply Hrest, extendsPlain_mkdir.
  - apply Hrest. eapply extendsPlain_trans; [apply extendsPlain_mkdir|apply extendsPlain_caught].
Qed.

Lemma extendsPlain_saveTabLogs env logsDir s it : extendsPlain s (saveTabLogs env logsDir s it).
Proof.
  unfold saveTabLogs. destruct it as [index [pageId tabData]].
  case_bool_decide; [apply extendsPlain_refl|].
  unfold readClock. cbn [fst snd].
  eapply extendsPlain_trans; [|apply extendsPlain_writeAndReport; reflexivity].
  apply extendsPlain_same. reflexivity.
Qed.

Lemma extendsPlain_saveAllConsoleLogs env s : extendsPlain s (saveAllConsoleLogs env s).
Proof.
  unfold saveAllConsoleLogs. destruct (sessionDir s) as [dir|]; [|apply extendsPlain_caught].
  set (allTabsLogs := consoleLogs s).
  assert (∀ logsDir s0, extendsPlain s s0 →
    extendsPlain s
      (let s1 := fold_left (saveTabLogs env logsDir) (imap pair allTabsLogs) s0 in
       let '(now, s2) := readClock env s1 in
       writeAndReport env (combinedLogPath dir) (combinedLogDocument now allTabsLogs) s2)) as Hrest.
  { intros logsDir s0 H0. cbv zeta.
    eapply extendsPlain_trans; [exact H0|].
    set (s1 := fold_left _ _ s0). unfold readClock.
    eapply extendsPlain_trans; [|apply extendsPlain_writeAndReport; reflexivity].
    eapply extendsPlain_trans; [|apply extendsPlain_same; reflexivity].
    apply extendsPlain_fold. intros. apply extendsPlain_saveTabLogs. }
  destruct (bool_decide (1 < length allTabsLogs) && negb (existsSync _ (disk s))).
  - destruct (attempt env (Mkdir _) (disk s)) as [[|] d0] eqn:E;
      assert (d0 = (attempt env (Mkdir (path_join dir "console_logs")) (disk s)).2) as ->
        by (rewrite E; reflexivity).
    + apply Hrest, extendsPlain_mkdir.
    + apply Hrest. eapply extendsPlain_trans; [apply extendsPlain_mkdir|apply extendsPlain_caught].
  - apply Hrest, extendsPlain_refl.
Qed.

Lemma extendsPlain_autoSaveTick env startTime s : extendsPlain s (autoSaveTick env startTime s).
Proof.
  unfold autoSaveTick. destruct (sessionDir s) as [dir|]; [|apply extendsPlain_refl].
  unfold readClock. cbn [fst snd].
  set (s0 := set_tick (S (tick s)) s).
  set (s1 := fold_left (partialFlushTab env) (networkEvents s0) s0).
  assert (extendsPlain s s1) as H1.
  { eapply extendsPlain_trans; [apply (extendsPlain_same s s0); reflexivity|].
    apply extendsPlain_fold. intros sx tab. unfold partialFlushTab.
    case_match; [apply extendsPlain_flushNetwork|apply extendsPlain_refl]. }
  destruct (autoSaveSample s1) as [e|sample].
  { eapply extendsPlain_trans; [exact H1|apply extendsPlain_caught]. }
  set (s2 := set_disk _ s1).
  assert (extendsPlain s s2) as H2.
  { eapply extendsPlain_trans; [exact H1|]. apply extendsPlain_writeOnly. reflexivity. }
  eapply extendsPlain_trans; [exact H2|]. clearbody s2. clear.
  unfold attempt, caught. cbn. plain_leaf.
Qed.

Lemma extendsPlain_ensureSessionDir env s : extendsPlain s (ensureSessionDir env s).
Proof. unfold ensureSessionDir, readClock, attempt, caught. cbn. plain_leaf. Qed.

Lemma extendsPlain_writeSummary env startTime s : extendsPlain s (writeSummary env startTime s).
Proof. unfold writeSummary, readClock, attempt, caught. cbn. plain_leaf. Qed.

Lemma extendsPlain_onDisconnected env startTime s :
  extendsPlain s (onDisconnected env startTime s).
Proof.
  unfold onDisconnected.
  eapply extendsPlain_trans; [apply extendsPlain_ensureSessionDir|].
  eapply extendsPlain_trans; [apply extendsPlain_performMemoryCheck|].
  eapply extendsPlain_trans; [apply extendsPlain_saveFinalHarFiles|].
  eapply extendsPlain_trans; [apply extendsPlain_saveAllConsoleLogs|].
  apply extendsPlain_writeSummary.
Qed.

Lemma disk_trackTabBaseUrl env tabId url s : disk (trackTabBaseUrl env tabId url s) = disk s.
Proof. unfold trackTabBaseUrl. repeat case_match; reflexivity. Qed.

Lemma disk_initTab tabId s : disk (initTabNetworkEvents tabId s).1 = disk s.
Proof. unfold initTabNetworkEvents. destruct (aget _ _); reflexivity. Qed.

Lemma extendsPlain_onRequest env rq s : extendsPlain s (onRequest env rq s).
Proof.
  unfold onRequest.
  set (s1 := match rq_mainFrameUrl rq with Some url => _ | None => s end).
  assert (disk s1 = disk s) as H1.
  { subst s1. destruct (rq_mainFrameUrl rq); [apply disk_trackTabBaseUrl|reflexivity]. }
  unfold readClock. cbn [fst snd].
  set (s3 := set_tick _ _).
  pose proof (disk_initTab (rq_pageId rq) s3) as H4.
  destruct (initTabNetworkEvents (rq_pageId rq) s3) as [s4 tabEvents]. cbn [fst snd] in *.
  match goal with |- extendsPlain _ (if ?c then flushNetworkEventsForTab _ _ _ ?st else _) =>
    set (cond := c); set (s8 := st) end.
  assert (extendsPlain s s8) as H8.
  { apply extendsPlain_same. subst s8 s3. cbn in *. congruence. }
  destruct cond; [|exact H8].
  eapply extendsPlain_trans; [exact H8|apply extendsPlain_flushNetwork].
Qed.

Lemma extendsPlain_onConsoleStore env i s : extendsPlain s (onConsoleStore env i s).
Proof.
  destruct (pendingConsole s !! i) as [pc|] eqn:Hpc;
    [|unfold onConsoleStore; rewrite Hpc; apply extendsPlain_refl].
  destruct (onConsoleStore_shape env i s pc Hpc) as (tl' & s4 & -> & _ & _ & _ & Hd & _).
  assert (extendsPlain s s4) as H4 by (apply extendsPlain_same; rewrite Hd; reflexivity).
  case_bool_decide; [|exact H4].
  eapply extendsPlain_trans; [exact H4|apply extendsPlain_flushConsole].
Qed.

Lemma extendsPlain_act env startTime s a : extendsPlain s (act env startTime s a).
Proof.
  destruct a as [ev|pageId isMainFrame url title|isPage targetId]; cbn [act].
  - event_cases ev;
      cbn [step].
    + apply extendsPlain_same. unfold setupPageMonitoring, readClock. cbn.
      rewrite disk_initTab. cbn. rewrite disk_trackTabBaseUrl. reflexivity.
    + apply extendsPlain_onRequest.
    + apply extendsPlain_same. unfold onResponse, readClock. repeat case_match; reflexivity.
    + apply extendsPlain_same. reflexivity.
    + apply extendsPlain_onConsoleStore.
    + apply extendsPlain_same. unfold onConsoleCatch, readClock.
      destruct (aget pageId (consoleLogs s)); reflexivity.
    + apply extendsPlain_same. reflexivity.
    + apply extendsPlain_same. reflexivity.
    + apply extendsPlain_flushNetwork.
    + apply extendsPlain_flushConsole.
    + apply extendsPlain_performMemoryCheck.
    + apply extendsPlain_autoSaveTick.
    + apply extendsPlain_saveFinalHarFiles.
    + apply extendsPlain_saveAllConsoleLogs.
    + apply extendsPlain_onDisconnected.
  - apply extendsPlain_same. unfold onFrameNavigated. case_match; [|reflexivity].
    case_match; cbn; rewrite disk_trackTabBaseUrl; reflexivity.
  - apply extendsPlain_same. unfold onTargetDestroyed, readClock.
    repeat case_match; reflexivity.
Qed.

(** X15. Along any session, from any state, the history of attempts on
    the file system only grows, and no attempt it gains goes through the
    gzip stream: every document the pipeline hands to [writeCompressedFile]
    (the HAR documents, the documents of the console logs) has at most ten
    keys, so compression, although switched on, never applies and no
    [.gz] file is written. *)
Theorem X15_no_compressed_file
    (env : Env) (startTime : Z) (s : State) (acts : list Action) :
  let s' := session env startTime s acts in
  history (disk s') = history (disk s) ++ newAttempts s s'
  ∧ Forall (fun a => isStream a = false) (newAttempts s s').
Proof.
  intros s'.
  assert (extendsPlain s s') as (l & Hl & Hplain).
  { subst s'. unfold session. apply extendsPlain_fold. intros. apply extendsPlain_act. }
  rewrite (newAttempts_app s s' l Hl). split; [exact Hl|exact Hplain].
Qed.

(** ** The request handler *)

Lemma aset_aset {V} k (v v' : V) m : aset k v' (aset k v m) = aset k v' m.
Proof.
  induction m as [|[k0 v0] m IH]; cbn.
  - rewrite String.eqb_refl. reflexivity.
  - destruct (String.eqb k k0) eqn:E; cbn; rewrite ?String.eqb_refl, ?E; [reflexivity|].
    rewrite IH. reflexivity.
Qed.

Lemma onRequest_shape env rq s :
  ∃ s8,
    onRequest env rq s =
      (if bool_decide (S (ps_networkEvents (progressStats s)) mod batchSize = 0)
          && bool_decide (maxEventsBeforeFlush
                          ≤ events_length (events_push (bufferOf (rq_pageId rq) s)
                                             (S (uniqueRequestId s))))
       then flushNetworkEventsForTab env (rq_pageId rq) false s8 else s8)
    ∧ uniqueRequestId s8 = S (uniqueRequestId s)
    ∧ networkEvents s8 =
        aset (rq_pageId rq)
          (events_push (bufferOf (rq_pageId rq) s) (S (uniqueRequestId s)))
          (networkEvents s)
    ∧ objects s8 = <[S (uniqueRequestId s) := newEntry env rq s]> (objects s)
    ∧ tick s8 = S (S (tick s))
    ∧ pages s8 = pages s ∧ consoleLogs s8 = consoleLogs s ∧ disk s8 = disk s
    ∧ requestUrlMaps s8 =
        <[rq_pageId rq :=
            <[rq_url rq :=
                events_last (events_push (bufferOf (rq_pageId rq) s) (S (uniqueRequestId s)))]>
              (default ∅ (requestUrlMaps s !! rq_pageId rq))]> (requestUrlMaps s).
Proof.
  unfold onRequest, bufferOf, newEntry.
  set (s1 := match rq_mainFrameUrl rq with Some url => _ | None => s end).
  assert (uniqueRequestId s1 = uniqueRequestId s ∧ networkEvents s1 = networkEvents s
          ∧ objects s1 = objects s ∧ tick s1 = tick s
          ∧ ps_networkEvents (progressStats s1) = ps_networkEvents (progressStats s)
          ∧ pages s1 = pages s ∧ consoleLogs s1 = consoleLogs s ∧ disk s1 = disk s
          ∧ requestUrlMaps s1 = requestUrlMaps s)
    as (E1 & E2 & E3 & E4 & E5 & E6 & E7 & E8 & E9).
  { subst s1. destruct (rq_mainFrameUrl rq); [|repeat split].
    unfold trackTabBaseUrl. repeat case_match; repeat split. }
  clearbody s1. unfold readClock. cbn [fst snd].
  unfold initTabNetworkEvents.
  change (networkEvents (set_tick _ (set_uniqueRequestId _ s1))) with (networkEvents s1).
  rewrite E2. generalize bufferCapacity as cap. intros cap.
  destruct (aget (rq_pageId rq) (networkEvents s)) as [te|] eqn:Hget; cbn [default];
    cbv beta iota zeta; eexists;
    (split; [cbn -[events_push Nat.modulo]; rewrite ?E1, ?E4, ?E5; reflexivity|]);
    cbn -[events_push events_last]; rewrite ?E1, ?E2, ?E3, ?E4, ?E6, ?E7, ?E8, ?E9, ?aset_aset;
    repeat split.
Qed.

(** X16. The request handler gives the request the next number, stores a
    new entry object under it (with the zero-valued response) and pushes
    the number on the buffer of the request's tab, which is created when
    the tab has none; the buffers of the other tabs and the other entry
    objects are untouched. On a buffer that is full the push drops the
    oldest reference and sets [overflowed]: the oldest request of the tab
    leaves the buffer without having been written anywhere. *)
Theorem X16_request_is_buffered (env : Env) (rq : RequestEvent) (s : State) :
  let pageId := rq_pageId rq in
  let id := S (uniqueRequestId s) in
  let s' := onRequest env rq s in
  uniqueRequestId s' = id
  ∧ aget pageId (networkEvents s') = Some (events_push (bufferOf pageId s) id)
  ∧ (∀ other, other ≠ pageId → aget other (networkEvents s') = aget other (networkEvents s))
  ∧ objects s' !! id = Some (newEntry env rq s)
  ∧ (∀ r, r ≠ id → objects s' !! r = objects s !! r)
  ∧ (∀ b, bufferOf pageId s = Bounded b →
       BoundedArray.length b < BoundedArray.maxSize b →
       ∃ b', events_push (bufferOf pageId s) id = Bounded b'
             ∧ BoundedArray.array b' = BoundedArray.array b ++ [id]
             ∧ BoundedArray.overflowed b' = BoundedArray.overflowed b)
  ∧ (∀ b, bufferOf pageId s = Bounded b →
       BoundedArray.maxSize b ≤ BoundedArray.length b →
       ∃ b', events_push (bufferOf pageId s) id = Bounded b'
             ∧ BoundedArray.array b' = drop 1 (BoundedArray.array b) ++ [id]
             ∧ BoundedArray.overflowed b' = true).
Proof.
  intros pageId id s'.
  destruct (onRequest_shape env rq s) as (s8 & Hs' & Hu & Hn & Ho & _).
  fold pageId id s' in Hs', Hu, Hn, Ho.
  assert (sameCapture s8 s') as (Cu & Cn & _ & _ & _ & _ & Co).
  { rewrite Hs'. case_match; [apply (quiet_flushNetwork env)|apply sameCapture_refl]. }
  rewrite Cu, Cn, Co, Hu, Hn, Ho.
  split; [reflexivity|]. split; [apply aget_aset_eq|].
  split; [intros other Hne; apply aget_aset_ne; congruence|].
  split; [apply lookup_insert_eq|].
  split; [intros r Hne; apply lookup_insert_ne; congruence|].
  split.
  - intros b -> Hlt. eexists. split; [reflexivity|].
    rewrite push_array, push_overflowed. unfold BoundedArray.length in Hlt.
    rewrite !bool_decide_false by lia. rewrite orb_false_r. split; reflexivity.
  - intros b -> Hge. eexists. split; [reflexivity|].
    rewrite push_array, push_overflowed. unfold BoundedArray.length in Hge.
    rewrite !bool_decide_true by lia. rewrite orb_true_r. split; reflexivity.
Qed.

(** A request on a full buffer of capacity two. *)
Lemma X16_witness :
  let full := BoundedArray.mk 2 [1; 2] false in
  let s := set_uniqueRequestId 2 (set_networkEvents [("A", Bounded full)] startState) in
  let s' := onRequest okEnv (sampleRequest "A" "http://a.example/x") s in
  bufferOf "A" s = Bounded full
  ∧ BoundedArray.maxSize full ≤ BoundedArray.length full
  ∧ aget "A" (networkEvents s') = Some (Bounded (BoundedArray.mk 2 [2; 3] true)).
Proof.
  intros full s s'.
  assert (bufferOf "A" s = Bounded full) as Hb by reflexivity.
  assert (BoundedArray.maxSize full ≤ BoundedArray.length full) as Hfull by (cbn; lia).
  split; [exact Hb|]. split; [exact Hfull|].
  destruct (X16_request_is_buffered okEnv (sampleRequest "A" "http://a.example/x") s)
    as (_ & Hget & _ & _ & _ & _ & Hevict).
  destruct (Hevict full Hb Hfull) as (b' & Hpush & _).
  etransitivity; [exact Hget|]. reflexivity.
Defined.

(** ** Responses to requests *)

Lemma bufferOf_bounded tabId s :
  buffersBounded s → ∃ b, bufferOf tabId s = Bounded b.
Proof.
  intros Hb. unfold bufferOf.
  destruct (aget tabId (networkEvents s)) as [te|] eqn:Hget; cbn; [|eauto].
  pose proof (aget_Forall _ _ _ _ Hb Hget) as Hte.
  destruct te as [b|items]; [eauto|destruct Hte].
Qed.

(** C8. In every session that starts from the initial state, the
    response to a request completes nothing. The request handler has
    stored [tabEvents[tabEvents.length - 1]] in the pending-match index,
    which is undefined for the [BoundedArray] that holds the tab's events:
    the index has the URL as a key, bound to no entry. The response for
    that tab and URL, like every other response, finds no entry and leaves
    the whole state as it is: the entry of the request keeps the
    zero-valued response it was created with, the key stays in the index,
    and no statistic records the response. *)
Theorem C8_response_completes_nothing
    (env : Env) (startTime : Z) (dir : Path) (d : Disk) (t0 : Z)
    (acts : list Action) (rq : RequestEvent) (rs : ResponseEvent) :
  let s := session env startTime (initialState dir d t0) acts in
  let s1 := onRequest env rq s in
  rs_pageId rs = rq_pageId rq →
  rs_url rs = rq_url rq →
  (∃ urlMap, requestUrlMaps s1 !! rq_pageId rq = Some urlMap
             ∧ urlMap !! rq_url rq = Some None)
  ∧ pendingEntry (rs_pageId rs) (rs_url rs) s1 = None
  ∧ onResponse env rs s1 = s1
  ∧ objects (onResponse env rs s1) !! S (uniqueRequestId s) = Some (newEntry env rq s)
  ∧ response (newEntry env rq s) = emptyResponse
  ∧ ∀ other : ResponseEvent, onResponse env other s1 = s1.
Proof.
  intros s s1 Hpage Hurl.
  pose proof (captureOk_session env startTime _ acts (captureOk_initial dir d t0)) as Hok.
  fold s in Hok.
  pose proof (captureOk_onRequest env rq s Hok) as (_ & _ & _ & Hp1). fold s1 in Hp1.
  assert (∀ other : ResponseEvent, onResponse env other s1 = s1) as Hall
    by (intros other; apply onResponse_unmatched, Hp1).
  destruct (onRequest_shape env rq s)
    as (s8 & Hs1 & _ & _ & Ho & _ & _ & _ & _ & Hm). fold s1 in Hs1.
  assert (requestUrlMaps s1 = requestUrlMaps s8 ∧ objects s1 = objects s8) as [Em Eo].
  { rewrite Hs1. case_match; [|split; reflexivity].
    destruct (flushNetwork_frame env (rq_pageId rq) false s8) as (_ & _ & _ & Eo & Em & _).
    split; assumption. }
  destruct (bufferOf_bounded (rq_pageId rq) s (proj1 Hok)) as [b Hbuf].
  split.
  { eexists. rewrite Em, Hm, lookup_insert_eq. split; [reflexivity|].
    rewrite lookup_insert_eq, Hbuf. reflexivity. }
  split; [apply Hp1|]. split; [apply Hall|].
  split; [|split; [reflexivity|exact Hall]].
  rewrite Hall, Eo, Ho. apply lookup_insert_eq.
Qed.

(** A tab, a request, and the response to it. *)
Lemma C8_witness :
  let acts := [Handled (EvSetupPage "A" "http://a.example/" "A")] in
  let rq := sampleRequest "A" "http://a.example/x" in
  let rs := sampleResponse "A" "http://a.example/x" in
  let s1 := onRequest okEnv rq (session okEnv 0 startState acts) in
  rs_pageId rs = rq_pageId rq
  ∧ rs_url rs = rq_url rq
  ∧ requestUrlMaps s1 = {["A" := {["http://a.example/x" := None]}]}
  ∧ onResponse okEnv rs s1 = s1
  ∧ (response <$> objects (onResponse okEnv rs s1) !! 1) = Some emptyResponse.
Proof.
  intros acts rq rs s1.
  assert (rs_pageId rs = rq_pageId rq) as Hpage by reflexivity.
  assert (rs_url rs = rq_url rq) as Hurl by reflexivity.
  split; [exact Hpage|]. split; [exact Hurl|].
  destruct (C8_response_completes_nothing okEnv 0 "/s" sessionDisk 0 acts rq rs Hpage Hurl)
    as (_ & _ & Hsame & Hobj & _).
  split; [vm_compute; reflexivity|]. split; [exact Hsame|].
  etransitivity; [exact (f_equal (fmap response) Hobj)|]. reflexivity.
Defined.

(** ** Closed tabs and navigations *)

(** X17. When a page target with a page record is destroyed, the record
    stays in [pages], marked closed with the time of the event, and the
    number of active tabs goes down by one, but not below zero. Nothing
    captured for the tab is dropped: the network buffers, the entry
    objects, the console records and the flush statistics are what they
    were, and so are the records of the other pages. *)
Theorem X17_closed_tab_keeps_data
    (env : Env) (targetId : TabId) (s : State) (pageInfo : PageInfo) :
  aget targetId (pages s) = Some pageInfo →
  let s' := onTargetDestroyed env true targetId s in
  aget targetId (pages s') = Some (closedPage pageInfo (clock env (tick s)))
  ∧ (∀ other, other ≠ targetId → aget other (pages s') = aget other (pages s))
  ∧ ps_activeTabs (progressStats s') = ps_activeTabs (progressStats s) - 1
  ∧ networkEvents s' = networkEvents s
  ∧ objects s' = objects s
  ∧ consoleLogs s' = consoleLogs s
  ∧ flushStats s' = flushStats s
  ∧ countersOf s' = countersOf s
  ∧ disk s' = disk s.
Proof.
  intros Hget s'. subst s'. unfold onTargetDestroyed, readClock. rewrite Hget. cbn.
  split; [apply aget_aset_eq|].
  split; [intros other Hne; apply aget_aset_ne; congruence|].
  split; [lia|]. repeat split.
Qed.

(** Closing the only tab of a session. *)
Lemma X17_witness :
  let s := setupPageMonitoring okEnv "A" "http://a.example/" "A" startState in
  let s' := onTargetDestroyed okEnv true "A" s in
  aget "A" (pages s) = Some (mkPageInfo "A" "A" 1 "http://a.example/" false None)
  ∧ aget "A" (pages s') = Some (mkPageInfo "A" "A" 1 "http://a.example/" true (Some 2%Z))
  ∧ ps_activeTabs (progressStats s') = 0
  ∧ networkEvents s' = networkEvents s.
Proof.
  intros s s'.
  assert (aget "A" (pages s) = Some (mkPageInfo "A" "A" 1 "http://a.example/" false None))
    as Hget by (vm_compute; reflexivity).
  split; [exact Hget|].
  destruct (X17_closed_tab_keeps_data okEnv "A" s _ Hget) as (Hp & _ & Ha & Hn & _).
  split; [exact Hp|]. split; [etransitivity; [exact Ha|vm_compute; reflexivity]|exact Hn].
Defined.

(** X18. The navigation handler ignores every navigation that is not of
    the main frame, and those to the empty URL or to [about:blank]: the
    state is unchanged. For any other navigation of the main frame the
    page record, when there is one, takes the new URL and title and keeps
    its id, its start time and its closed mark, the URL is tracked in the
    statistics of the tab, and nothing else changes: buffers, entry
    objects, console records, counters and disk are what they were. *)
Theorem X18_navigation
    (env : Env) (pageId : TabId) (isMainFrame : bool) (url title : string) (s : State) :
  let s' := onFrameNavigated env pageId isMainFrame url title s in
  (isMainFrame = false ∨ url = "" ∨ url = "about:blank" → s' = s)
  ∧ (isMainFrame = true → url ≠ "" → url ≠ "about:blank" →
     tabUrlStats s' = tabUrlStats (trackTabBaseUrl env pageId url s)
     ∧ (∀ pageInfo, aget pageId (pages s) = Some pageInfo →
          aget pageId (pages s') =
            Some (mkPageInfo (p_id pageInfo) title (p_startedDateTime pageInfo) url
                    (closed pageInfo) (closedAt pageInfo)))
     ∧ (aget pageId (pages s) = None → pages s' = pages s)
     ∧ (∀ other, other ≠ pageId → aget other (pages s') = aget other (pages s)))
  ∧ sameNetwork s s' ∧ sameConsole s s' ∧ disk s' = disk s.
Proof.
  intros s'. split; [|split; [|split; [|split]]].
  - subst s'. unfold onFrameNavigated.
    intros [-> | [-> | ->]]; cbn; rewrite ?andb_false_r; reflexivity.
  - intros -> H1 H2. subst s'. unfold onFrameNavigated.
    apply String.eqb_neq in H1, H2. rewrite H1, H2. cbn [negb andb].
    assert (pages (trackTabBaseUrl env pageId url s) = pages s) as Hp
      by (unfold trackTabBaseUrl; repeat case_match; reflexivity).
    rewrite Hp.
    destruct (aget pageId (pages s)) as [pageInfo|] eqn:Hget.
    + cbn. rewrite ?Hp. split; [reflexivity|]. split.
      * intros p [= <-]. apply aget_aset_eq.
      * split; [discriminate|]. intros other Hne. apply aget_aset_ne. congruence.
    + split; [reflexivity|]. split; [discriminate|]. split; [intros _; exact Hp|].
      intros other _. rewrite ?Hp. reflexivity.
  - apply sameNetwork_onFrameNavigated.
  - apply sameConsole_onFrameNavigated.
  - subst s'. unfold onFrameNavigated. case_match; [|reflexivity].
    case_match; cbn; apply disk_trackTabBaseUrl.
Qed.

(** A navigation of the main frame of a tab to a new page. *)
Lemma X18_witness :
  let s := setupPageMonitoring okEnv "A" "http://a.example/" "A" startState in
  let s' := onFrameNavigated okEnv "A" true "http://b.example/" "B" s in
  aget "A" (pages s) = Some (mkPageInfo "A" "A" 1 "http://a.example/" false None)
  ∧ aget "A" (pages s') = Some (mkPageInfo "A" "B" 1 "http://b.example/" false None).
Proof.
  intros s s'.
  assert (aget "A" (pages s) = Some (mkPageInfo "A" "A" 1 "http://a.example/" false None))
    as Hget by (vm_compute; reflexivity).
  split; [exact Hget|].
  destruct (X18_navigation okEnv "A" true "http://b.example/" "B" s) as (_ & Hnav & _).
  destruct (Hnav eq_refl ltac:(discriminate) ltac:(discriminate)) as (_ & Hp & _).
  exact (Hp _ Hget).
Defined.

(** ** [saveConsoleLogs] *)

(** X19. [saveConsoleLogs] never throws and makes at most two attempts.
    For an array it first writes one document to the path: for an empty
    array the document that says no logs were captured, with zero entries;
    otherwise the total, the breakdown by type and all the records, in
    order. Only when that write fails does it write the raw array to the
    backup path. For the object [consoleLogs], which is what the emergency
    save passes, the path itself is never written: the only attempt is the
    raw object on the backup path. Every failure is reported in the list
    of errors, and nothing but the disk, the clock and that list
    changes. *)
Theorem X19_save_console_logs
    (env : Env) (filePath : Path) (arg : LogsArgument) (s : State) :
  let s' := saveConsoleLogs env filePath arg s in
  let backup ok := mkAttempt (WriteFile (filePath +:+ ".backup") (rawLogs arg)) ok in
  sameCapture s s' ∧ sameConsole s s'
  ∧ match arg with
    | LogsArray records =>
        let doc :=
          if bool_decide (records = []) then noLogsDocument (clock env (tick s))
          else logsDocument (clock env (tick s)) records in
        get_field "totalEntries" doc = Some (JNat (length records))
        ∧ get_field "entries" doc = Some (JArr (map jsonOfRecord records))
        ∧ (records ≠ [] → get_field "entriesByType" doc = Some (expectedBreakdown records))
        ∧ ((newAttempts s s' = [mkAttempt (WriteFile filePath doc) true]
            ∧ errors s' = errors s)
           ∨ (newAttempts s s' = [mkAttempt (WriteFile filePath doc) false; backup true]
              ∧ errors s' = errors s ++ [IOError filePath])
           ∨ (newAttempts s s' = [mkAttempt (WriteFile filePath doc) false; backup false]
              ∧ errors s' =
                  errors s ++ [IOError filePath; IOError (filePath +:+ ".backup")]))
    | LogsObject tabs =>
        (newAttempts s s' = [backup true]
         ∧ errors s' = errors s ++ [TypeError "logs.forEach is not a function"])
        ∨ (newAttempts s s' = [backup false]
           ∧ errors s' =
               errors s ++ [TypeError "logs.forEach is not a function";
                            IOError (filePath +:+ ".backup")])
    end.
Proof.
  cbv zeta. split; [|split].
  - unfold saveConsoleLogs, saveConsoleLogsBackup, readClock, attempt, caught.
    destruct arg; cbn; repeat case_match; repeat split.
  - unfold saveConsoleLogs, saveConsoleLogsBackup, readClock, attempt, caught.
    destruct arg; cbn; repeat case_match; repeat split.
  - destruct arg as [records|tabs].
    + assert (bool_decide (length records = 0) = bool_decide (records = [])) as Hempty.
      { apply bool_decide_ext. destruct records; cbn; split; congruence. }
      split; [|split; [|split]].
      * destruct records; reflexivity.
      * destruct records; reflexivity.
      * intros Hne. rewrite bool_decide_false by exact Hne.
        unfold logsDocument. cbn [get_field field String.eqb Ascii.eqb Bool.eqb].
        rewrite countEntryTypes_spec. reflexivity.
      * unfold saveConsoleLogs, saveConsoleLogsBackup, readClock, attempt, caught.
        cbn. rewrite Hempty.
        repeat case_match; simplify_eq; cbn.
        all: first
          [ left; split; [new_attempts_goal; reflexivity|reflexivity]
          | right; left; split;
            [new_attempts_goal; reflexivity|rewrite <- ?app_assoc; reflexivity]
          | right; right; split;
            [new_attempts_goal; reflexivity|rewrite <- ?app_assoc; reflexivity] ].
    + unfold saveConsoleLogs, saveConsoleLogsBackup, readClock, attempt, caught. cbn.
      repeat case_match; simplify_eq; cbn.
      all: first
        [ left; split; [new_attempts_goal; reflexivity|reflexivity]
        | right; split;
          [new_attempts_goal; reflexivity|rewrite <- ?app_assoc; reflexivity] ].
Qed.

(** ** [streamHarFile] *)

Lemma streamBatch_inner batch :
  streamBatch batch false = replicate (length batch) (JObj [], true).
Proof.
  unfold streamBatch. cbn [andb negb].
  induction batch as [|x l IH]; [reflexivity|].
  rewrite imap_cons. cbn. f_equal. exact IH.
Qed.

Lemma streamBatch_last batch :
  streamBatch batch true = emptyObjects (length batch).
Proof.
  unfold streamBatch, emptyObjects. cbn [andb].
  rewrite (imap_seq_0 batch (fun i => (JObj [], negb (bool_decide (i = length batch - 1))))).
  generalize (length batch) as m. intros [|m]; [reflexivity|].
  rewrite bool_decide_false by lia. replace (S m - 1) with m by lia.
  rewrite seq_S, fmap_app. cbn. rewrite bool_decide_true by reflexivity. cbn. f_equal.
  assert (∀ k, k ≤ m →
    (fun i => (JObj [], negb (bool_decide (i = m)))) <$> seq 0 k
    = replicate k (JObj [] : Json, true)) as H.
  { induction k as [|k IH]; intros Hk; [reflexivity|].
    rewrite seq_S, fmap_app, IH by lia. cbn. rewrite bool_decide_false by lia.
    cbn. symmetry. apply replicate_S_end. }
  apply H. lia.
Qed.

Lemma emptyObjects_split n k :
  0 < k → replicate n (JObj [] : Json, true) ++ emptyObjects k = emptyObjects (n + k).
Proof.
  intros Hk. unfold emptyObjects.
  rewrite !bool_decide_false by lia. rewrite app_assoc, <- replicate_add.
  replace (n + (k - 1)) with (n + k - 1) by lia. reflexivity.
Qed.

Lemma processNextBatch_spec entriesArray :
  ∀ fuel processed,
    processed ≤ length entriesArray →
    length entriesArray - processed < fuel →
    ∃ batches,
      processNextBatch fuel entriesArray processed
        = Some (map ChunkBatch batches ++ [ChunkText harCloseText])
      ∧ concat batches = emptyObjects (length entriesArray - processed)
      ∧ Forall (fun b => 0 < length b ∧ length b ≤ batchSize) batches.
Proof.
  assert (0 < batchSize) as Hb by (unfold batchSize; lia).
  set (total := length entriesArray).
  induction fuel as [|fuel IH]; intros processed Hle Hfuel; [lia|].
  cbn [processNextBatch]. fold total.
  case_bool_decide as Hdone.
  { exists []. replace (total - processed) with 0 by lia.
    split; [reflexivity|]. split; [reflexivity|constructor]. }
  set (batch := take _ _).
  assert (length batch = (processed + batchSize) `min` total - processed) as Hlen.
  { subst batch. rewrite length_take, length_drop. fold total. lia. }
  assert (0 < length batch ∧ length batch ≤ batchSize) as Hsize by lia.
  destruct (IH (processed + length batch)) as (batches & -> & Hcat & Hall); [lia|lia|].
  exists (streamBatch batch (bool_decide (total ≤ processed + length batch)) :: batches).
  split; [reflexivity|]. split.
  - cbn [concat]. rewrite Hcat. case_bool_decide as Hlast.
    + rewrite streamBatch_last.
      replace (total - (processed + length batch)) with 0 by lia.
      replace (total - processed) with (length batch) by lia.
      unfold emptyObjects at 2. cbn. rewrite app_nil_r. reflexivity.
    + rewrite streamBatch_inner, emptyObjects_split by lia. f_equal. lia.
  - constructor; [|exact Hall].
    unfold streamBatch. rewrite length_imap. exact Hsize.
Qed.

Lemma literalText_written h pagesJson e batches c :
  literalText (ChunkText h :: ChunkPages pagesJson :: ChunkText e
                 :: map ChunkBatch batches ++ [ChunkText c])
  = h +:+ e +:+ c.
Proof.
  unfold literalText. cbn [foldr]. do 2 f_equal.
  induction batches as [|b l IH]; [|cbn; exact IH].
  cbn. induction c as [|a c IH]; [reflexivity|].
  change (String a (c +:+ EmptyString) = String a c). f_equal. exact IH.
Qed.

(** X20. Given enough rounds (one more than the number of entries is
    always enough), [streamHarFile] finishes: it writes the header, the
    pages, the opening of the entry list, then one text per batch of at
    most 100 entries and at least one, and the closing text. The literal
    texts close one bracket less than they open: the closing text ends the
    entry list and the [log] object, not the outer object, so what is
    written is not a complete JSON document. Whatever
    the number of entries and the way they fall into batches, the batches
    together hold one object per entry of the array with a comma after
    each except the last, so the entry list is well formed; and every one
    of these objects is empty: no field of an entry is written. An
    argument that is neither an array nor a [Map] counts as no entries. *)
Theorem X20_stream_har_file (fuel : nat) (entries : TabEvents) (pgs : list PageInfo) :
  let n := length (eventsArrayOf entries) in
  n < fuel →
  ∃ batches,
    streamHarFile fuel entries pgs =
      Some (ChunkText harHeaderText :: ChunkPages (JArr (map jsonOfPage pgs))
              :: ChunkText entriesOpenText
              :: map ChunkBatch batches ++ [ChunkText harCloseText])
    ∧ leftOpen (literalText (default [] (streamHarFile fuel entries pgs))) = 1%Z
    ∧ concat batches = emptyObjects n
    ∧ length (concat batches) = n
    ∧ Forall (fun item => item.1 = JObj []) (concat batches)
    ∧ Forall (fun b => 0 < length b ∧ length b ≤ batchSize) batches.
Proof.
  intros n Hfuel.
  destruct (processNextBatch_spec (eventsArrayOf entries) fuel 0) as (batches & Hp & Hcat & Hall);
    [lia|fold n; lia|].
  rewrite Nat.sub_0_r in Hcat. fold n in Hcat.
  exists batches. unfold streamHarFile. rewrite Hp.
  split; [reflexivity|]. split; [|split; [exact Hcat|split; [|split; [|exact Hall]]]].
  - cbn [from_option id]. rewrite literalText_written. vm_compute. reflexivity.
  - rewrite Hcat. unfold emptyObjects. rewrite length_app, length_replicate.
    case_bool_decide; cbn; lia.
  - rewrite Hcat. unfold emptyObjects. apply Forall_app. split.
    + apply Forall_replicate. reflexivity.
    + case_bool_decide; repeat constructor.
Qed.

(** Three entries, with four rounds. *)
Lemma X20_witness :
  length (eventsArrayOf (Plain [1; 2; 3])) < 4
  ∧ ∃ batches,
      streamHarFile 4 (Plain [1; 2; 3]) [] =
        Some (ChunkText harHeaderText :: ChunkPages (JArr []) :: ChunkText entriesOpenText
                :: map ChunkBatch batches ++ [ChunkText harCloseText])
      ∧ concat batches = [(JObj [], true); (JObj [], true); (JObj [], false)].
Proof.
  assert (length (eventsArrayOf (Plain [1; 2; 3])) < 4) as Hfuel by (cbn; lia).
  split; [exact Hfuel|].
  destruct (X20_stream_har_file 4 (Plain [1; 2; 3]) [] Hfuel) as (batches & Hs & _ & Hcat & _).
  exists batches. split; [exact Hs|exact Hcat].
Defined.

(** ** The final console files *)

Lemma saveTabLogs_attempts env logsDir tabs s index pageId tabData :
  tabs !! index = Some (pageId, tabData) →
  Forall (tabLogAttempt tabs) (newAttempts s (saveTabLogs env logsDir s (index, (pageId, tabData)))).
Proof.
  intros Hl. unfold saveTabLogs. case_bool_decide as Hlen.
  { rewrite newAttempts_refl. constructor. }
  unfold readClock. cbn [fst snd].
  set (s1 := set_tick (S (tick s)) s).
  set (doc := tabDocument (clock env (tick s)) pageId tabData).
  destruct (writeAndReport_attempts env (finalConsolePath logsDir index pageId tabData) doc s1
              eq_refl ltac:(discriminate)) as (ok & ok2 & Hn).
  assert (newAttempts s (writeAndReport env (finalConsolePath logsDir index pageId tabData) doc s1)
          = newAttempts s1 (writeAndReport env (finalConsolePath logsDir index pageId tabData) doc s1))
    as -> by reflexivity.
  rewrite Hn.
  assert (logs tabData ≠ []) as Hne by (destruct (logs tabData); [contradiction|discriminate]).
  assert (∀ p ok',
    p = finalConsolePath logsDir index pageId tabData
    ∨ p = finalConsolePath logsDir index pageId tabData +:+ ".backup" →
    tabLogAttempt tabs (mkAttempt (WriteFile p doc) ok')) as Hone.
  { intros p ok' Hp. unfold tabLogAttempt. cbn [at_op].
    exists index, pageId, tabData, logsDir, (clock env (tick s)). auto. }
  destruct ok; repeat constructor; apply Hone; auto.
Qed.

Lemma fold_saveTabLogs_attempts env logsDir tabs its s :
  Forall (fun it => tabs !! it.1 = Some it.2) its →
  Forall (tabLogAttempt tabs) (newAttempts s (fold_left (saveTabLogs env logsDir) its s)).
Proof.
  intros Hits. revert s. induction Hits as [|[index [pageId tabData]] its Hit _ IH]; intros s.
  { cbn. rewrite newAttempts_refl. constructor. }
  cbn [fold_left].
  pose proof (quiet_saveTabLogs env logsDir s (index, (pageId, tabData))) as (_ & _ & T1).
  assert (trail env (saveTabLogs env logsDir s (index, (pageId, tabData)))
            (fold_left (saveTabLogs env logsDir) its
               (saveTabLogs env logsDir s (index, (pageId, tabData))))) as T2.
  { apply quiet_fold. intros. apply quiet_saveTabLogs. }
  rewrite (newAttempts_trans env _ _ _ T1 T2). apply Forall_app. split; [|apply IH].
  apply saveTabLogs_attempts. exact Hit.
Qed.

Lemma sum_nonEmptyTabs (tabs : list (TabId * TabLogs)) :
  sum_list (map (fun tab => length (logs tab.2)) (nonEmptyTabs tabs))
  = sum_list (map (fun tab => length (logs tab.2)) tabs).
Proof.
  unfold nonEmptyTabs. induction tabs as [|tab tabs IH]; [reflexivity|].
  rewrite filter_cons. destruct (decide (length (logs tab.2) ≠ 0)) as [Hne|He]; cbn.
  - rewrite IH. reflexivity.
  - rewrite IH. lia.
Qed.

Lemma length_nonEmptyTabs (tabs : list (TabId * TabLogs)) :
  length (nonEmptyTabs tabs) = length (filter (fun tab => logs tab.2 ≠ []) tabs).
Proof.
  unfold nonEmptyTabs. induction tabs as [|tab tabs IH]; [reflexivity|].
  rewrite !filter_cons.
  destruct (decide (length (logs tab.2) ≠ 0)) as [Hne|He],
           (decide (logs tab.2 ≠ [])) as [Hne'|He']; cbn; rewrite ?IH; try reflexivity.
  - exfalso. revert Hne He'. destruct (logs tab.2); intros Hne He';
      [apply Hne; reflexivity|apply He'; discriminate].
  - exfalso. revert He Hne'. destruct (logs tab.2); intros He Hne';
      [apply Hne'; reflexivity|apply He; discriminate].
Qed.

(** X21. With a session directory, [saveAllConsoleLogs] writes the
    combined document to [console_all.json] in the session directory
    after everything else and, only if that write fails, to its backup
    path. Before it there are only the creation of the directory of the
    tab files and the files of the tabs: a tab without records gets no
    file, a tab with records gets its document at its own path or backup
    path. [totalEntries] of the combined document is the number of
    records held in memory over all tabs and [totalTabs] the number of
    tabs that hold some. The save consumes nothing: the records, the flush
    statistics and the captured network data are what they were. *)
Theorem X21_final_console_files (env : Env) (s : State) (dir : Path) :
  sessionDir s = Some dir →
  let s' := saveAllConsoleLogs env s in
  ∃ now front ok ok2,
    newAttempts s s' =
      front ++ mkAttempt (WriteFile (combinedLogPath dir)
                            (combinedLogDocument now (consoleLogs s))) ok
        :: (if ok then []
            else [mkAttempt (WriteFile (combinedLogPath dir +:+ ".backup")
                               (combinedLogDocument now (consoleLogs s))) ok2])
    ∧ Forall (tabLogAttempt (consoleLogs s)) front
    ∧ get_field "totalEntries" (combinedLogDocument now (consoleLogs s))
        = Some (JNat (bufferedConsole s))
    ∧ get_field "totalTabs" (combinedLogDocument now (consoleLogs s))
        = Some (JNat (length (filter (fun tab => logs tab.2 ≠ []) (consoleLogs s))))
    ∧ consoleLogs s' = consoleLogs s
    ∧ flushStats s' = flushStats s
    ∧ sameCapture s s'.
Proof.
  intros Hdir s'.
  pose proof (sameConsole_saveAllConsoleLogs env s) as (Hc & Hf & _).
  pose proof (quiet_saveAllConsoleLogs env s) as (Hcap & _ & _).
  fold s' in Hc, Hf, Hcap.
  assert (∀ now,
    get_field "totalEntries" (combinedLogDocument now (consoleLogs s))
      = Some (JNat (bufferedConsole s))
    ∧ get_field "totalTabs" (combinedLogDocument now (consoleLogs s))
        = Some (JNat (length (filter (fun tab => logs tab.2 ≠ []) (consoleLogs s))))) as Hdoc.
  { intros now. split.
    - cbn. rewrite sum_nonEmptyTabs. reflexivity.
    - cbn. rewrite length_nonEmptyTabs. reflexivity. }
  enough (∃ now front ok ok2,
    newAttempts s s' =
      front ++ mkAttempt (WriteFile (combinedLogPath dir)
                            (combinedLogDocument now (consoleLogs s))) ok
        :: (if ok then []
            else [mkAttempt (WriteFile (combinedLogPath dir +:+ ".backup")
                               (combinedLogDocument now (consoleLogs s))) ok2])
    ∧ Forall (tabLogAttempt (consoleLogs s)) front) as (now & front & ok & ok2 & Hn & Hfront).
  { exists now, front, ok, ok2. destruct (Hdoc now) as [H1 H2].
    split; [exact Hn|]. split; [exact Hfront|]. split; [exact H1|]. split; [exact H2|].
    split; [exact Hc|]. split; [exact Hf|exact Hcap]. }
  subst s'. clear Hc Hf Hcap Hdoc. unfold saveAllConsoleLogs. rewrite Hdir.
  set (allTabsLogs := consoleLogs s).
  assert (∀ logsDir s0, quiet env s s0 → Forall (tabLogAttempt allTabsLogs) (newAttempts s s0) →
    ∃ now front ok ok2,
      newAttempts s
        (let s1 := fold_left (saveTabLogs env logsDir) (imap pair allTabsLogs) s0 in
         let '(now0, s2) := readClock env s1 in
         writeAndReport env (combinedLogPath dir) (combinedLogDocument now0 allTabsLogs) s2) =
        front ++ mkAttempt (WriteFile (combinedLogPath dir)
                              (combinedLogDocument now allTabsLogs)) ok
          :: (if ok then []
              else [mkAttempt (WriteFile (combinedLogPath dir +:+ ".backup")
                                 (combinedLogDocument now allTabsLogs)) ok2])
      ∧ Forall (tabLogAttempt allTabsLogs) front) as Hrest.
  { intros logsDir s0 (_ & _ & T0) H0. cbv zeta.
    set (s1 := fold_left (saveTabLogs env logsDir) (imap pair allTabsLogs) s0).
    assert (trail env s0 s1) as T1 by (apply quiet_fold; intros; apply quiet_saveTabLogs).
    unfold readClock. cbn [fst snd].
    set (s2 := set_tick (S (tick s1)) s1).
    assert (trail env s1 s2) as T12 by apply quiet_set_tick.
    set (doc := combinedLogDocument (clock env (tick s1)) allTabsLogs).
    assert (trail env s2 (writeAndReport env (combinedLogPath dir) doc s2)) as T2.
    { apply quiet_writeAndReport.
      apply (docStamped_now env s1 (fun now => combinedLogDocument now allTabsLogs)).
      reflexivity. }
    destruct (writeAndReport_attempts env (combinedLogPath dir) doc s2
                eq_refl ltac:(discriminate)) as (ok & ok2 & Hn).
    exists (clock env (tick s1)), (newAttempts s s0 ++ newAttempts s0 s1), ok, ok2.
    split.
    - rewrite (newAttempts_trans env s s2 _
                 (trail_trans env _ _ _ T0 (trail_trans env _ _ _ T1 T12)) T2).
      rewrite Hn.
      assert (newAttempts s s2 = newAttempts s s1) as -> by reflexivity.
      rewrite (newAttempts_trans env s s0 s1 T0 T1). reflexivity.
    - apply Forall_app. split; [exact H0|].
      apply fold_saveTabLogs_attempts. apply Forall_forall. intros [index tab] Hin.
      apply elem_of_lookup_imap in Hin. destruct Hin as (i & x & Heq & Hl).
      simplify_eq. exact Hl. }
  assert (Forall (tabLogAttempt allTabsLogs) (newAttempts s s)) as Hnil
    by (rewrite newAttempts_refl; constructor).
  destruct (bool_decide (1 < length allTabsLogs) && negb (existsSync _ (disk s))).
  - destruct (attempt env (Mkdir _) (disk s)) as [[|] d] eqn:E;
      assert (d = (attempt env (Mkdir (path_join dir "console_logs")) (disk s)).2) as ->
        by (rewrite E; reflexivity).
    + apply Hrest; [apply quiet_attempt_mkdir|].
      unfold newAttempts, attempt. cbn. rewrite drop_length_app. repeat constructor.
    + apply Hrest; [eapply quiet_trans; [apply quiet_attempt_mkdir|apply quiet_caught]|].
      unfold newAttempts, attempt, caught. cbn. rewrite drop_length_app. repeat constructor.
  - apply Hrest; [apply quiet_refl|exact Hnil].
Qed.

(** One tab with a record and one without, on a file system that accepts
    every write. *)
Lemma X21_witness :
  let s := set_consoleLogs
             [("A", mkTabLogs "Tab A" "https://a.example/" [sampleRecord "log"] 0 None);
              ("B", mkTabLogs "Tab B" "https://b.example/" [] 0 None)] startState in
  sessionDir s = Some "/s"
  ∧ consoleLogs (saveAllConsoleLogs okEnv s) = consoleLogs s
  ∧ length (newAttempts s (saveAllConsoleLogs okEnv s)) = 3.
Proof.
  intros s.
  assert (sessionDir s = Some "/s") as Hdir by reflexivity.
  split; [exact Hdir|].
  destruct (X21_final_console_files okEnv s "/s" Hdir) as (_ & _ & _ & _ & _ & _ & _ & _ & Hc & _).
  split; [exact Hc|]. vm_compute. reflexivity.
Defined.
